(** * geo-photo: the coverage-gap ("coldest spot") scripts

    A shallow embedding of the numeric core of the repository:
    - [Geodesy]: [haversine], the same function in every [optimal_point*.py]
      and in [point_by_geography.py];
    - the four [objective_function]s ([optimal_point.py],
      [optimal_point_pure_radius_dx.py], [point_by_geography.py],
      [optimal_point_2.py]);
    - [read_coordinates_from_file] of [optimal_point.py] and of
      [point_by_geography.py], the radius sweeps [precompute_optimal_points]
      of [optimal_point.py], [optimal_point_pure_radius_dx.py] and
      [optimal_point_2.py], and [main] of the first two;
    - [create_grid], [apply_points_to_grid] and [find_coldest_point] of
      [find_coldest_spot.py] and of [find_coldest_spot_4.py], and the script
      of [find_coldest_spot.py] that chains them.

    Number model.  A finite [float64] is modelled by the real number it
    stands for; the values a numpy operation produces beside those ([inf],
    [-inf], [nan]) are kept apart in [NumPy.float64].  The arithmetic of
    [haversine], where rounding decides between a distance and [nan], is a
    parameter ([Float64]): a rounding of [+], [-], [*], [/] and the functions
    [np.sin], [np.cos], [np.sqrt], [np.arctan2] and [** 2], of which only
    the laws listed there are used; IEEE 754 arithmetic and the C library
    obey them, and every statement about [haversine] and the objectives
    holds for every such arithmetic.  After [haversine], sums and
    differences are exact, and so is the quotient [1.0 / dist] unless it
    overflows.  Swept radii, which are only added,
    multiplied and rounded to two decimals, are exact rationals so that the
    sweep computes; [np.arange] is taken on them, not on their float64
    values.  Rendering (folium, matplotlib) is left out. *)

From Stdlib Require Import Reals Lra Lia ZArith QArith Qround Qreals List String Bool.
From Stdlib Require Lqa.
From Stdlib Require Import Qabs.
From stdpp Require Import list.
Import ListNotations.

Open Scope R_scope.

(** ** float64 arithmetic

    What [haversine] needs of float64 arithmetic: [rnd] rounds the exact
    result of [+], [-], [*] or [/] on finite operands to a float64;
    [fsin], [fcos], [fsqrt], [farctan2] and [fsquare] are [np.sin],
    [np.cos], [np.sqrt] (on a non-negative argument), [np.arctan2] and
    [x ** 2] on finite arguments; [deg2rad] is the factor of [np.radians].
    The laws are those of IEEE 754 round-to-nearest (0 and 1 are floats,
    rounding commutes with negation and keeps the sign) and of the C
    library ([sin] is odd and [sin(0) = 0]; a square does not depend on the
    sign; [sqrt(0) = 0], [sqrt(1) = 1]; [atan2(0, 1) = 0]; results of [sqrt]
    and, on non-negative arguments, of [atan2] are not negative).  Nothing
    says that a rounded value is close to the exact one: no statement below
    needs it. *)
Class Float64 : Type :=
  { rnd : R -> R;
    fsin : R -> R;
    fcos : R -> R;
    fsqrt : R -> R;
    farctan2 : R -> R -> R;
    fsquare : R -> R;
    deg2rad : R;
    rnd_0 : rnd 0 = 0;
    rnd_1 : rnd 1 = 1;
    rnd_opp : forall x, rnd (- x) = - rnd x;
    rnd_nonneg : forall x, 0 <= x -> 0 <= rnd x;
    fsin_0 : fsin 0 = 0;
    fsin_opp : forall x, fsin (- x) = - fsin x;
    fsquare_0 : fsquare 0 = 0;
    fsquare_opp : forall x, fsquare (- x) = fsquare x;
    fsqrt_0 : fsqrt 0 = 0;
    fsqrt_1 : fsqrt 1 = 1;
    fsqrt_nonneg : forall x, 0 <= x -> 0 <= fsqrt x;
    farctan2_0_1 : farctan2 0 1 = 0;
    farctan2_nonneg : forall y x, 0 <= y -> 0 <= x -> 0 <= farctan2 y x }.

(** ** Python values and exceptions *)

Module Py.

Inductive exn : Type :=
| ValueError
| IndexError
| OverflowError
| StopIteration
| ZeroDivisionError.

Inductive result (A : Type) : Type :=
| Ok (a : A)
| Raise (e : exn).

Arguments Ok {A} a.
Arguments Raise {A} e.

Definition bind {A B : Type} (m : result A) (k : A -> result B) : result B :=
  match m with
  | Ok a => k a
  | Raise e => Raise e
  end.

(** A [for] loop over [l] whose body updates the loop state [s] and may
    raise; an exception leaves the loop. *)
Fixpoint for_each {A S : Type} (body : S -> A -> result S) (l : list A) (s : S)
    : result S :=
  match l with
  | [] => Ok s
  | a :: l' => bind (body s a) (for_each body l')
  end.

(** Builtin [min] over a sequence: [ValueError] on an empty one, otherwise
    the first smallest element (comparison by [<]). *)
Definition min (l : list R) : result R :=
  match l with
  | [] => Raise ValueError
  | x :: l' => Ok (fold_left (fun m y => if Rlt_dec y m then y else m) l' x)
  end.

(** Builtin [max], likewise (comparison by [>]). *)
Definition max (l : list R) : result R :=
  match l with
  | [] => Raise ValueError
  | x :: l' => Ok (fold_left (fun m y => if Rgt_dec y m then y else m) l' x)
  end.

(** Builtin [min] over items compared by [lt] (the items' [<]): the first
    item that no later item is [<] of, once it is held.  With float64 items
    a [nan] in first place is returned, a later one is passed over. *)
Definition min_by {A : Type} (lt : A -> A -> bool) (l : list A) : result A :=
  match l with
  | [] => Raise ValueError
  | x :: l' => Ok (fold_left (fun m y => if lt y m then y else m) l' x)
  end.

(** [int(x)] on a finite float: truncation toward zero. *)
Definition trunc (x : R) : Z :=
  if Rle_dec 0 x then Int_part x else (- Int_part (- x))%Z.

(** [range(lo, hi)]. *)
Definition range (lo hi : Z) : list Z :=
  map (fun k => (lo + Z.of_nat k)%Z) (seq 0 (Z.to_nat (hi - lo))).

(** [seq[k]] for a non-negative literal index [k]. *)
Definition item {A : Type} (seq : list A) (k : nat) : result A :=
  match seq !! k with
  | Some a => Ok a
  | None => Raise IndexError
  end.

End Py.

#[global] Instance result_bind : MBind Py.result := fun A B k m => Py.bind m k.
#[global] Instance result_ret : MRet Py.result := @Py.Ok.

(** ** The part of numpy the scripts use *)

Module NumPy.

(** A [float64]: a finite value, or one of the three special values. *)
Inductive float64 : Type :=
| Fin (r : R)
| PInf
| NInf
| NaN.

(** [np.radians]: the product with a constant, rounded. *)
Definition radians {fl : Float64} (deg : R) : R := rnd (deg * deg2rad).

(** [np.sqrt] of a finite number: [nan] (with a warning) below 0. *)
Definition sqrt64 {fl : Float64} (x : R) : float64 :=
  if Rlt_dec x 0 then NaN else Fin (fsqrt x).

(** The exact value of [arctan2(y, x)] on finite arguments. *)
Definition arctan2 (y x : R) : R :=
  if Rlt_dec 0 x then atan (y / x)
  else if Rlt_dec x 0 then
    (if Rle_dec 0 y then atan (y / x) + PI else atan (y / x) - PI)
  else if Rlt_dec 0 y then PI / 2
  else if Rlt_dec y 0 then - (PI / 2)
  else 0.

(** Scalar division of finite operands.  A zero divisor is not an
    exception in numpy: it gives a warning and [inf], [-inf] or [nan]. *)
Definition true_divide (a b : R) : float64 :=
  if Req_dec_T b 0 then
    (if Rlt_dec 0 a then PInf else if Rlt_dec a 0 then NInf else NaN)
  else Fin (a / b).

Definition add (u v : float64) : float64 :=
  match u, v with
  | NaN, _ | _, NaN => NaN
  | PInf, NInf | NInf, PInf => NaN
  | PInf, _ | _, PInf => PInf
  | NInf, _ | _, NInf => NInf
  | Fin a, Fin b => Fin (a + b)
  end.

(** [u <= v]; false as soon as one side is [nan]. *)
Definition le (u v : float64) : Prop :=
  match u, v with
  | NaN, _ | _, NaN => False
  | NInf, _ | _, PInf => True
  | Fin a, Fin b => a <= b
  | _, _ => False
  end.

(** Builtin [sum] over float64 scalars: left to right from [0]. *)
Definition sum (l : list float64) : float64 := fold_left add l (Fin 0).

(** [int(v)] on a float64 scalar. *)
Definition to_int (v : float64) : Py.result Z :=
  match v with
  | Fin r => Py.Ok (Py.trunc r)
  | PInf | NInf => Py.Raise Py.OverflowError
  | NaN => Py.Raise Py.ValueError
  end.

(** A two-dimensional float64 array, row by row. *)
Abbreviation ndarray := (list (list float64)).

(** [a.shape].  An array without rows is given width 0: no loop of the
    scripts reads the width of such an array. *)
Definition shape (a : ndarray) : Z * Z :=
  (Z.of_nat (length a),
   Z.of_nat (match a with [] => 0 | row :: _ => length row end)).

(** [np.zeros((h, w))]. *)
Definition zeros (h w : Z) : Py.result ndarray :=
  if ((h <? 0) || (w <? 0))%Z then Py.Raise Py.ValueError
  else Py.Ok (replicate (Z.to_nat h) (replicate (Z.to_nat w) (Fin 0))).

(** Index normalisation along an axis of length [n]: a negative index counts
    from the end, anything outside [-n, n) is an [IndexError]. *)
Definition index (n k : Z) : Py.result nat :=
  if ((0 <=? k) && (k <? n))%Z then Py.Ok (Z.to_nat k)
  else if ((- n <=? k) && (k <? 0))%Z then Py.Ok (Z.to_nat (k + n))
  else Py.Raise Py.IndexError.

(** The cell at row [r], column [c], if there is one. *)
Definition cell (a : ndarray) (r c : nat) : option float64 :=
  row ← a !! r; row !! c.

(** [a[r, c] += v]. *)
Definition iadd (a : ndarray) (r c : Z) (v : float64) : Py.result ndarray :=
  let '(h, w) := shape a in
  r' ← index h r;
  c' ← index w c;
  Py.Ok (alter (alter (fun old => add old v) c') r' a).

(** The comparisons [u < v] and [u <= v] as a test: false as soon as one
    side is [nan]. *)
Definition ltb (u v : float64) : bool :=
  match u, v with
  | Fin a, Fin b => if Rlt_dec a b then true else false
  | NInf, Fin _ | NInf, PInf | Fin _, PInf => true
  | _, _ => false
  end.

Definition leb (u v : float64) : bool :=
  match u, v with
  | NaN, _ | _, NaN => false
  | NInf, _ | _, PInf => true
  | Fin a, Fin b => if Rle_dec a b then true else false
  | _, _ => false
  end.

Definition isnan (v : float64) : bool :=
  match v with NaN => true | _ => false end.

(** [u > v] and [u == v] as a test: false as soon as one side is [nan]. *)
Definition gtb (u v : float64) : bool := ltb v u.

Definition eqb (u v : float64) : bool :=
  match u, v with
  | Fin a, Fin b => if Req_dec_T a b then true else false
  | PInf, PInf | NInf, NInf => true
  | _, _ => false
  end.

(** [- v], [abs(v)], [a - v] and [a / v] for a float64 [v] and a finite
    [a]. *)
Definition neg (v : float64) : float64 :=
  match v with
  | Fin r => Fin (- r)
  | PInf => NInf
  | NInf => PInf
  | NaN => NaN
  end.

Definition abs (v : float64) : float64 :=
  match v with
  | Fin r => Fin (Rabs r)
  | PInf | NInf => PInf
  | NaN => NaN
  end.

Definition rsub (a : R) (v : float64) : float64 := add (Fin a) (neg v).

(** The least magnitude that round-to-nearest takes to [inf]:
    [2 ** 1024 - 2 ** 970]. *)
Definition overflow_bound : R := 2 ^ 1024 - 2 ^ 970.

(** The float64 an operation returns for the exact result [v]: [inf] or
    [-inf] (with a warning) from [overflow_bound] on. *)
Definition overflow (v : float64) : float64 :=
  match v with
  | Fin r =>
      if Rle_dec overflow_bound r then PInf
      else if Rle_dec r (- overflow_bound) then NInf
      else Fin r
  | _ => v
  end.

Definition rtruediv (a : R) (v : float64) : float64 :=
  match v with
  | Fin r => overflow (true_divide a r)
  | PInf | NInf => Fin 0
  | NaN => NaN
  end.

(** [a[i][j]]: the row [a[i]], then its element [j]. *)
Definition getitem (a : ndarray) (i j : Z) : Py.result float64 :=
  r ← index (Z.of_nat (length a)) i;
  match a !! r with
  | None => Py.Raise Py.IndexError
  | Some row =>
      c ← index (Z.of_nat (length row)) j;
      match row !! c with
      | None => Py.Raise Py.IndexError
      | Some v => Py.Ok v
      end
  end.

(** [np.argmin] over the elements from position [i] on, with [mp] the
    smallest value met so far and [min_ind] its position: a later element
    replaces it unless it is [>= mp], and a [nan] ends the scan. *)
Fixpoint argmin_scan (mp : float64) (min_ind i : nat) (l : list float64) : nat :=
  match l with
  | [] => min_ind
  | v :: l' =>
      if leb mp v then argmin_scan mp min_ind (S i) l'
      else if isnan v then i
      else argmin_scan v i (S i) l'
  end.

(** [np.argmin(a, axis=None)] on the flattened array: the position of the
    first smallest element, of the first [nan] if there is one;
    [ValueError] on an empty array. *)
Definition argmin (flat : list float64) : Py.result nat :=
  match flat with
  | [] => Py.Raise Py.ValueError
  | v :: l => if isnan v then Py.Ok 0%nat else Py.Ok (argmin_scan v 0 1 l)
  end.

(** [np.unravel_index(k, (h, w))] for a position within the array. *)
Definition unravel_index (k : nat) (shape : Z * Z) : Z * Z :=
  let w := snd shape in
  (Z.of_nat k / w, Z.of_nat k mod w)%Z.

End NumPy.

Import NumPy.

Definition coord : Type := (R * R)%type.

(** ** Geodesy: [haversine] (optimal_point.py, lines 8-20) *)

Module Geodesy.

Section Arithmetic.

Context {fl : Float64}.

(** The haversine term [a] of the source, every operation rounded. *)
Definition hav_a (coord1 coord2 : coord) : R :=
  let '(lat1, lon1) := coord1 in
  let '(lat2, lon2) := coord2 in
  let dlat := radians (rnd (lat2 - lat1)) in
  let dlon := radians (rnd (lon2 - lon1)) in
  rnd (fsquare (fsin (rnd (dlat / 2))) +
       rnd (rnd (fcos (radians lat1) * fcos (radians lat2))
            * fsquare (fsin (rnd (dlon / 2))))).

(** [haversine].  When rounding has left [a] above 1 (or below 0), one of
    the two [np.sqrt] is [nan], and so are [np.arctan2] of it, [c] and the
    distance returned. *)
Definition haversine (coord1 coord2 : coord) : float64 :=
  let R_earth := 6371 in
  let a := hav_a coord1 coord2 in
  match sqrt64 a, sqrt64 (rnd (1 - a)) with
  | Fin y, Fin x =>
      let c := rnd (2 * farctan2 y x) in
      Fin (rnd (R_earth * c))
  | _, _ => NaN
  end.

End Arithmetic.

End Geodesy.

Import Geodesy.

(** A shapely geometry, as far as the scripts use one: its [contains] test
    on a [Point(x, y)]. *)
Record Geometry : Type := { contains : R * R -> bool }.

(** ** Reading the points, and what a sweep leaves behind *)

#[global] Instance Rle_decision (a b : R) : Decision (a <= b) := Rle_dec a b.

(** A CSV field, by what [float()] makes of it. *)
Inductive field : Type :=
| Number (r : R)
| Text (s : string).

Definition float (f : field) : Py.result R :=
  match f with
  | Number r => Py.Ok r
  | Text _ => Py.Raise Py.ValueError
  end.

(** [read_coordinates_from_file], on the rows [csv.reader] yields
    (optimal_point.py, lines 30-37; the same in
    optimal_point_pure_radius_dx.py). *)
Definition read_coordinates_from_file (file : list (list field))
    : Py.result (list coord) :=
  match file with
  | [] => Py.Raise Py.StopIteration
  | _header :: rows =>
      Py.for_each
        (fun points row =>
           f0 ← Py.item row 0;
           lat ← float f0;
           f1 ← Py.item row 1;
           lon ← float f1;
           Py.Ok (points ++ [(lat, lon)]))
        rows []
  end.

(** [scipy.optimize.OptimizeResult], the fields the scripts read. *)
Record OptimizeResult : Type :=
  { x : coord; success : bool; message : string }.

(** A line printed by a sweep. *)
Inductive output : Type :=
| OptimizationFailed (radius : Q) (message : string).

(** A [dict] keyed by float: insertion-ordered, keys compared by value;
    assigning to a present key replaces its value in place. *)
Definition dict (V : Type) : Type := list (Q * V).

Fixpoint dict_set {V : Type} (k : Q) (v : V) (d : dict V) : dict V :=
  match d with
  | [] => [(k, v)]
  | (k', v') :: d' =>
      if Qeq_bool k' k then (k', v) :: d' else (k', v') :: dict_set k v d'
  end.

(** [np.arange(start, stop, step)]: [ceil((stop - start) / step)] values
    [start + k * step]; the division by a zero step raises.  The length is
    that of the exact quotient: numpy takes the float64 quotient, which can
    lie just above an integer the exact one equals, and then sweeps one
    value more. *)
Definition arange (start stop step : Q) : Py.result (list Q) :=
  if Qeq_bool step 0 then Py.Raise Py.ZeroDivisionError
  else
    let n := Qceiling ((stop - start) / step) in
    Py.Ok (map (fun k => (start + inject_Z (Z.of_nat k) * step)%Q)
               (seq 0 (Z.to_nat n))).

(** [round(radius, 2)]: to the nearest hundredth, ties to even. *)
Definition round_half_even (q : Q) : Z :=
  let f := Qfloor q in
  match ((q - inject_Z f) ?= 1 # 2)%Q with
  | Lt => f
  | Gt => (f + 1)%Z
  | Eq => if Z.even f then f else (f + 1)%Z
  end.

Definition round2 (q : Q) : Q := (round_half_even (q * 100) # 100)%Q.

(** The state a sweep works on: the [optimal_points] dict, what was printed,
    the rows written to optimal_points.csv after its header, the state of the
    optimizer (its random generator), and [solved], the log of every returned
    optimizer call with the radius it was run for. *)
Record sweep_state (solver_state : Type) : Type :=
  { optimal_points : dict coord;
    stdout : list output;
    csv_file : list (Q * coord);
    solver : solver_state;
    solved : list (Q * OptimizeResult) }.

Arguments optimal_points {solver_state} _.
Arguments stdout {solver_state} _.
Arguments csv_file {solver_state} _.
Arguments solver {solver_state} _.
Arguments solved {solver_state} _.

(** The state before the first iteration: [optimal_points = {}]. *)
Definition sweep_start {solver_state : Type} (s : solver_state)
    : sweep_state solver_state :=
  {| optimal_points := []; stdout := []; csv_file := []; solver := s;
     solved := [] |}.

(** ** optimal_point.py: minimum-distance scoring *)

Module OptimalPoint.

Section Sweep.

Context {fl : Float64} {solver_state : Type}.

(** [objective_function] (lines 23-28).  A [nan] distance to the center is
    not [> radius]; [min] is the builtin. *)
Definition objective_function
    (x : coord) (points : list coord) (center : coord) (radius : R)
    : Py.result float64 :=
  let distances := map (haversine x) points in
  if gtb (haversine x center) (Fin radius) then Py.Ok (Fin 0)
  else m ← Py.min_by ltb distances; Py.Ok (neg m).

(** [scipy.optimize.minimize(fun, x0, method='L-BFGS-B', bounds=...)]. *)
Variable minimize :
  (coord -> Py.result float64) -> coord -> list (R * R) -> solver_state ->
  Py.result OptimizeResult * solver_state.

Definition precompute_optimal_points
    (points : list coord) (center : coord) (radius_range : Q * Q) (step : Q)
    (s : solver_state) : Py.result (sweep_state solver_state) :=
  radii ← arange (fst radius_range) (snd radius_range + step)%Q step;
  Py.for_each
    (fun st radius =>
       let radius := round2 radius in
       let initial_guess := center in
       let bounds := [(fst center - 10, fst center + 10);
                      (snd center - 10, snd center + 10)] in
       let '(result, solver') :=
         minimize (fun x => objective_function x points center (Q2R radius))
                  initial_guess bounds (solver st) in
       result ← result;
       if success result then
         Py.Ok {| optimal_points := dict_set radius (x result) (optimal_points st);
                  stdout := stdout st;
                  csv_file := csv_file st;
                  solver := solver';
                  solved := solved st ++ [(radius, result)] |}
       else
         Py.Ok {| optimal_points := optimal_points st;
                  stdout := stdout st ++ [OptimizationFailed radius (message result)];
                  csv_file := csv_file st;
                  solver := solver';
                  solved := solved st ++ [(radius, result)] |})
    radii (sweep_start s).

(** [main] up to its call of [plot_maps]: [Py.Ok st] is the state of the
    sweep that [plot_maps] is then called with, not the return of
    [main]. *)
Definition main (file : list (list field)) (center : coord)
    (radius_range : Q * Q) (step : Q) (s : solver_state)
    : Py.result (sweep_state solver_state) :=
  points ← read_coordinates_from_file file;
  precompute_optimal_points points center radius_range step s.

End Sweep.

End OptimalPoint.

(** ** optimal_point_pure_radius_dx.py: inverse-distance scoring *)

Module PureRadiusDx.

Section Sweep.

Context {fl : Float64} {solver_state : Type}.

(** [objective_function] (lines 25-38). *)
Definition objective_function
    (x : coord) (points : list coord) (center : coord) (radius : R)
    : Py.result float64 :=
  let distances := map (haversine x) points in
  let distance_to_center := haversine x center in
  if gtb distance_to_center (Fin radius) then Py.Ok (Fin 1000000000)
  else
    let distance_to_boundary := abs (rsub radius distance_to_center) in
    let distances := distances ++ [distance_to_boundary] in
    let weighted_distances := map (fun dist => rtruediv 1 dist) distances in
    Py.Ok (NumPy.sum weighted_distances).

(** [scipy.optimize.differential_evolution(func, bounds, ...)]. *)
Variable differential_evolution :
  (coord -> Py.result float64) -> list (R * R) -> solver_state ->
  Py.result OptimizeResult * solver_state.

Definition precompute_optimal_points
    (points : list coord) (center : coord) (radius_range : Q * Q) (step : Q)
    (s : solver_state) : Py.result (sweep_state solver_state) :=
  let bounds := [(fst center - 0.5, fst center + 0.5);
                 (snd center - 0.5, snd center + 0.5)] in
  radii ← arange (fst radius_range) (snd radius_range + step)%Q step;
  Py.for_each
    (fun st radius =>
       let radius := round2 radius in
       let '(result, solver') :=
         differential_evolution
           (fun x => objective_function x points center (Q2R radius))
           bounds (solver st) in
       result ← result;
       if success result then
         Py.Ok {| optimal_points := dict_set radius (x result) (optimal_points st);
                  stdout := stdout st;
                  csv_file := csv_file st ++ [(radius, x result)];
                  solver := solver';
                  solved := solved st ++ [(radius, result)] |}
       else
         Py.Ok {| optimal_points := optimal_points st;
                  stdout := stdout st ++ [OptimizationFailed radius (message result)];
                  csv_file := csv_file st;
                  solver := solver';
                  solved := solved st ++ [(radius, result)] |})
    radii (sweep_start s).

End Sweep.

End PureRadiusDx.

(** ** point_by_geography.py: inverse-distance scoring inside a boundary *)

Module PointByGeography.

(** [objective_function] (lines 81-88). *)
Definition objective_function {fl : Float64}
    (x : coord) (points : list coord) (boundary : Geometry)
    : Py.result float64 :=
  let test_point := (fst x, snd x) in
  if negb (contains boundary test_point) then Py.Ok (Fin 1000000000)
  else
    let distances := map (haversine x) points in
    let weighted_distances := map (fun dist => rtruediv 1 dist) distances in
    Py.Ok (NumPy.sum weighted_distances).

(** [read_coordinates_from_file] (lines 91-100): as in optimal_point.py, but
    a row whose coordinates are out of range is left out. *)
Definition read_coordinates_from_file (file : list (list field))
    : Py.result (list coord) :=
  match file with
  | [] => Py.Raise Py.StopIteration
  | _header :: rows =>
      Py.for_each
        (fun points row =>
           f0 ← Py.item row 0;
           lat ← float f0;
           f1 ← Py.item row 1;
           lon ← float f1;
           if decide ((-90 <= lat <= 90) /\ (-180 <= lon <= 180))
           then Py.Ok (points ++ [(lat, lon)])
           else Py.Ok points)
        rows []
  end.

End PointByGeography.

(** ** optimal_point_2.py: minimum-distance scoring on public land *)

Module OptimalPoint2.

Section Sweep.

Context {fl : Float64} {solver_state : Type}.

(** [objective_function] (lines 26-36). *)
Definition objective_function
    (x : coord) (points : list coord) (center : coord) (radius : R)
    (public_land_polygons : list Geometry)
    : Py.result float64 :=
  let point := (snd x, fst x) in
  if negb (existsb (fun polygon => contains polygon point) public_land_polygons)
  then Py.Ok (Fin 1000)
  else
    let distances := map (haversine x) points in
    if gtb (haversine x center) (Fin radius) then Py.Ok (Fin 1000)
    else m ← Py.min_by ltb distances; Py.Ok (neg m).

(** [scipy.optimize.differential_evolution(func, bounds, ...)]. *)
Variable differential_evolution :
  (coord -> Py.result float64) -> list (R * R) -> solver_state ->
  Py.result OptimizeResult * solver_state.

Definition precompute_optimal_points
    (points : list coord) (center : coord) (radius_range : Q * Q) (step : Q)
    (public_land_polygons : list Geometry)
    (s : solver_state) : Py.result (sweep_state solver_state) :=
  let bounds := [(fst center - 0.5, fst center + 0.5);
                 (snd center - 0.5, snd center + 0.5)] in
  radii ← arange (fst radius_range) (snd radius_range + step)%Q step;
  Py.for_each
    (fun st radius =>
       let radius := round2 radius in
       let '(result, solver') :=
         differential_evolution
           (fun x => objective_function x points center (Q2R radius)
                       public_land_polygons)
           bounds (solver st) in
       result ← result;
       if success result then
         Py.Ok {| optimal_points := dict_set radius (x result) (optimal_points st);
                  stdout := stdout st;
                  csv_file := csv_file st;
                  solver := solver';
                  solved := solved st ++ [(radius, result)] |}
       else
         Py.Ok {| optimal_points := optimal_points st;
                  stdout := stdout st ++ [OptimizationFailed radius (message result)];
                  csv_file := csv_file st;
                  solver := solver';
                  solved := solved st ++ [(radius, result)] |})
    radii (sweep_start s).

End Sweep.

End OptimalPoint2.

(** ** The grid scripts *)

(** The body of the inner loop of both [apply_points_to_grid]s, for the
    point at cell [(row, col)] and the offsets [i], [j]: [weight i j] is what
    the script adds to the cell at that offset, [None] when its test
    fails. *)
Definition window_body (weight : Z -> Z -> option float64)
    (row col i : Z) (grid : ndarray) (j : Z) : Py.result ndarray :=
  match weight i j with
  | Some v => iadd grid (row + i) (col + j) v
  | None => Py.Ok grid
  end.

(** The loop nest for one point: offsets [i], [j] within [max_distance],
    clipped to the array. *)
Definition accumulate_window (weight : Z -> Z -> option float64)
    (grid : ndarray) (height width row col max_distance : Z)
    : Py.result ndarray :=
  Py.for_each
    (fun grid i =>
       Py.for_each (window_body weight row col i)
         (Py.range (Z.max (- col) (- max_distance))
                   (Z.min (width - col) (max_distance + 1)))
         grid)
    (Py.range (Z.max (- row) (- max_distance))
              (Z.min (height - row) (max_distance + 1)))
    grid.

(** The cell index [int((v - v_min) / unit_size)] of a coordinate. *)
Definition cell_index (v v_min unit_size : R) : Py.result Z :=
  to_int (true_divide (v - v_min) unit_size).

(** The body of the loop over the points. *)
Definition point_body (weight : Z -> Z -> option float64)
    (lat_min lon_min unit_size : R) (max_distance height width : Z)
    (grid : ndarray) (point : R * R) : Py.result ndarray :=
  let '(lat, lon) := point in
  row ← cell_index lat lat_min unit_size;
  col ← cell_index lon lon_min unit_size;
  accumulate_window weight grid height width row col max_distance.

(** The loop over the points, shared by the two scripts. *)
Definition apply_points (weight : Z -> Z -> option float64)
    (grid : ndarray) (latitudes longitudes : list R)
    (lat_min lon_min unit_size : R) (max_distance : Z)
    : Py.result ndarray :=
  let '(height, width) := shape grid in
  Py.for_each
    (point_body weight lat_min lon_min unit_size max_distance height width)
    (combine latitudes longitudes) grid.

(** *** find_coldest_spot.py *)

Module ColdestSpot.

Definition create_grid (latitudes longitudes : list R) (unit_size : R)
    : Py.result (ndarray * R * R * Z * Z) :=
  lat_min ← Py.min latitudes;
  lat_max ← Py.max latitudes;
  lon_min ← Py.min longitudes;
  lon_max ← Py.max longitudes;
  h ← to_int (true_divide (lat_max - lat_min) unit_size);
  let grid_height := (h + 1)%Z in
  w ← to_int (true_divide (lon_max - lon_min) unit_size);
  let grid_width := (w + 1)%Z in
  grid ← zeros grid_height grid_width;
  Py.Ok (grid, lat_min, lon_min, grid_height, grid_width).

(** The loop body: [distance = np.sqrt(i**2 + j**2)], and
    [1 / (2 ** int(distance))] when [distance <= max_distance]. *)
Definition weight (max_distance i j : Z) : option float64 :=
  let distance := sqrt (IZR (i ^ 2 + j ^ 2)) in
  if Rle_dec distance (IZR max_distance)
  then Some (Fin (1 / IZR (2 ^ Py.trunc distance)))
  else None.

Definition apply_points_to_grid
    (grid : ndarray) (latitudes longitudes : list R)
    (lat_min lon_min unit_size : R) (max_distance : Z)
    : Py.result ndarray :=
  apply_points (weight max_distance) grid latitudes longitudes
               lat_min lon_min unit_size max_distance.

(** [find_coldest_point] (lines 32-37): the center of the cell that
    [np.argmin] points at. *)
Definition find_coldest_point (grid : ndarray) (lat_min lon_min unit_size : R)
    : Py.result coord :=
  k ← argmin (concat grid);
  let '(row, col) := unravel_index k (shape grid) in
  let coldest_lat := lat_min + (IZR row + 0.5) * unit_size in
  let coldest_lon := lon_min + (IZR col + 0.5) * unit_size in
  Py.Ok (coldest_lat, coldest_lon).

(** The script itself (lines 62-67), from the two columns of the file on:
    [create_grid], [apply_points_to_grid] with [max_distance] left at its
    default, and [find_coldest_point] on the array the second call has
    updated in place.  The script sets [unit_size = 0.01]. *)
Definition coldest_point (latitudes longitudes : list R) (unit_size : R)
    : Py.result coord :=
  created ← create_grid latitudes longitudes unit_size;
  let '(grid, lat_min, lon_min, _, _) := created in
  grid ← apply_points_to_grid grid latitudes longitudes lat_min lon_min
           unit_size 10;
  find_coldest_point grid lat_min lon_min unit_size.

End ColdestSpot.

(** *** find_coldest_spot_4.py *)

Module ColdestSpot4.

Section Geodesic.

(** [geodesic(meters=m).destination((lat, lon), bearing)] of geopy, as
    [destination m (lat, lon) bearing]. *)
Variable destination : R -> coord -> R -> coord.

Definition meters_to_latlong (lat lon meters : R) : R * R :=
  let dest := destination meters (lat, lon) 0 in
  (Rabs (fst dest - lat), Rabs (snd dest - lon)).

(** The loop body: [distance = math.sqrt(i**2 + j**2) * unit_size /
    max(influence_latlong)]; when [distance <= 1] the cell receives
    [decay = 1 - distance] if that is positive, else 0.  The division is
    numpy's: [inf] and [nan] fail the test, [-inf] passes it with an
    infinite [decay]. *)
Definition weight (unit_size : R) (influence_latlong : R * R) (i j : Z)
    : option float64 :=
  match true_divide (sqrt (IZR (i ^ 2 + j ^ 2)) * unit_size)
                    (Rmax (fst influence_latlong) (snd influence_latlong)) with
  | Fin distance =>
      if Rle_dec distance 1 then
        let decay := 1 - distance in
        Some (Fin (if Rgt_dec decay 0 then decay else 0))
      else None
  | NInf => Some PInf
  | PInf | NaN => None
  end.

Definition apply_points_to_grid
    (grid : ndarray) (latitudes longitudes : list R)
    (lat_min lon_min unit_size influence_meters : R) (max_distance_cells : Z)
    : Py.result ndarray :=
  let influence_latlong := meters_to_latlong lat_min lon_min influence_meters in
  apply_points (weight unit_size influence_latlong) grid latitudes longitudes
               lat_min lon_min unit_size max_distance_cells.

(** [create_grid] (lines 21-29): as in find_coldest_spot.py, with the cell
    of the center and the radius handed on. *)
Definition create_grid (latitudes longitudes : list R)
    (unit_size center_lat center_lon radius_meters : R)
    : Py.result (ndarray * R * R * Z * Z * Z * Z * R) :=
  lat_min ← Py.min latitudes;
  lat_max ← Py.max latitudes;
  lon_min ← Py.min longitudes;
  lon_max ← Py.max longitudes;
  h ← to_int (true_divide (lat_max - lat_min) unit_size);
  let grid_height := (h + 1)%Z in
  w ← to_int (true_divide (lon_max - lon_min) unit_size);
  let grid_width := (w + 1)%Z in
  grid ← zeros grid_height grid_width;
  center_row ← cell_index center_lat lat_min unit_size;
  center_col ← cell_index center_lon lon_min unit_size;
  Py.Ok (grid, lat_min, lon_min, grid_height, grid_width,
         center_row, center_col, radius_meters).

(** The test of the scan of [find_coldest_point] on the cell [(i, j)]:
    [distance = math.sqrt((center_row - i) ** 2 + (center_col - j) ** 2)
    * unit_size / max(radius_latlong)] and [distance <= 1]. *)
Definition in_radius (center_row center_col : Z) (unit_size : R)
    (radius_latlong : R * R) (i j : Z) : bool :=
  let distance :=
    true_divide
      (sqrt (IZR ((center_row - i) ^ 2 + (center_col - j) ^ 2)) * unit_size)
      (Rmax (fst radius_latlong) (snd radius_latlong)) in
  leb distance (Fin 1).

(** The body of the scan, on [best = (best_value, best_pos)]. *)
Definition scan_body (grid : ndarray) (center_row center_col : Z)
    (unit_size : R) (radius_latlong : R * R) (i : Z)
    (best : float64 * option (Z * Z)) (j : Z)
    : Py.result (float64 * option (Z * Z)) :=
  v ← getitem grid i j;
  if ltb (Fin 0) v then
    if in_radius center_row center_col unit_size radius_latlong i j then
      if ltb v (fst best) then Py.Ok (v, Some (i, j)) else Py.Ok best
    else Py.Ok best
  else Py.Ok best.

(** [find_coldest_point] (lines 44-61); [None] is Python's [None]. *)
Definition find_coldest_point (grid : ndarray) (center_row center_col : Z)
    (radius_meters unit_size lat_min lon_min : R)
    : Py.result (option coord) :=
  let best := (PInf, None) in
  let radius_latlong := meters_to_latlong lat_min lon_min radius_meters in
  let '(height, width) := shape grid in
  best ←
    Py.for_each
      (fun best i =>
         Py.for_each
           (scan_body grid center_row center_col unit_size radius_latlong i)
           (Py.range 0 width) best)
      (Py.range 0 height) best;
  match snd best with
  | None => Py.Ok None
  | Some (row, col) =>
      let lat := lat_min + (IZR row + 0.5) * unit_size in
      let lon := lon_min + (IZR col + 0.5) * unit_size in
      Py.Ok (Some (lat, lon))
  end.

End Geodesic.

End ColdestSpot4.

(** ** Auxiliary notions used in the statements *)

(** Two points half the equator apart. *)
Definition origin : coord := (0, 0).
Definition antipode : coord := (0, 180).

(** A value that is neither [-inf] nor [nan]. *)
Definition not_below (v : float64) : Prop :=
  match v with Fin _ | PInf => True | NInf | NaN => False end.

(** A geometry that contains every point. *)
Definition everywhere : Geometry := {| contains := fun _ => true |}.

(** The effect of adding [w] (if any) to a cell (if there is one). *)
Definition bump (w : option float64) (old : option float64) : option float64 :=
  match w with
  | Some v => (fun old => add old v) <$> old
  | None => old
  end.

(** What the loop nest of [accumulate_window] for a point at cell
    [(row, col)] adds to the cell [(r, c)]: the weight at the offset between
    the two, when the offset lies in both clipped ranges. *)
Definition contribution (weight : Z -> Z -> option float64)
    (height width row col max_distance : Z) (r c : nat) : option float64 :=
  let i := (Z.of_nat r - row)%Z in
  let j := (Z.of_nat c - col)%Z in
  if decide ((Z.max (- row) (- max_distance) <= i
                < Z.min (height - row) (max_distance + 1))
             /\ (Z.max (- col) (- max_distance) <= j
                < Z.min (width - col) (max_distance + 1)))%Z
  then weight i j
  else None.

(** The cell a point falls in, for a non-zero [unit_size]. *)
Definition cell_of (lat_min lon_min unit_size : R) (p : R * R) : Z * Z :=
  (Py.trunc ((fst p - lat_min) / unit_size),
   Py.trunc ((snd p - lon_min) / unit_size)).

(** What a point adds to the cell [(r, c)] of an array of the given shape. *)
Definition contribution_of (weight : Z -> Z -> option float64)
    (height width : Z) (lat_min lon_min unit_size : R) (max_distance : Z)
    (r c : nat) (p : R * R) : option float64 :=
  let '(row, col) := cell_of lat_min lon_min unit_size p in
  contribution weight height width row col max_distance r c.

(** A value that is finite and at least 0, or [inf]. *)
Definition nonneg (v : float64) : Prop :=
  match v with Fin r => 0 <= r | PInf => True | NInf | NaN => False end.

(** The distance, in cells, between the cell [(r, c)] and the cell
    [(row, col)]. *)
Definition cell_distance (r c : nat) (row col : Z) : R :=
  sqrt (IZR ((Z.of_nat r - row) ^ 2 + (Z.of_nat c - col) ^ 2)).

(** A 2 x 2 array of zeros, and a stand-in for geopy's [destination] that
    moves a point north by [meters] degrees. *)
Definition zeros_2x2 : ndarray := [[Fin 0; Fin 0]; [Fin 0; Fin 0]].
Definition due_north : R -> coord -> R -> coord :=
  fun meters p _ => (fst p + meters, snd p).

(** What a sweep that ran to its end over the swept values [radii] leaves:
    the optimizer was run once per value, in order, on the rounded value;
    the keys of [optimal_points] are the rounded values whose run succeeded,
    each with the point a successful run for it returned; and one line was
    printed per failed run, in order. *)
Definition swept {solver_state : Type} (radii : list Q)
    (st : sweep_state solver_state) : Prop :=
  map fst (solved st) = map round2 radii
  /\ (forall k, In k (map fst (optimal_points st)) <->
                exists result, In (k, result) (solved st)
                               /\ success result = true)
  /\ (forall k v, In (k, v) (optimal_points st) ->
                  exists result, In (k, result) (solved st)
                                 /\ success result = true /\ x result = v)
  /\ stdout st
     = map (fun run => OptimizationFailed (fst run) (message (snd run)))
           (List.filter (fun run => negb (success (snd run))) (solved st)).

(** Stand-ins for the optimizers, which report success on every other call
    and never evaluate the objective. *)
Definition alternating_evolution
    : (coord -> Py.result float64) -> list (R * R) -> nat ->
      Py.result OptimizeResult * nat :=
  fun _ _ n =>
    (Py.Ok {| x := origin; success := Nat.even n; message := "no convergence" |},
     S n).

Definition alternating_minimize
    : (coord -> Py.result float64) -> coord -> list (R * R) -> nat ->
      Py.result OptimizeResult * nat :=
  fun f _ bounds n => alternating_evolution f bounds n.

(** A file with its header line only. *)
Definition header_only : list (list field) :=
  [[Text "latitude"; Text "longitude"]].

(** One iteration, as both scripts perform it once the optimizer has
    returned [result] for the swept value [radius]. *)
Definition iteration {solver_state : Type} (radius : Q)
    (result : OptimizeResult) (st st' : sweep_state solver_state) : Prop :=
  optimal_points st'
  = (if success result
     then dict_set (round2 radius) (x result) (optimal_points st)
     else optimal_points st)
  /\ stdout st'
     = (if success result then stdout st
        else stdout st ++ [OptimizationFailed (round2 radius) (message result)])
  /\ solved st' = solved st ++ [(round2 radius, result)].

(** A key with denominator 100, as [round2] produces them. *)
Definition hundredths (k : Q) : Prop := exists z, k = (z # 100)%Q.

(** The invariant of the loop. *)
Definition consistent {solver_state : Type} (st : sweep_state solver_state) : Prop :=
  (forall k, In k (map fst (solved st)) -> hundredths k)
  /\ (forall k, In k (map fst (optimal_points st)) <->
                exists result, In (k, result) (solved st)
                               /\ success result = true)
  /\ (forall k v, In (k, v) (optimal_points st) ->
                  exists result, In (k, result) (solved st)
                                 /\ success result = true /\ x result = v)
  /\ stdout st
     = map (fun run => OptimizationFailed (fst run) (message (snd run)))
           (List.filter (fun run => negb (success (snd run))) (solved st)).

(** A value that is finite and above 0, or [inf]. *)
Definition positive (v : float64) : Prop :=
  match v with Fin r => 0 < r | PInf => True | NInf | NaN => False end.

(** A data row that starts with two numeric fields, and the row written for
    a point (with whatever columns follow). *)
Definition well_formed (row : list field) : Prop :=
  exists lat lon rest, row = Number lat :: Number lon :: rest.

Definition row_of (p : coord) (rest : list field) : list field :=
  Number (fst p) :: Number (snd p) :: rest.

(** Coordinates within the range of a latitude and a longitude. *)
Definition valid_coordinates (p : coord) : Prop :=
  (-90 <= fst p <= 90) /\ (-180 <= snd p <= 180).

#[global] Instance valid_coordinates_dec (p : coord)
  : Decision (valid_coordinates p) :=
  and_dec (and_dec (Rle_decision (-90) (fst p)) (Rle_decision (fst p) 90))
          (and_dec (Rle_decision (-180) (snd p)) (Rle_decision (snd p) 180)).

(** Keys that differ pairwise as numbers. *)
Definition distinct_keys (keys : list Q) : Prop :=
  forall i j ki kj,
    keys !! i = Some ki -> keys !! j = Some kj -> i <> j -> ~ (ki == kj)%Q.

(** The runs of a sweep that succeeded, as the rows
    optimal_point_pure_radius_dx.py writes for them. *)
Definition successful_rows (runs : list (Q * OptimizeResult))
    : list (Q * coord) :=
  map (fun run => (fst run, x (snd run)))
      (List.filter (fun run => success (snd run)) runs).

(** A stand-in for an optimizer that starts by evaluating the objective at
    the initial guess. *)
Definition probing_minimize
    : (coord -> Py.result float64) -> coord -> list (R * R) -> unit ->
      Py.result OptimizeResult * unit :=
  fun f x0 _ s =>
    (_ ← f x0; Py.Ok {| x := x0; success := true; message := "converged" |}, s).

(** The facts about the state of a sweep that the properties of its result
    are read off: it is [consistent], no key occurs twice, and there are at
    most as many keys as successful runs. *)
Definition settled {solver_state : Type} (st : sweep_state solver_state)
    : Prop :=
  consistent st
  /\ List.NoDup (map fst (optimal_points st))
  /\ (length (optimal_points st)
      <= length (List.filter (fun run => success (snd run)) (solved st)))%nat.

(** The keys of the result of a sweep over [radii]: pairwise different
    numbers, at most one per swept value, each the rounding of a swept value
    and within 0.005 of it. *)
Definition keyed_by {solver_state : Type} (radii : list Q)
    (st : sweep_state solver_state) : Prop :=
  distinct_keys (map fst (optimal_points st))
  /\ (length (optimal_points st) <= length radii)%nat
  /\ forall k, In k (map fst (optimal_points st)) ->
       exists radius, In radius radii /\ k = round2 radius
                      /\ (Qabs (k - radius) <= 1 # 200)%Q.

(** A finite value between 0 and 1. *)
Definition unit_weight (v : float64) : Prop :=
  match v with Fin x => 0 <= x <= 1 | PInf | NInf | NaN => False end.

(** An array all of whose rows have [w] elements. *)
Definition rectangular (grid : ndarray) (w : Z) : Prop :=
  Forall (fun row => Z.of_nat (length row) = w) grid.

(** The order in which the cells of an array are scanned, and the center of
    a cell as both [find_coldest_point]s compute it. *)
Definition row_major_before (r c r0 c0 : nat) : Prop :=
  (r < r0)%nat \/ (r = r0 /\ (c < c0)%nat).

Definition center_of (lat_min lon_min unit_size : R) (r c : nat) : coord :=
  (lat_min + (IZR (Z.of_nat r) + 0.5) * unit_size,
   lon_min + (IZR (Z.of_nat c) + 0.5) * unit_size).

(** A cell that the scan of find_coldest_spot_4.py can select: it holds a
    finite value above 0 and passes the test on its distance to the
    center. *)
Definition candidate (grid : ndarray) (center_row center_col : Z)
    (unit_size : R) (radius_latlong : R * R) (r c : nat) (x : R) : Prop :=
  cell grid r c = Some (Fin x) /\ 0 < x
  /\ ColdestSpot4.in_radius center_row center_col unit_size radius_latlong
       (Z.of_nat r) (Z.of_nat c) = true.

(** The cells of an array of width [w] met before the scan reaches
    [(i, j)]. *)
Definition scanned (w i j : Z) (r c : nat) : Prop :=
  (Z.of_nat c < w)%Z
  /\ ((Z.of_nat r < i)%Z \/ (Z.of_nat r = i /\ Z.of_nat c < j)%Z).

(** The cell [(r0, c0)] holds the least value [x0] among the cells in [P]
    that satisfy [cand], and is the first to do so. *)
Definition coldest_among (cand : nat -> nat -> R -> Prop)
    (P : nat -> nat -> Prop) (r0 c0 : nat) (x0 : R) : Prop :=
  P r0 c0 /\ cand r0 c0 x0
  /\ forall r c x, P r c -> cand r c x ->
       x0 <= x /\ (row_major_before r c r0 c0 -> x0 < x).

(** The invariant of the scan, when it reaches [(i, j)]. *)
Definition scan_invariant (cand : nat -> nat -> R -> Prop) (w i j : Z)
    (best : float64 * option (Z * Z)) : Prop :=
  match snd best with
  | None =>
      fst best = PInf /\ forall r c x, scanned w i j r c -> ~ cand r c x
  | Some (i0, j0) =>
      exists r0 c0 x0,
        i0 = Z.of_nat r0 /\ j0 = Z.of_nat c0 /\ fst best = Fin x0
        /\ coldest_among cand (scanned w i j) r0 c0 x0
  end.

(** ** Two arithmetics

    Exact arithmetic: nothing is rounded. *)
Definition exact_arithmetic : Float64.
Proof.
  refine {| rnd := fun x => x; fsin := sin; fcos := cos; fsqrt := sqrt;
            farctan2 := arctan2; fsquare := fun x => x * x;
            deg2rad := PI / 180 |}.
  - reflexivity.
  - reflexivity.
  - reflexivity.
  - auto.
  - exact sin_0.
  - exact sin_neg.
  - ring.
  - intros x. ring.
  - exact sqrt_0.
  - exact sqrt_1.
  - intros x _. apply sqrt_pos.
  - unfold arctan2. destruct (Rlt_dec 0 1); [| lra].
    replace (0 / 1) with 0 by lra. exact atan_0.
  - intros y x Hy Hx. unfold arctan2. pose proof PI_RGT_0 as Hpi.
    destruct (Rlt_dec 0 x) as [Hx' | Hx'].
    + assert (Hq : 0 <= y / x).
      { apply Rmult_le_pos; [exact Hy | left; now apply Rinv_0_lt_compat]. }
      destruct Hq as [Hq | <-]; [| rewrite atan_0; lra].
      left. rewrite <- atan_0. now apply atan_increasing.
    + destruct (Rlt_dec x 0); [lra |].
      destruct (Rlt_dec 0 y); [lra |].
      destruct (Rlt_dec y 0); lra.
Defined.

(** A function given by a table of values and, off the table, by
    [default]; its extension to negative arguments as an odd function, and
    as an even one. *)
Fixpoint tabulated (table : list (R * R)) (default : R -> R) (x : R) : R :=
  match table with
  | [] => default x
  | (key, value) :: table' =>
      if Req_dec_T x key then value else tabulated table' default x
  end.

Definition odd_extension (f : R -> R) (x : R) : R :=
  if Rle_dec 0 x then f x else - f (- x).

Definition even_extension (f : R -> R) (x : R) : R := f (Rabs x).

(** The float64 [m * 2 ^ (- e)]. *)
Definition binary64 (m : Z) (e : nat) : R := IZR m / 2 ^ e.

(** The float64 values that CPython and numpy (IEEE 754 binary64, glibc)
    meet when they evaluate [haversine((0.08, 0), (-0.08, 180))] or
    [haversine((-0.08, 180), (0.08, 0))]: the literal 0.08, the factor
    [pi / 180] of [np.radians], and the results of the operations. *)
Definition lat_0_08 : R := binary64 5764607523034235 56.
(* 0.08 = 0x1.47ae147ae147bp-4 *)
Definition pi_over_180 : R := binary64 5030569068109113 58.
(* 0.017453292519943295 = 0x1.1df46a2529d39p-6 *)
Definition radians_0_16 : R := binary64 6439128407179665 61.
(* np.radians(0.16) = 0.0027925268031909274 *)
Definition radians_0_08 : R := binary64 6439128407179665 62.
(* np.radians(0.08) = np.radians(0.16) / 2 = 0.0013962634015954637 *)
Definition radians_180 : R := binary64 884279719003555 48.
(* np.radians(180) = 3.141592653589793 *)
Definition sin_dlat_2 : R := binary64 1609781578736119 60.
(* np.sin(0.0013962634015954637) = 0.0013962629479142763 *)
Definition cos_lat : R := binary64 4503595237371535 52.
(* np.cos(0.0013962634015954637) = 0.9999990252244151 *)
Definition sin_dlat_2_squared : R := binary64 4603245307134343 71.
(* 0.0013962629479142763 ** 2 = 1.9495502197182648e-06 *)
Definition cos_lat_squared : R := binary64 9007181694753707 53.
(* 0.9999990252244151 * 0.9999990252244151 = 0.9999980504497804 *)
Definition a_above_1 : R := binary64 4503599627370497 52.
(* 1.9495502197182648e-06 + 0.9999980504497804 = 1.0000000000000002 *)

Definition the_rounded : list (R * R) :=
  [(2 * lat_0_08 * pi_over_180, radians_0_16);
   (lat_0_08 * pi_over_180, radians_0_08);
   (180 * pi_over_180, radians_180);
   (cos_lat * cos_lat, cos_lat_squared);
   (sin_dlat_2_squared + cos_lat_squared, a_above_1)].

Ltac decide_reals :=
  repeat match goal with
         | |- context [Req_dec_T ?a ?b] => destruct (Req_dec_T a b)
         | |- context [Rle_dec ?a ?b] => destruct (Rle_dec a b)
         | |- context [Rlt_dec ?a ?b] => destruct (Rlt_dec a b)
         end.

Ltac unfold_values :=
  unfold the_rounded, lat_0_08, pi_over_180, radians_0_16, radians_0_08,
    radians_180, sin_dlat_2, cos_lat, sin_dlat_2_squared, cos_lat_squared,
    a_above_1, binary64 in *.

Ltac by_table := cbn [tabulated]; unfold_values; decide_reals; try lra.

Ltac odd_law :=
  let x := fresh "x" in
  intros x; unfold odd_extension;
  destruct (Rle_dec 0 x); destruct (Rle_dec 0 (- x));
  rewrite ?Ropp_involutive; try reflexivity; try lra;
  assert (x = 0) as -> by lra; rewrite Ropp_0.

(** An arithmetic that returns those values where that evaluation asks for
    them, and exact results elsewhere. *)
Definition near_antipode_arithmetic : Float64.
Proof.
  refine {| rnd := odd_extension (tabulated the_rounded (fun x => x));
            fsin := odd_extension
                      (tabulated [(radians_0_08, sin_dlat_2);
                                  (radians_180 / 2, 1)] sin);
            fcos := even_extension
                      (tabulated [(radians_0_08, cos_lat)] cos);
            fsqrt := tabulated [(a_above_1, 1)] sqrt;
            farctan2 := farctan2 (Float64 := exact_arithmetic);
            fsquare := even_extension
                         (tabulated [(sin_dlat_2, sin_dlat_2_squared)]
                                    (fun x => x * x));
            deg2rad := pi_over_180 |}.
  - unfold odd_extension. destruct (Rle_dec 0 0); [| lra].
    unfold the_rounded. by_table.
  - unfold odd_extension. destruct (Rle_dec 0 1); [| lra].
    unfold the_rounded. by_table.
  - odd_law. unfold the_rounded. by_table.
  - intros x Hx. unfold odd_extension. destruct (Rle_dec 0 x); [| lra].
    unfold the_rounded. by_table.
  - unfold odd_extension. destruct (Rle_dec 0 0); [| lra].
    by_table. exact sin_0.
  - odd_law. by_table. rewrite sin_0. lra.
  - unfold even_extension. rewrite Rabs_R0. by_table.
  - intros x. unfold even_extension. now rewrite Rabs_Ropp.
  - by_table. exact sqrt_0.
  - by_table. exact sqrt_1.
  - intros x Hx. by_table. apply sqrt_pos.
  - exact (farctan2_0_1 (Float64 := exact_arithmetic)).
  - exact (farctan2_nonneg (Float64 := exact_arithmetic)).
Defined.

(** The two points of that evaluation. *)
Definition north_of_origin : coord := (lat_0_08, 0).
Definition south_of_antipode : coord := (- lat_0_08, 180).

(** A float64 that is a number, not [nan] or an infinity. *)
Definition finite (v : float64) : Prop := exists r, v = Fin r.

(** The distance at and below which [1.0 / dist] overflows (about
    5.6e-309). *)
Definition overflow_distance : R := / overflow_bound.

(** What [haversine] can return: a distance that is not negative, or
    [nan]. *)
Definition distance_value (v : float64) : Prop :=
  match v with Fin d => 0 <= d | NaN => True | PInf | NInf => False end.
(** * Properties *)

(** ** Geodesy *)

Section GeodesyFacts.

Context {fl : Float64}.

Lemma radians_0 : radians 0 = 0.
Proof. unfold radians. rewrite Rmult_0_l. apply rnd_0. Qed.

Lemma radians_opp (d : R) : radians (- d) = - radians d.
Proof.
  unfold radians. rewrite <- rnd_opp. f_equal. ring.
Qed.

Lemma rnd_half_opp (t : R) : rnd (- t / 2) = - rnd (t / 2).
Proof. rewrite <- rnd_opp. f_equal. field. Qed.

Lemma rnd_minus_swap (u v : R) : rnd (u - v) = - rnd (v - u).
Proof. rewrite <- rnd_opp. f_equal. ring. Qed.

(** The term [sin(d / 2) ** 2] of a difference and of the opposite
    difference. *)
Lemma half_angle_term_swap (u v : R) :
  fsquare (fsin (rnd (radians (rnd (u - v)) / 2)))
  = fsquare (fsin (rnd (radians (rnd (v - u)) / 2))).
Proof.
  rewrite (rnd_minus_swap u v), radians_opp, rnd_half_opp, fsin_opp.
  apply fsquare_opp.
Qed.

Lemma hav_a_sym (p q : coord) : hav_a p q = hav_a q p.
Proof.
  destruct p as [lat1 lon1], q as [lat2 lon2]. unfold hav_a.
  rewrite (half_angle_term_swap lat2 lat1), (half_angle_term_swap lon2 lon1).
  now rewrite (Rmult_comm (fcos (radians lat1))).
Qed.

Lemma hav_a_refl (p : coord) : hav_a p p = 0.
Proof.
  destruct p as [lat lon]. unfold hav_a.
  rewrite !Rminus_diag, rnd_0, radians_0.
  replace (0 / 2) with 0 by lra.
  rewrite rnd_0, fsin_0, fsquare_0, Rmult_0_r, rnd_0, Rplus_0_l.
  apply rnd_0.
Qed.

Lemma sqrt64_0 : sqrt64 0 = Fin 0.
Proof.
  unfold sqrt64. destruct (Rlt_dec 0 0); [lra |]. now rewrite fsqrt_0.
Qed.

Lemma sqrt64_1 : sqrt64 1 = Fin 1.
Proof.
  unfold sqrt64. destruct (Rlt_dec 1 0); [lra |]. now rewrite fsqrt_1.
Qed.

Lemma sqrt64_result (x : R) :
  (x < 0 /\ sqrt64 x = NaN)
  \/ (0 <= x /\ exists y, sqrt64 x = Fin y /\ 0 <= y).
Proof.
  unfold sqrt64. destruct (Rlt_dec x 0) as [Hx | Hx]; [now left |].
  right. split; [lra |]. eexists. split; [reflexivity |].
  apply fsqrt_nonneg. lra.
Qed.

Lemma haversine_sym (p q : coord) : haversine p q = haversine q p.
Proof. unfold haversine. now rewrite (hav_a_sym p q). Qed.

Lemma haversine_refl (p : coord) : haversine p p = Fin 0.
Proof.
  unfold haversine. rewrite hav_a_refl, Rminus_0_r, rnd_1, sqrt64_0, sqrt64_1.
  cbv zeta. rewrite farctan2_0_1, Rmult_0_r, rnd_0, Rmult_0_r.
  now rewrite rnd_0.
Qed.

(** What [haversine] returns: [nan], when one of the two square roots is
    taken of a negative number, and a distance that is not negative
    otherwise. *)
Lemma haversine_result (p q : coord) :
  ((hav_a p q < 0 \/ rnd (1 - hav_a p q) < 0) /\ haversine p q = NaN)
  \/ ((0 <= hav_a p q /\ 0 <= rnd (1 - hav_a p q))
      /\ exists d, haversine p q = Fin d /\ 0 <= d).
Proof.
  unfold haversine.
  destruct (sqrt64_result (hav_a p q)) as [[Ha ->] | (Ha & y & -> & Hy)];
    [left; split; [now left | reflexivity] |].
  destruct (sqrt64_result (rnd (1 - hav_a p q)))
    as [[Hb ->] | (Hb & x & -> & Hx)];
    [left; split; [now right | reflexivity] |].
  right. split; [now split |]. eexists. split; [reflexivity |].
  apply rnd_nonneg. apply Rmult_le_pos; [lra |].
  apply rnd_nonneg. apply Rmult_le_pos; [lra |].
  now apply farctan2_nonneg.
Qed.

Lemma haversine_nonneg (p q : coord) (d : R) :
  haversine p q = Fin d -> 0 <= d.
Proof.
  intros H. destruct (haversine_result p q) as [[_ Hn] | (_ & d' & Hd & Hpos)].
  - rewrite Hn in H. discriminate.
  - rewrite Hd in H. injection H as <-. exact Hpos.
Qed.

Lemma haversine_cases (p q : coord) :
  haversine p q = NaN \/ exists d, haversine p q = Fin d /\ 0 <= d.
Proof.
  destruct (haversine_result p q) as [[_ Hn] | (_ & d & Hd & Hpos)];
    [now left | right; now exists d].
Qed.

Lemma eqb_refl (v : float64) : v <> NaN -> eqb v v = true.
Proof.
  destruct v as [r | | |]; intros H; try reflexivity; [| congruence].
  simpl. destruct (Req_dec_T r r); [reflexivity | congruence].
Qed.

End GeodesyFacts.

(** C6 (amended).  [haversine] returns the same float64 for a pair of
    points in either order, and 0 for a point and itself; the test
    [distance(a, b) == distance(b, a)] holds whenever that value is not
    [nan]. *)
Theorem haversine_symmetric_and_zero_on_diagonal {fl : Float64} :
  forall a b : coord,
    haversine a b = haversine b a
    /\ haversine a a = Fin 0
    /\ (haversine a b <> NaN -> eqb (haversine a b) (haversine b a) = true).
Proof.
  intros a b. split; [apply haversine_sym |]. split; [apply haversine_refl |].
  intros H. rewrite <- (haversine_sym a b). now apply eqb_refl.
Qed.

(** ** The evaluation at two nearly antipodal points *)

Section NearAntipode.

#[local] Existing Instance near_antipode_arithmetic.

Lemma radians_of_0_08 : radians lat_0_08 = radians_0_08.
Proof.
  unfold radians. cbn [rnd deg2rad near_antipode_arithmetic].
  unfold odd_extension. destruct (Rle_dec 0 (lat_0_08 * pi_over_180));
    [| unfold_values; lra].
  unfold the_rounded. by_table.
Qed.

Lemma radians_of_0_16 : radians (lat_0_08 + lat_0_08) = radians_0_16.
Proof.
  unfold radians. cbn [rnd deg2rad near_antipode_arithmetic].
  unfold odd_extension.
  destruct (Rle_dec 0 ((lat_0_08 + lat_0_08) * pi_over_180));
    [| unfold_values; lra].
  unfold the_rounded. by_table.
Qed.

Lemma radians_of_180 : radians 180 = radians_180.
Proof.
  unfold radians. cbn [rnd deg2rad near_antipode_arithmetic].
  unfold odd_extension. destruct (Rle_dec 0 (180 * pi_over_180));
    [| unfold_values; lra].
  unfold the_rounded. by_table.
Qed.

(** The differences and the halves are exact. *)
Lemma rnd_exact (x : R) :
  0 <= x ->
  Forall (fun entry => fst entry <> x) the_rounded ->
  rnd x = x.
Proof.
  intros Hx Hkeys. cbn [rnd near_antipode_arithmetic]. unfold odd_extension.
  destruct (Rle_dec 0 x); [| lra].
  induction Hkeys as [| [key value] table Hkey _ IH]; [reflexivity |].
  cbn [tabulated]. destruct (Req_dec_T x key) as [-> | _]; [| exact IH].
  now destruct Hkey.
Qed.

Ltac off_the_table :=
  apply rnd_exact;
  [ unfold_values; lra
  | unfold the_rounded; repeat constructor; cbn [fst]; unfold_values; lra ].

Lemma dlat_is_exact : rnd (lat_0_08 + lat_0_08) = lat_0_08 + lat_0_08.
Proof. off_the_table. Qed.

Lemma dlon_is_exact : rnd 180 = 180.
Proof. off_the_table. Qed.

Lemma half_dlat : rnd (radians_0_16 / 2) = radians_0_08.
Proof.
  rewrite rnd_exact; [unfold_values; lra | unfold_values; lra |].
  unfold the_rounded; repeat constructor; cbn [fst]; unfold_values; lra.
Qed.

Lemma half_dlon : rnd (radians_180 / 2) = radians_180 / 2.
Proof. off_the_table. Qed.

Lemma sin_of_half_dlat : fsin radians_0_08 = sin_dlat_2.
Proof.
  cbn [fsin near_antipode_arithmetic]. unfold odd_extension.
  destruct (Rle_dec 0 radians_0_08); [| unfold_values; lra]. by_table.
Qed.

Lemma sin_of_half_dlon : fsin (radians_180 / 2) = 1.
Proof.
  cbn [fsin near_antipode_arithmetic]. unfold odd_extension.
  destruct (Rle_dec 0 (radians_180 / 2)); [| unfold_values; lra]. by_table.
Qed.

Lemma cos_of_lat : fcos radians_0_08 = cos_lat.
Proof.
  cbn [fcos near_antipode_arithmetic]. unfold even_extension.
  rewrite Rabs_pos_eq by (unfold_values; lra). by_table.
Qed.

Lemma cos_of_opposite_lat : fcos (- radians_0_08) = cos_lat.
Proof.
  cbn [fcos near_antipode_arithmetic]. unfold even_extension.
  rewrite Rabs_Ropp, Rabs_pos_eq by (unfold_values; lra). by_table.
Qed.

Lemma square_of_sin : fsquare sin_dlat_2 = sin_dlat_2_squared.
Proof.
  cbn [fsquare near_antipode_arithmetic]. unfold even_extension.
  rewrite Rabs_pos_eq by (unfold_values; lra). by_table.
Qed.

Lemma square_of_1 : fsquare 1 = 1.
Proof.
  cbn [fsquare near_antipode_arithmetic]. unfold even_extension.
  rewrite Rabs_R1. by_table.
Qed.

Lemma product_of_cos : rnd (cos_lat * cos_lat) = cos_lat_squared.
Proof.
  cbn [rnd near_antipode_arithmetic]. unfold odd_extension.
  destruct (Rle_dec 0 (cos_lat * cos_lat)); [| unfold_values; lra].
  unfold the_rounded. by_table.
Qed.

Lemma product_with_1 : rnd (cos_lat_squared * 1) = cos_lat_squared.
Proof.
  rewrite Rmult_1_r. off_the_table.
Qed.

Lemma sum_of_terms : rnd (sin_dlat_2_squared + cos_lat_squared) = a_above_1.
Proof.
  cbn [rnd near_antipode_arithmetic]. unfold odd_extension.
  destruct (Rle_dec 0 (sin_dlat_2_squared + cos_lat_squared));
    [| unfold_values; lra].
  unfold the_rounded. by_table.
Qed.

Lemma one_minus_a : rnd (1 - a_above_1) = - (a_above_1 - 1).
Proof.
  replace (1 - a_above_1) with (- (a_above_1 - 1)) by ring.
  rewrite rnd_opp. f_equal. off_the_table.
Qed.

(** [a = 1.0000000000000002] at the two points, in this order. *)
Lemma hav_a_near_antipode :
  hav_a north_of_origin south_of_antipode = a_above_1.
Proof.
  unfold hav_a, north_of_origin, south_of_antipode.
  replace (- lat_0_08 - lat_0_08) with (- (lat_0_08 + lat_0_08)) by ring.
  rewrite Rminus_0_r, rnd_opp, dlat_is_exact, dlon_is_exact.
  rewrite !radians_opp, radians_of_0_16, radians_of_180, radians_of_0_08.
  rewrite rnd_half_opp, half_dlat, half_dlon.
  rewrite fsin_opp, fsquare_opp, sin_of_half_dlat, sin_of_half_dlon.
  rewrite square_of_sin, square_of_1, cos_of_lat, cos_of_opposite_lat.
  rewrite product_of_cos, product_with_1. apply sum_of_terms.
Qed.

Lemma haversine_near_antipode :
  haversine north_of_origin south_of_antipode = NaN.
Proof.
  unfold haversine. rewrite hav_a_near_antipode, one_minus_a.
  unfold sqrt64.
  destruct (Rlt_dec a_above_1 0); [reflexivity |].
  destruct (Rlt_dec (- (a_above_1 - 1)) 0) as [_ | H]; [reflexivity |].
  exfalso. apply H. unfold_values. lra.
Qed.

End NearAntipode.

(** C6, the claim as stated fails.  At the float64 points (0.08, 0) and
    (-0.08, 180) the sum [a] is rounded to 1.0000000000000002,
    [np.sqrt(1 - a)] is [nan], and so is the distance in both orders:
    [distance(a, b) == distance(b, a)] is False.  The arithmetic is the
    one that returns, operation by operation, the float64 values of that
    evaluation. *)
Lemma haversine_is_nan_near_the_antipode :
  hav_a (fl := near_antipode_arithmetic) north_of_origin south_of_antipode
  = a_above_1
  /\ 1 < a_above_1
  /\ haversine (fl := near_antipode_arithmetic)
       north_of_origin south_of_antipode = NaN
  /\ haversine (fl := near_antipode_arithmetic)
       south_of_antipode north_of_origin = NaN
  /\ eqb (haversine (fl := near_antipode_arithmetic)
            north_of_origin south_of_antipode)
         (haversine (fl := near_antipode_arithmetic)
            south_of_antipode north_of_origin)
     = false.
Proof.
  split; [exact hav_a_near_antipode |].
  split; [unfold_values; lra |].
  rewrite (haversine_sym south_of_antipode north_of_origin).
  rewrite haversine_near_antipode. repeat split.
Qed.

(** ** float64 reciprocals, sums and minima *)

Section FloatFacts.

Lemma overflow_bound_pos : 0 < overflow_bound.
Proof.
  unfold overflow_bound.
  replace 1024%nat with (970 + 54)%nat by reflexivity. rewrite pow_add.
  assert (H970 : 0 < 2 ^ 970) by (apply pow_lt; lra).
  assert (H54 : 1 <= 2 ^ 53) by (apply pow_R1_Rle; lra).
  replace 54%nat with (S 53) by reflexivity. rewrite <- tech_pow_Rmult. nra.
Qed.

Lemma overflow_distance_pos : 0 < overflow_distance.
Proof. apply Rinv_0_lt_compat, overflow_bound_pos. Qed.

Lemma true_divide_1_pos (d : R) : d <> 0 -> true_divide 1 d = Fin (1 / d).
Proof. intros Hd. unfold true_divide. now destruct (Req_dec_T d 0). Qed.

Lemma true_divide_1_zero : true_divide 1 0 = PInf.
Proof.
  unfold true_divide. destruct (Req_dec_T 0 0) as [_ | H]; [| lra].
  destruct (Rlt_dec 0 1); [reflexivity | lra].
Qed.

Lemma rtruediv_1_zero : rtruediv 1 (Fin 0) = PInf.
Proof. unfold rtruediv. now rewrite true_divide_1_zero. Qed.

Lemma inverse_pos (d : R) : 0 < d -> 0 < 1 / d.
Proof. intros Hd. unfold Rdiv. rewrite Rmult_1_l. now apply Rinv_0_lt_compat. Qed.

(** [1.0 / dist] at a positive distance: above 0, or [inf]. *)
Lemma rtruediv_1_positive (d : R) : 0 < d -> positive (rtruediv 1 (Fin d)).
Proof.
  intros Hd. pose proof (inverse_pos d Hd) as Hinv.
  pose proof overflow_bound_pos as Hb.
  unfold rtruediv. rewrite true_divide_1_pos by lra. unfold overflow.
  destruct (Rle_dec overflow_bound (1 / d)); [exact I |].
  destruct (Rle_dec (1 / d) (- overflow_bound)); [lra | exact Hinv].
Qed.

(** [1.0 / dist] at a distance above [overflow_distance]: finite. *)
Lemma rtruediv_1_finite (d : R) :
  overflow_distance < d ->
  exists w, rtruediv 1 (Fin d) = Fin w /\ 0 < w.
Proof.
  intros Hd. pose proof overflow_distance_pos as Hpos.
  pose proof overflow_bound_pos as Hb.
  assert (H0 : 0 < d) by lra.
  pose proof (inverse_pos d H0) as Hinv.
  assert (Hlt : 1 / d < overflow_bound).
  { unfold Rdiv. rewrite Rmult_1_l.
    rewrite <- (Rinv_inv overflow_bound).
    apply Rinv_0_lt_contravar; [exact Hpos | exact Hd]. }
  exists (1 / d). split; [| exact Hinv].
  unfold rtruediv. rewrite true_divide_1_pos by lra. unfold overflow.
  destruct (Rle_dec overflow_bound (1 / d)); [lra |].
  destruct (Rle_dec (1 / d) (- overflow_bound)); [lra | reflexivity].
Qed.

(** [1.0 / dist] for what [haversine] returns: [nan] or a positive value. *)
Lemma rtruediv_1_distance (v : float64) :
  distance_value v ->
  (v = NaN /\ rtruediv 1 v = NaN) \/ (v <> NaN /\ positive (rtruediv 1 v)).
Proof.
  destruct v as [d | | |]; intros H; cbn [distance_value] in H;
    try contradiction.
  - right. split; [discriminate |].
    destruct H as [H | <-]; [now apply rtruediv_1_positive |].
    now rewrite rtruediv_1_zero.
  - left. now split.
Qed.

Lemma positive_nonneg (v : float64) : positive v -> nonneg v.
Proof. destruct v; simpl; intros H; try exact H. lra. Qed.

Lemma positive_not_below (v : float64) : positive v -> not_below v.
Proof. destruct v; simpl; intros H; try exact H. exact I. Qed.

Lemma add_nan_r (u : float64) : add u NaN = NaN.
Proof. now destruct u. Qed.

Lemma fold_add_from_nan (l : list float64) : fold_left add l NaN = NaN.
Proof. induction l as [| v l IH]; simpl; [reflexivity | exact IH]. Qed.

Lemma fold_add_nan (l : list float64) (acc : float64) :
  In NaN l -> fold_left add l acc = NaN.
Proof.
  revert acc. induction l as [| v l IH]; intros acc Hin; [destruct Hin |].
  simpl. destruct Hin as [-> | Hin].
  - rewrite add_nan_r. apply fold_add_from_nan.
  - now apply IH.
Qed.

Lemma fold_add_from_pinf (l : list float64) :
  Forall not_below l -> fold_left add l PInf = PInf.
Proof.
  induction 1 as [| v l Hv _ IH]; simpl; [reflexivity |].
  destruct v; simpl in *; try contradiction; exact IH.
Qed.

Lemma fold_add_reaches_pinf (l : list float64) (acc : R) :
  Forall not_below l -> In PInf l -> fold_left add l (Fin acc) = PInf.
Proof.
  intros H. revert acc. induction H as [| v l Hv Hl IH]; intros acc Hin.
  - destruct Hin.
  - simpl. destruct Hin as [-> | Hin].
    + simpl. now apply fold_add_from_pinf.
    + destruct v; simpl in *; try contradiction.
      * now apply IH.
      * now apply fold_add_from_pinf.
Qed.

Lemma add_nonneg_positive (u v : float64) :
  nonneg u -> positive v -> positive (add u v).
Proof.
  destruct u, v; simpl; intros Hu Hv; try contradiction; try exact I. lra.
Qed.

(** A sum of positive terms: at least 0, and above 0 when there is a
    term. *)
Lemma fold_add_positive (l : list float64) (acc : float64) :
  Forall positive l -> nonneg acc ->
  nonneg (fold_left add l acc)
  /\ (l <> [] -> positive (fold_left add l acc)).
Proof.
  intros H. revert acc. induction H as [| v l Hv _ IH]; intros acc Hacc.
  - simpl. split; [exact Hacc | congruence].
  - simpl. pose proof (add_nonneg_positive acc v Hacc Hv) as Hstep.
    destruct (IH (add acc v) (positive_nonneg _ Hstep)) as [Hnn Hpos].
    split; [exact Hnn |]. intros _.
    destruct l as [| v' l]; [exact Hstep | apply Hpos; discriminate].
Qed.

Lemma fold_add_finite (l : list float64) (acc : R) :
  Forall finite l -> exists s, fold_left add l (Fin acc) = Fin s.
Proof.
  intros H. revert acc. induction H as [| v l [w ->] _ IH]; intros acc; simpl.
  - now exists acc.
  - apply IH.
Qed.

(** The builtin [min] over float64 items. *)

Lemma fold_min_from_nan (l : list float64) :
  fold_left (fun m y => if ltb y m then y else m) l NaN = NaN.
Proof.
  induction l as [| v l IH]; simpl; [reflexivity |].
  now destruct v.
Qed.

Lemma fold_min_distance (l : list float64) (m : R) :
  Forall distance_value l -> 0 <= m ->
  exists m', fold_left (fun m y => if ltb y m then y else m) l (Fin m) = Fin m'
    /\ 0 <= m' <= m
    /\ (m' = m \/ In (Fin m') l)
    /\ (forall r, In (Fin r) l -> m' <= r).
Proof.
  intros H. revert m. induction H as [| v l Hv _ IH]; intros m Hm.
  - exists m. simpl. split; [reflexivity |]. split; [lra |].
    split; [now left | intros r []].
  - destruct v as [d | | |]; simpl in Hv; try contradiction.
    + cbn [fold_left ltb]. destruct (Rlt_dec d m) as [Hlt | Hge].
      * destruct (IH d Hv) as (m' & Hfold & Hrange & Hmem & Hleast).
        exists m'. split; [exact Hfold |]. split; [lra |]. split.
        -- right. destruct Hmem as [-> | Hmem]; [now left | now right].
        -- intros r [Hr | Hr]; [injection Hr as <-; lra | now apply Hleast].
      * destruct (IH m Hm) as (m' & Hfold & Hrange & Hmem & Hleast).
        exists m'. split; [exact Hfold |]. split; [lra |]. split.
        -- destruct Hmem as [-> | Hmem]; [now left | right; now right].
        -- intros r [Hr | Hr]; [injection Hr as <-; lra | now apply Hleast].
    + cbn [fold_left ltb].
      destruct (IH m Hm) as (m' & Hfold & Hrange & Hmem & Hleast).
      exists m'. split; [exact Hfold |]. split; [lra |]. split.
      * destruct Hmem as [-> | Hmem]; [now left | right; now right].
      * intros r [Hr | Hr]; [discriminate | now apply Hleast].
Qed.

(** [min] of the distances to a non-empty point set: [nan] when the first
    distance is, and otherwise the least of the distances that no [nan]
    hides. *)
Lemma min_by_distance (v : float64) (l : list float64) :
  Forall distance_value (v :: l) ->
  (v = NaN /\ Py.min_by ltb (v :: l) = Py.Ok NaN)
  \/ (exists m, Py.min_by ltb (v :: l) = Py.Ok (Fin m)
        /\ 0 <= m /\ In (Fin m) (v :: l)
        /\ forall r, In (Fin r) (v :: l) -> m <= r).
Proof.
  intros H. inversion H as [| ? ? Hv Hl]; subst.
  destruct v as [d | | |]; simpl in Hv; try contradiction.
  - right. destruct (fold_min_distance l d Hl Hv)
      as (m & Hfold & Hrange & Hmem & Hleast).
    exists m. unfold Py.min_by. rewrite Hfold.
    split; [reflexivity |]. split; [lra |]. split.
    + destruct Hmem as [-> | Hmem]; [now left | now right].
    + intros r [Hr | Hr]; [injection Hr as <-; lra | now apply Hleast].
  - left. split; [reflexivity |]. unfold Py.min_by.
    now rewrite fold_min_from_nan.
Qed.

Lemma ltb_fin (a : R) (v : float64) :
  distance_value v -> ltb (Fin a) v = true -> exists d, v = Fin d /\ a < d.
Proof.
  destruct v as [d | | |]; simpl; intros Hv H; try contradiction;
    [| discriminate].
  exists d. split; [reflexivity |]. now destruct (Rlt_dec a d).
Qed.

Lemma gtb_fin_false (a b : R) : a <= b -> gtb (Fin a) (Fin b) = false.
Proof.
  intros H. unfold gtb. simpl. destruct (Rlt_dec b a); [lra | reflexivity].
Qed.

Lemma gtb_fin_true (a b : R) : b < a -> gtb (Fin a) (Fin b) = true.
Proof.
  intros H. unfold gtb. simpl. destruct (Rlt_dec b a); [reflexivity | lra].
Qed.

End FloatFacts.

(** ** Two distances in exact arithmetic, used to run the objectives on
    explicit inputs *)

Section ExactDistances.

#[local] Existing Instance exact_arithmetic.

Lemma haversine_origin_antipode :
  haversine origin antipode = Fin (6371 * PI).
Proof.
  unfold haversine, hav_a, origin, antipode, radians, sqrt64.
  cbn [rnd fsin fcos fsqrt farctan2 fsquare deg2rad exact_arithmetic].
  replace ((0 - 0) * (PI / 180) / 2) with 0 by lra.
  replace ((180 - 0) * (PI / 180) / 2) with (PI / 2) by lra.
  replace (0 * (PI / 180)) with 0 by lra.
  rewrite sin_0, cos_0, sin_PI2.
  replace (0 * 0 + 1 * 1 * (1 * 1)) with 1 by ring.
  replace (1 - 1) with 0 by lra.
  destruct (Rlt_dec 1 0); [lra |]. destruct (Rlt_dec 0 0); [lra |].
  rewrite sqrt_0, sqrt_1. unfold arctan2.
  destruct (Rlt_dec 0 0); [lra |].
  destruct (Rlt_dec 0 1); [| lra]. f_equal. lra.
Qed.

Lemma half_way_round_is_far : 1 < 6371 * PI.
Proof. pose proof PI2_1. lra. Qed.

Lemma antipode_is_outside :
  gtb (haversine antipode origin) (Fin 1) = true.
Proof.
  rewrite haversine_sym, haversine_origin_antipode.
  apply gtb_fin_true, half_way_round_is_far.
Qed.

Lemma origin_is_inside : gtb (haversine origin origin) (Fin 1) = false.
Proof. rewrite haversine_refl. apply gtb_fin_false. lra. Qed.

Lemma antipode_is_away (lo : R) (p : coord) :
  lo < 1 -> In p [antipode] -> ltb (Fin lo) (haversine origin p) = true.
Proof.
  intros Hlo [<- | []]. rewrite haversine_origin_antipode.
  pose proof half_way_round_is_far. simpl.
  destruct (Rlt_dec lo (6371 * PI)); [reflexivity | lra].
Qed.

End ExactDistances.

(** C6, on two points: half the equator apart, in exact arithmetic. *)
Lemma haversine_symmetric_and_zero_on_diagonal_witness :
  haversine (fl := exact_arithmetic) origin antipode <> NaN
  /\ eqb (haversine (fl := exact_arithmetic) origin antipode)
         (haversine (fl := exact_arithmetic) antipode origin) = true.
Proof.
  assert (H : haversine (fl := exact_arithmetic) origin antipode <> NaN).
  { rewrite haversine_origin_antipode. discriminate. }
  split; [exact H |].
  exact (proj2 (proj2 (haversine_symmetric_and_zero_on_diagonal
                         (fl := exact_arithmetic) origin antipode)) H).
Defined.

(** ** The objective functions *)

Section Objectives.

Context {fl : Float64}.

Lemma haversine_distance (p q : coord) : distance_value (haversine p q).
Proof.
  destruct (haversine_cases p q) as [-> | (d & -> & Hd)]; [exact I | exact Hd].
Qed.

Lemma distances_are_distances (x : coord) (points : list coord) :
  Forall distance_value (map (haversine x) points).
Proof.
  apply List.Forall_forall. intros v Hv.
  apply in_map_iff in Hv as (p & <- & _). apply haversine_distance.
Qed.

(** The weights [1.0 / dist] of the points: one of them is [nan], from a
    [nan] distance, or all are positive. *)
Lemma weights_nan_or_positive (x : coord) (points : list coord) :
  (exists p, In p points /\ haversine x p = NaN)
  \/ Forall positive
       (map (fun dist => rtruediv 1 dist) (map (haversine x) points)).
Proof.
  induction points as [| p points IH]; [right; constructor |].
  destruct (rtruediv_1_distance _ (haversine_distance x p))
    as [[Hnan _] | [_ Hpos]].
  - left. exists p. split; [now left | exact Hnan].
  - destruct IH as [(q & Hq & Hnan) | IH].
    + left. exists q. split; [now right | exact Hnan].
    + right. simpl. now constructor.
Qed.

Lemma weights_finite (x : coord) (points : list coord) :
  (forall p, In p points ->
     ltb (Fin overflow_distance) (haversine x p) = true) ->
  Forall finite
    (map (fun dist => rtruediv 1 dist) (map (haversine x) points)).
Proof.
  intros H. apply List.Forall_forall. intros w Hw.
  apply in_map_iff in Hw as (v & <- & Hv).
  apply in_map_iff in Hv as (p & <- & Hp).
  destruct (ltb_fin _ _ (haversine_distance x p) (H p Hp)) as (d & -> & Hd).
  destruct (rtruediv_1_finite d Hd) as (w & -> & _). now exists w.
Qed.

(** [-min(distances)] on a non-empty point set. *)
Lemma min_distance_value (x p0 : coord) (rest : list coord) :
  (haversine x p0 = NaN
   /\ (m ← Py.min_by ltb (map (haversine x) (p0 :: rest)); Py.Ok (neg m))
      = Py.Ok NaN)
  \/ (haversine x p0 <> NaN
      /\ exists p d, In p (p0 :: rest) /\ haversine x p = Fin d /\ 0 <= d
         /\ (m ← Py.min_by ltb (map (haversine x) (p0 :: rest)); Py.Ok (neg m))
            = Py.Ok (Fin (- d))
         /\ forall q dq, In q (p0 :: rest) -> haversine x q = Fin dq -> d <= dq).
Proof.
  pose proof (distances_are_distances x (p0 :: rest)) as Hall.
  cbn [map] in *.
  destruct (min_by_distance _ _ Hall) as [[Hnan Hmin] | (m & Hmin & Hm & Hin & Hleast)].
  - left. split; [exact Hnan |]. now rewrite Hmin.
  - right. split.
    + intros Hnan. rewrite Hnan in Hmin. unfold Py.min_by in Hmin.
      rewrite fold_min_from_nan in Hmin. discriminate.
    + change (haversine x p0 :: map (haversine x) rest)
        with (map (haversine x) (p0 :: rest)) in Hin.
      apply in_map_iff in Hin as (p & Hp & Hpin).
      exists p, m. split; [exact Hpin |]. split; [exact Hp |].
      split; [exact Hm |]. split; [now rewrite Hmin |].
      intros q dq Hq Hdq. apply Hleast. rewrite <- Hdq.
      change (haversine x p0 :: map (haversine x) rest)
        with (map (haversine x) (p0 :: rest)).
      now apply in_map.
Qed.

(** The same when every distance is positive. *)
Lemma min_distance_negative (x : coord) (points : list coord) :
  points <> [] ->
  (forall p, In p points -> ltb (Fin 0) (haversine x p) = true) ->
  exists r, (m ← Py.min_by ltb (map (haversine x) points); Py.Ok (neg m))
            = Py.Ok (Fin r) /\ r < 0.
Proof.
  intros Hne Hpos. destruct points as [| p0 rest]; [congruence |].
  destruct (min_distance_value x p0 rest)
    as [[Hnan _] | (_ & p & d & Hp & Hd & _ & Hval & _)].
  - specialize (Hpos p0 (or_introl eq_refl)). rewrite Hnan in Hpos.
    discriminate.
  - destruct (ltb_fin _ _ (haversine_distance x p) (Hpos p Hp))
      as (d' & Hd' & Hlt).
    rewrite Hd in Hd'. injection Hd' as <-.
    exists (- d). split; [exact Hval | lra].
Qed.

(** The same when no distance is [nan]. *)
Lemma min_distance_nonpositive (x : coord) (points : list coord) :
  points <> [] ->
  (forall p, In p points -> haversine x p <> NaN) ->
  exists p d, In p points /\ haversine x p = Fin d /\ 0 <= d
    /\ (m ← Py.min_by ltb (map (haversine x) points); Py.Ok (neg m))
       = Py.Ok (Fin (- d))
    /\ forall q dq, In q points -> haversine x q = Fin dq -> d <= dq.
Proof.
  intros Hne Hnan. destruct points as [| p0 rest]; [congruence |].
  destruct (min_distance_value x p0 rest) as [[H _] | [_ H]]; [| exact H].
  now destruct (Hnan p0 (or_introl eq_refl)).
Qed.

(** optimal_point.py *)

Lemma optimal_point_outside x points center radius :
  gtb (haversine x center) (Fin radius) = true ->
  OptimalPoint.objective_function x points center radius = Py.Ok (Fin 0).
Proof.
  intros H. unfold OptimalPoint.objective_function. now rewrite H.
Qed.

Lemma optimal_point_inside x points center radius :
  gtb (haversine x center) (Fin radius) = false ->
  OptimalPoint.objective_function x points center radius
  = (m ← Py.min_by ltb (map (haversine x) points); Py.Ok (neg m)).
Proof.
  intros H. unfold OptimalPoint.objective_function. now rewrite H.
Qed.

Lemma optimal_point_empty x center radius :
  gtb (haversine x center) (Fin radius) = false ->
  OptimalPoint.objective_function x [] center radius = Py.Raise Py.ValueError.
Proof.
  intros H. now rewrite optimal_point_inside.
Qed.

(** At the center itself, for a radius that is not negative. *)
Lemma center_is_inside (center : coord) (radius : R) :
  0 <= radius -> gtb (haversine center center) (Fin radius) = false.
Proof. intros H. rewrite haversine_refl. now apply gtb_fin_false. Qed.

(** optimal_point_pure_radius_dx.py *)

Lemma pure_radius_outside x points center radius :
  gtb (haversine x center) (Fin radius) = true ->
  PureRadiusDx.objective_function x points center radius
  = Py.Ok (Fin 1000000000).
Proof.
  intros H. unfold PureRadiusDx.objective_function. now rewrite H.
Qed.

Lemma pure_radius_inside x points center radius :
  gtb (haversine x center) (Fin radius) = false ->
  PureRadiusDx.objective_function x points center radius
  = Py.Ok (NumPy.sum
      (map (fun dist => rtruediv 1 dist) (map (haversine x) points)
       ++ [rtruediv 1 (abs (rsub radius (haversine x center)))])).
Proof.
  intros H. unfold PureRadiusDx.objective_function. rewrite H.
  now rewrite map_app.
Qed.

(** The distance to the circle and its weight. *)
Lemma boundary_weight x center radius :
  (haversine x center = NaN
   /\ rtruediv 1 (abs (rsub radius (haversine x center))) = NaN)
  \/ (haversine x center <> NaN
      /\ positive (rtruediv 1 (abs (rsub radius (haversine x center))))).
Proof.
  pose proof (haversine_distance x center) as Hd.
  destruct (haversine x center) as [dc | | |]; simpl in Hd; try contradiction.
  - right. split; [discriminate |].
    cbn [rsub neg add abs].
    destruct (Rabs_pos (radius + - dc)) as [Hpos | <-].
    + now apply rtruediv_1_positive.
    + now rewrite rtruediv_1_zero.
  - left. now split.
Qed.

Lemma pure_radius_finite x points center radius :
  ltb (Fin overflow_distance) (rsub radius (haversine x center)) = true ->
  (forall p, In p points ->
     ltb (Fin overflow_distance) (haversine x p) = true) ->
  exists v, PureRadiusDx.objective_function x points center radius
            = Py.Ok (Fin v).
Proof.
  intros Hin Hpts. pose proof overflow_distance_pos as Hpos.
  pose proof (haversine_distance x center) as Hd.
  destruct (haversine x center) as [dc | | |] eqn:Hc; simpl in Hd;
    try contradiction; [| discriminate].
  cbn [rsub neg add ltb] in Hin.
  destruct (Rlt_dec overflow_distance (radius + - dc)) as [Hlt | _];
    [| discriminate].
  rewrite pure_radius_inside
    by (rewrite Hc; apply gtb_fin_false; lra).
  rewrite Hc. cbn [rsub neg add abs].
  rewrite Rabs_pos_eq by lra.
  destruct (rtruediv_1_finite _ Hlt) as (w & Hw & _). rewrite Hw.
  destruct (fold_add_finite
    (map (fun dist => rtruediv 1 dist) (map (haversine x) points) ++ [Fin w]) 0)
    as [s Hs].
  - apply Forall_app. split; [now apply weights_finite |].
    constructor; [now exists w | constructor].
  - exists s. unfold NumPy.sum. now rewrite Hs.
Qed.

(** point_by_geography.py *)

Lemma by_geography_outside x points boundary :
  contains boundary (fst x, snd x) = false ->
  PointByGeography.objective_function x points boundary
  = Py.Ok (Fin 1000000000).
Proof.
  intros H. unfold PointByGeography.objective_function. now rewrite H.
Qed.

Lemma by_geography_inside x points boundary :
  contains boundary (fst x, snd x) = true ->
  PointByGeography.objective_function x points boundary
  = Py.Ok (NumPy.sum
      (map (fun dist => rtruediv 1 dist) (map (haversine x) points))).
Proof.
  intros H. unfold PointByGeography.objective_function. now rewrite H.
Qed.

Lemma by_geography_finite x points boundary :
  contains boundary (fst x, snd x) = true ->
  (forall p, In p points ->
     ltb (Fin overflow_distance) (haversine x p) = true) ->
  exists v, PointByGeography.objective_function x points boundary
            = Py.Ok (Fin v).
Proof.
  intros Hin Hpts. rewrite by_geography_inside by assumption.
  destruct (fold_add_finite
    (map (fun dist => rtruediv 1 dist) (map (haversine x) points)) 0)
    as [s Hs]; [now apply weights_finite |].
  exists s. unfold NumPy.sum. now rewrite Hs.
Qed.

(** optimal_point_2.py *)

Lemma on_public_land_outside x points center radius polygons :
  existsb (fun polygon => contains polygon (snd x, fst x)) polygons = false
  \/ gtb (haversine x center) (Fin radius) = true ->
  OptimalPoint2.objective_function x points center radius polygons
  = Py.Ok (Fin 1000).
Proof.
  intros H. unfold OptimalPoint2.objective_function.
  destruct (existsb _ polygons); cbn [negb]; [| reflexivity].
  destruct H as [H | H]; [discriminate | now rewrite H].
Qed.

Lemma on_public_land_inside x points center radius polygons :
  existsb (fun polygon => contains polygon (snd x, fst x)) polygons = true ->
  gtb (haversine x center) (Fin radius) = false ->
  OptimalPoint2.objective_function x points center radius polygons
  = (m ← Py.min_by ltb (map (haversine x) points); Py.Ok (neg m)).
Proof.
  intros Hland H. unfold OptimalPoint2.objective_function.
  rewrite Hland. cbn [negb]. now rewrite H.
Qed.

End Objectives.

(** C1 (amended).  A candidate that the test [haversine(x, center) >
    radius], the boundary or the public-land mask finds outside gets a
    fixed finite constant: 1000000000 in optimal_point_pure_radius_dx.py
    and point_by_geography.py, 1000 in optimal_point_2.py, and 0 in
    optimal_point.py.  A candidate whose distance to every point, and in
    optimal_point_pure_radius_dx.py to the circle from inside, is above
    [overflow_distance] gets a finite value from the inverse-distance
    objectives; a candidate not found outside and at positive distance
    from every point of a non-empty set gets one from the minimum-distance
    objectives. *)
Theorem objective_outside_constant_inside_finite {fl : Float64}
    (x center : coord) (points : list coord) (radius : R)
    (boundary : Geometry) (polygons : list Geometry) :
  (gtb (haversine x center) (Fin radius) = true ->
     PureRadiusDx.objective_function x points center radius
       = Py.Ok (Fin 1000000000)
     /\ OptimalPoint.objective_function x points center radius
       = Py.Ok (Fin 0))
  /\ (contains boundary (fst x, snd x) = false ->
     PointByGeography.objective_function x points boundary
       = Py.Ok (Fin 1000000000))
  /\ (existsb (fun polygon => contains polygon (snd x, fst x)) polygons = false
      \/ gtb (haversine x center) (Fin radius) = true ->
     OptimalPoint2.objective_function x points center radius polygons
       = Py.Ok (Fin 1000))
  /\ ((forall p, In p points ->
         ltb (Fin overflow_distance) (haversine x p) = true) ->
      (ltb (Fin overflow_distance) (rsub radius (haversine x center)) = true ->
         exists v, PureRadiusDx.objective_function x points center radius
                   = Py.Ok (Fin v))
      /\ (contains boundary (fst x, snd x) = true ->
         exists v, PointByGeography.objective_function x points boundary
                   = Py.Ok (Fin v)))
  /\ ((forall p, In p points -> ltb (Fin 0) (haversine x p) = true) ->
      points <> [] ->
      gtb (haversine x center) (Fin radius) = false ->
      (exists v, OptimalPoint.objective_function x points center radius
                 = Py.Ok (Fin v))
      /\ (existsb (fun polygon => contains polygon (snd x, fst x)) polygons
          = true ->
         exists v,
           OptimalPoint2.objective_function x points center radius polygons
           = Py.Ok (Fin v))).
Proof.
  split; [| split; [| split; [| split]]].
  - intros H. split.
    + now apply pure_radius_outside.
    + now apply optimal_point_outside.
  - apply by_geography_outside.
  - apply on_public_land_outside.
  - intros Hpts. split.
    + intros H. now apply pure_radius_finite.
    + intros H. now apply by_geography_finite.
  - intros Hpos Hne Hin.
    destruct (min_distance_negative x points Hne Hpos) as (r & Hr & _).
    split.
    + exists r. now rewrite optimal_point_inside.
    + intros Hland. exists r. now rewrite on_public_land_inside.
Qed.

Lemma objective_outside_constant_inside_finite_witness :
  (gtb (haversine (fl := exact_arithmetic) antipode origin) (Fin 1) = true
   /\ PureRadiusDx.objective_function (fl := exact_arithmetic)
        antipode [origin] origin 1
      = Py.Ok (Fin 1000000000))
  /\ ((forall p, In p [antipode] ->
         ltb (Fin overflow_distance)
             (haversine (fl := exact_arithmetic) origin p) = true)
      /\ ltb (Fin overflow_distance)
             (rsub 1 (haversine (fl := exact_arithmetic) origin origin)) = true
      /\ exists v, PureRadiusDx.objective_function (fl := exact_arithmetic)
                     origin [antipode] origin 1
                   = Py.Ok (Fin v))
  /\ ((forall p, In p [antipode] ->
         ltb (Fin 0) (haversine (fl := exact_arithmetic) origin p) = true)
      /\ [antipode] <> []
      /\ gtb (haversine (fl := exact_arithmetic) origin origin) (Fin 1) = false
      /\ exists v, OptimalPoint.objective_function (fl := exact_arithmetic)
                     origin [antipode] origin 1
                   = Py.Ok (Fin v)).
Proof.
  pose proof overflow_distance_pos as Hsmall.
  assert (Hone : overflow_distance < 1).
  { unfold overflow_distance. rewrite <- Rinv_1.
    apply Rinv_0_lt_contravar; [lra |].
    unfold overflow_bound.
    replace 1024%nat with (970 + 54)%nat by reflexivity. rewrite pow_add.
    assert (H970 : 1 <= 2 ^ 970) by (apply pow_R1_Rle; lra).
    assert (H53 : 1 <= 2 ^ 53) by (apply pow_R1_Rle; lra).
    replace 54%nat with (S 53) by reflexivity. rewrite <- tech_pow_Rmult.
    nra. }
  assert (Hfar : forall p, In p [antipode] ->
            ltb (Fin overflow_distance)
                (haversine (fl := exact_arithmetic) origin p) = true).
  { intros p Hp. now apply antipode_is_away. }
  assert (Hpos : forall p, In p [antipode] ->
            ltb (Fin 0) (haversine (fl := exact_arithmetic) origin p) = true).
  { intros p Hp. apply antipode_is_away; [lra | exact Hp]. }
  assert (Hcircle : ltb (Fin overflow_distance)
            (rsub 1 (haversine (fl := exact_arithmetic) origin origin)) = true).
  { rewrite haversine_refl. cbn [rsub neg add ltb].
    destruct (Rlt_dec overflow_distance (1 + - 0)); [reflexivity | lra]. }
  assert (Hne : [antipode] <> []) by discriminate.
  split; [| split].
  - split; [exact antipode_is_outside |].
    exact (proj1 (proj1 (objective_outside_constant_inside_finite
                           (fl := exact_arithmetic)
                           antipode origin [origin] 1 everywhere [])
                        antipode_is_outside)).
  - split; [exact Hfar |]. split; [exact Hcircle |].
    exact (proj1 (proj1 (proj2 (proj2 (proj2
             (objective_outside_constant_inside_finite
                (fl := exact_arithmetic)
                origin origin [antipode] 1 everywhere []))))
             Hfar) Hcircle).
  - split; [exact Hpos |]. split; [exact Hne |].
    split; [exact origin_is_inside |].
    exact (proj1 (proj2 (proj2 (proj2 (proj2
             (objective_outside_constant_inside_finite
                (fl := exact_arithmetic)
                origin origin [antipode] 1 everywhere []))))
             Hpos Hne origin_is_inside)).
Defined.

(** C1, the claim as stated fails.  optimal_point.py returns no positive
    penalty outside the circle (it returns 0 there); its objective has no
    value at all at the center of the circle for an empty point set; and
    at the candidate (0.08, 0), some 20015 km from the center (-0.08, 180)
    of a circle of radius 1, the distance to the center is [nan], the test
    [nan > radius] is False and optimal_point_pure_radius_dx.py returns
    [nan], not its penalty. *)
Lemma optimal_point_has_no_large_sentinel :
  (~ exists sentinel : R, 0 < sentinel /\
       forall (fl : Float64) x points center radius,
         gtb (haversine x center) (Fin radius) = true ->
         OptimalPoint.objective_function x points center radius
         = Py.Ok (Fin sentinel))
  /\ (forall fl : Float64,
        OptimalPoint.objective_function origin [] origin 1
        = Py.Raise Py.ValueError)
  /\ PureRadiusDx.objective_function (fl := near_antipode_arithmetic)
       north_of_origin [] south_of_antipode 1
     = Py.Ok NaN.
Proof.
  split; [| split].
  - intros (s & Hs & H).
    specialize (H exact_arithmetic antipode [] origin 1 antipode_is_outside).
    rewrite (optimal_point_outside _ _ _ _ antipode_is_outside) in H.
    injection H as H. lra.
  - intros fl. apply optimal_point_empty, center_is_inside. lra.
  - unfold PureRadiusDx.objective_function.
    now rewrite haversine_near_antipode.
Qed.

(** C2.  At a candidate that coincides with an input point and is not
    outside the region, the inverse-distance objectives divide by zero:
    numpy raises nothing and the value returned is [inf], not the penalty
    constant 1000000000. *)
Theorem coincident_candidate_returns_inf {fl : Float64} :
  PureRadiusDx.objective_function origin [origin] origin 1 = Py.Ok PInf
  /\ PointByGeography.objective_function origin [origin] everywhere = Py.Ok PInf
  /\ Py.Ok PInf <> Py.Ok (Fin 1000000000).
Proof.
  split; [| split].
  - rewrite pure_radius_inside by (apply center_is_inside; lra).
    cbn [map app]. rewrite !haversine_refl, rtruediv_1_zero.
    unfold NumPy.sum. rewrite fold_add_reaches_pinf; [reflexivity | | now left].
    constructor; [exact I |]. constructor; [| constructor].
    destruct (boundary_weight origin origin 1) as [[Hnan _] | [_ Hpos]].
    + rewrite haversine_refl in Hnan. discriminate.
    + rewrite haversine_refl in Hpos. now apply positive_not_below.
  - rewrite by_geography_inside by reflexivity.
    cbn [map]. now rewrite haversine_refl, rtruediv_1_zero.
  - discriminate.
Qed.

(** C10 (amended).  In optimal_point.py a value of the objective is at
    most 0, or it is [nan], and this only when the distance to the first
    point is [nan]; it is exactly 0 for a candidate that the test
    [haversine(x, center) > radius] finds outside; and for a non-empty
    point set it is strictly negative at every candidate not found outside
    and at positive distance from all the points, so that a candidate
    found outside never scores below such a candidate. *)
Theorem min_distance_objective_nonpositive {fl : Float64}
    (x x_out center : coord) (points : list coord) (radius : R) :
  (forall v, OptimalPoint.objective_function x points center radius = Py.Ok v ->
     (exists r, v = Fin r /\ r <= 0)
     \/ (v = NaN
         /\ exists p rest, points = p :: rest /\ haversine x p = NaN))
  /\ (gtb (haversine x center) (Fin radius) = true ->
      OptimalPoint.objective_function x points center radius = Py.Ok (Fin 0))
  /\ (points <> [] -> gtb (haversine x center) (Fin radius) = false ->
      (forall p, In p points -> ltb (Fin 0) (haversine x p) = true) ->
      exists r, OptimalPoint.objective_function x points center radius
                = Py.Ok (Fin r)
        /\ r < 0
        /\ (gtb (haversine x_out center) (Fin radius) = true ->
            exists r_out,
              OptimalPoint.objective_function x_out points center radius
              = Py.Ok (Fin r_out) /\ r < r_out)).
Proof.
  split; [| split].
  - intros v Hv.
    destruct (gtb (haversine x center) (Fin radius)) eqn:Hout.
    + rewrite (optimal_point_outside _ _ _ _ Hout) in Hv.
      injection Hv as <-. left. exists 0. split; [reflexivity | lra].
    + rewrite (optimal_point_inside _ _ _ _ Hout) in Hv.
      destruct points as [| p0 rest]; [discriminate |].
      destruct (min_distance_value x p0 rest)
        as [[Hnan Hval] | (_ & p & d & _ & _ & Hd & Hval & _)];
        rewrite Hval in Hv; injection Hv as <-.
      * right. split; [reflexivity |]. now exists p0, rest.
      * left. exists (- d). split; [reflexivity | lra].
  - apply optimal_point_outside.
  - intros Hne Hin Hpos.
    destruct (min_distance_negative x points Hne Hpos) as (r & Hr & Hneg).
    exists r. split; [now rewrite optimal_point_inside |].
    split; [exact Hneg |].
    intros Hout. exists 0. split; [now apply optimal_point_outside | lra].
Qed.

Lemma min_distance_objective_nonpositive_witness :
  (gtb (haversine (fl := exact_arithmetic) antipode origin) (Fin 1) = true
   /\ OptimalPoint.objective_function (fl := exact_arithmetic)
        antipode [antipode] origin 1
      = Py.Ok (Fin 0))
  /\ ([antipode] <> []
      /\ gtb (haversine (fl := exact_arithmetic) origin origin) (Fin 1) = false
      /\ (forall p, In p [antipode] ->
            ltb (Fin 0) (haversine (fl := exact_arithmetic) origin p) = true)
      /\ exists r, OptimalPoint.objective_function (fl := exact_arithmetic)
                     origin [antipode] origin 1
                   = Py.Ok (Fin r) /\ r < 0).
Proof.
  assert (Hpos : forall p, In p [antipode] ->
            ltb (Fin 0) (haversine (fl := exact_arithmetic) origin p) = true).
  { intros p Hp. apply antipode_is_away; [lra | exact Hp]. }
  assert (Hne : [antipode] <> []) by discriminate.
  split.
  - split; [exact antipode_is_outside |].
    exact (proj1 (proj2 (min_distance_objective_nonpositive
                           (fl := exact_arithmetic)
                           antipode antipode origin [antipode] 1))
                 antipode_is_outside).
  - split; [exact Hne |]. split; [exact origin_is_inside |].
    split; [exact Hpos |].
    destruct (proj2 (proj2 (min_distance_objective_nonpositive
                              (fl := exact_arithmetic)
                              origin antipode origin [antipode] 1))
                    Hne origin_is_inside Hpos)
      as (r & Hr & Hneg & _).
    exists r. split; assumption.
Defined.

(** C10, the claim as stated fails.  On an empty point set a candidate
    inside the circle is at positive distance from every input point, and
    the objective raises [ValueError] instead of returning a negative
    value; and at the candidate (0.08, 0), the center of the circle, with
    the one point (-0.08, 180) the objective returns [-min([nan])], which
    is [nan] and not [<= 0]. *)
Lemma min_distance_objective_raises_on_empty :
  (~ (forall (fl : Float64) (x center : coord) (points : list coord)
             (radius : R),
        gtb (haversine x center) (Fin radius) = false ->
        (forall p, In p points -> ltb (Fin 0) (haversine x p) = true) ->
        exists r, OptimalPoint.objective_function x points center radius
                  = Py.Ok (Fin r) /\ r < 0))
  /\ OptimalPoint.objective_function (fl := near_antipode_arithmetic)
       north_of_origin [south_of_antipode] north_of_origin 1
     = Py.Ok NaN.
Proof.
  split.
  - intros H.
    destruct (H exact_arithmetic origin origin [] 1) as (r & Hr & _).
    + exact origin_is_inside.
    + intros p [].
    + rewrite optimal_point_empty in Hr; [discriminate |].
      exact origin_is_inside.
  - rewrite optimal_point_inside by (apply center_is_inside; lra).
    cbn [map]. now rewrite haversine_near_antipode.
Qed.

(** ** Arrays and the clipped loop nest *)

Section Arrays.

Lemma range_nil (lo hi : Z) : (hi <= lo)%Z -> Py.range lo hi = [].
Proof.
  intros H. unfold Py.range. replace (Z.to_nat (hi - lo)) with 0%nat by lia.
  reflexivity.
Qed.

Lemma range_cons (lo hi : Z) :
  (lo < hi)%Z -> Py.range lo hi = lo :: Py.range (lo + 1) hi.
Proof.
  intros H. unfold Py.range.
  replace (Z.to_nat (hi - lo)) with (S (Z.to_nat (hi - (lo + 1)))) by lia.
  simpl. f_equal; [lia |].
  rewrite <- seq_shift, map_map. apply map_ext. intros k. lia.
Qed.

Example range_of_a_corner_cell :
  Py.range (Z.max (- 0) (- 10)) (Z.min (2 - 0) (10 + 1)) = [0; 1]%Z.
Proof. reflexivity. Qed.

Lemma in_range (lo hi k : Z) : In k (Py.range lo hi) <-> (lo <= k < hi)%Z.
Proof.
  unfold Py.range. rewrite in_map_iff. split.
  - intros (n & <- & Hn). apply in_seq in Hn. lia.
  - intros H. exists (Z.to_nat (k - lo)). split; [lia |].
    apply in_seq. lia.
Qed.

Lemma index_in_bounds (n k : Z) :
  (0 <= k < n)%Z -> index n k = Py.Ok (Z.to_nat k).
Proof.
  intros H. unfold index.
  replace ((0 <=? k) && (k <? n))%Z with true; [reflexivity |].
  symmetry. apply andb_true_iff. split; [apply Z.leb_le | apply Z.ltb_lt]; lia.
Qed.

Lemma shape_alter (f : list float64 -> list float64) (k : nat) (a : ndarray) :
  (forall row, length (f row) = length row) -> shape (alter f k a) = shape a.
Proof.
  intros Hf. unfold shape. rewrite length_alter. f_equal.
  destruct a as [| row a]; [reflexivity |].
  destruct k; simpl; [now rewrite Hf | reflexivity].
Qed.

Lemma cell_alter (f : float64 -> float64) (r c r2 c2 : nat) (a : ndarray) :
  cell (alter (alter f c) r a) r2 c2
  = if decide (r = r2 /\ c = c2) then f <$> cell a r2 c2 else cell a r2 c2.
Proof.
  unfold cell. rewrite list_lookup_alter.
  destruct (decide (r = r2)) as [-> | Hr].
  - destruct (a !! r2) as [row |]; simpl.
    + rewrite list_lookup_alter.
      destruct (decide (c = c2)) as [-> | Hc].
      * rewrite decide_True by done. reflexivity.
      * rewrite decide_False by (intros [_ ?]; done). reflexivity.
    + now destruct (decide (r2 = r2 /\ c = c2)).
  - rewrite decide_False by (intros [? _]; done). reflexivity.
Qed.

Lemma iadd_spec (a : ndarray) (h w r c : Z) (v : float64) :
  shape a = (h, w) -> (0 <= r < h)%Z -> (0 <= c < w)%Z ->
  exists a', iadd a r c v = Py.Ok a' /\ shape a' = (h, w) /\
    forall r2 c2, cell a' r2 c2
      = if decide (Z.of_nat r2 = r /\ Z.of_nat c2 = c)
        then (fun old => add old v) <$> cell a r2 c2
        else cell a r2 c2.
Proof.
  intros Hs Hr Hc. unfold iadd. rewrite Hs.
  rewrite (index_in_bounds h r Hr), (index_in_bounds w c Hc).
  eexists. split; [reflexivity |]. split.
  - rewrite shape_alter; [exact Hs |]. intros row. apply length_alter.
  - intros r2 c2. rewrite cell_alter.
    destruct (decide (Z.to_nat r = r2 /\ Z.to_nat c = c2)) as [[<- <-] | Hn].
    + rewrite decide_True by lia. reflexivity.
    + rewrite decide_False by lia. reflexivity.
Qed.

End Arrays.

Section LoopNest.

Variable weight : Z -> Z -> option float64.
Variables height width row col : Z.

Local Abbreviation inner i := (window_body weight row col i).

Lemma inner_step (i j : Z) (grid : ndarray) :
  shape grid = (height, width) ->
  (0 <= row + i < height)%Z -> (0 <= col + j < width)%Z ->
  exists grid', inner i grid j = Py.Ok grid' /\ shape grid' = (height, width) /\
    forall r c, cell grid' r c
      = if decide (Z.of_nat r - row = i /\ Z.of_nat c - col = j)%Z
        then bump (weight i j) (cell grid r c)
        else cell grid r c.
Proof.
  intros Hs Hi Hj. unfold window_body. destruct (weight i j) as [v |].
  - destruct (iadd_spec grid height width (row + i) (col + j) v Hs Hi Hj)
      as (grid' & Hrun & Hs' & Hcell).
    exists grid'. split; [exact Hrun |]. split; [exact Hs' |].
    intros r c. rewrite Hcell.
    destruct (decide (Z.of_nat r = row + i /\ Z.of_nat c = col + j)%Z).
    + rewrite decide_True by lia. reflexivity.
    + rewrite decide_False by lia. reflexivity.
  - exists grid. split; [reflexivity |]. split; [exact Hs |].
    intros r c. now destruct (decide _).
Qed.

Lemma inner_loop (i : Z) :
  (0 <= row + i < height)%Z ->
  forall (n : nat) (lo hi : Z) (grid : ndarray),
    Z.to_nat (hi - lo) = n ->
    shape grid = (height, width) ->
    (0 <= col + lo)%Z -> (hi <= width - col)%Z ->
    exists grid',
      Py.for_each (inner i) (Py.range lo hi) grid = Py.Ok grid'
      /\ shape grid' = (height, width)
      /\ forall r c, cell grid' r c
           = if decide (Z.of_nat r - row = i /\ lo <= Z.of_nat c - col < hi)%Z
             then bump (weight i (Z.of_nat c - col)) (cell grid r c)
             else cell grid r c.
Proof.
  intros Hi. induction n as [| n IH]; intros lo hi grid Hn Hs Hlo Hhi.
  - rewrite (range_nil lo hi) by lia. exists grid. split; [reflexivity |].
    split; [exact Hs |]. intros r c. rewrite decide_False by lia. reflexivity.
  - rewrite (range_cons lo hi) by lia. simpl.
    destruct (inner_step i lo grid Hs Hi) as (g1 & Hrun1 & Hs1 & Hcell1); [lia |].
    rewrite Hrun1. simpl.
    destruct (IH (lo + 1)%Z hi g1) as (g2 & Hrun2 & Hs2 & Hcell2); try lia.
    { exact Hs1. }
    exists g2. split; [exact Hrun2 |]. split; [exact Hs2 |].
    intros r c. rewrite Hcell2, Hcell1.
    destruct (decide (Z.of_nat r - row = i /\ lo + 1 <= Z.of_nat c - col < hi)%Z)
      as [[Hr Hc] | Hn1].
    + rewrite decide_False by lia. rewrite decide_True by lia. reflexivity.
    + destruct (decide (Z.of_nat r - row = i /\ Z.of_nat c - col = lo)%Z)
        as [[Hr Hc] | Hn2].
      * rewrite decide_True by lia. now rewrite Hc.
      * rewrite decide_False by lia. reflexivity.
Qed.

Lemma outer_loop (lo_j hi_j : Z) :
  (0 <= col + lo_j)%Z -> (hi_j <= width - col)%Z ->
  forall (n : nat) (lo hi : Z) (grid : ndarray),
    Z.to_nat (hi - lo) = n ->
    shape grid = (height, width) ->
    (0 <= row + lo)%Z -> (hi <= height - row)%Z ->
    exists grid',
      Py.for_each
        (fun grid i => Py.for_each (inner i) (Py.range lo_j hi_j) grid)
        (Py.range lo hi) grid = Py.Ok grid'
      /\ shape grid' = (height, width)
      /\ forall r c, cell grid' r c
           = if decide ((lo <= Z.of_nat r - row < hi)
                        /\ (lo_j <= Z.of_nat c - col < hi_j))%Z
             then bump (weight (Z.of_nat r - row) (Z.of_nat c - col))
                       (cell grid r c)
             else cell grid r c.
Proof.
  intros Hloj Hhij. induction n as [| n IH]; intros lo hi grid Hn Hs Hlo Hhi.
  - rewrite (range_nil lo hi) by lia. exists grid. split; [reflexivity |].
    split; [exact Hs |]. intros r c. rewrite decide_False by lia. reflexivity.
  - rewrite (range_cons lo hi) by lia. simpl.
    destruct (inner_loop lo) with (n := Z.to_nat (hi_j - lo_j))
      (lo := lo_j) (hi := hi_j) (grid := grid)
      as (g1 & Hrun1 & Hs1 & Hcell1); try lia; try assumption.
    rewrite Hrun1. simpl.
    destruct (IH (lo + 1)%Z hi g1) as (g2 & Hrun2 & Hs2 & Hcell2); try lia.
    { exact Hs1. }
    exists g2. split; [exact Hrun2 |]. split; [exact Hs2 |].
    intros r c. rewrite Hcell2, Hcell1.
    destruct (decide ((lo + 1 <= Z.of_nat r - row < hi)
                      /\ (lo_j <= Z.of_nat c - col < hi_j))%Z) as [[Hr Hc] | Hn1].
    + rewrite decide_False by lia. rewrite decide_True by lia. reflexivity.
    + destruct (decide (Z.of_nat r - row = lo
                        /\ lo_j <= Z.of_nat c - col < hi_j)%Z) as [[Hr Hc] | Hn2].
      * rewrite decide_True by lia. now rewrite Hr.
      * rewrite decide_False by lia. reflexivity.
Qed.

(** One point: the loop nest never leaves the array, and adds to each cell
    the [contribution] of the point. *)
Lemma accumulate_window_spec (max_distance : Z) (grid : ndarray) :
  shape grid = (height, width) ->
  exists grid',
    accumulate_window weight grid height width row col max_distance
      = Py.Ok grid'
    /\ shape grid' = (height, width)
    /\ forall r c, cell grid' r c
         = bump (contribution weight height width row col max_distance r c)
                (cell grid r c).
Proof.
  intros Hs. unfold accumulate_window.
  destruct (outer_loop (Z.max (- col) (- max_distance))
                       (Z.min (width - col) (max_distance + 1)))
    with (n := Z.to_nat (Z.min (height - row) (max_distance + 1)
                         - Z.max (- row) (- max_distance)))
         (lo := Z.max (- row) (- max_distance))
         (hi := Z.min (height - row) (max_distance + 1))
         (grid := grid)
    as (grid' & Hrun & Hs' & Hcell); try lia; try assumption.
  exists grid'. split; [exact Hrun |]. split; [exact Hs' |].
  intros r c. rewrite Hcell. unfold contribution.
  destruct (decide _); reflexivity.
Qed.

End LoopNest.

Section Points.

Variable weight : Z -> Z -> option float64.
Variables lat_min lon_min unit_size : R.
Variable max_distance : Z.

Lemma cell_index_nonzero (v v_min : R) :
  unit_size <> 0 ->
  cell_index v v_min unit_size = Py.Ok (Py.trunc ((v - v_min) / unit_size)).
Proof.
  intros Hu. unfold cell_index, true_divide.
  now destruct (Req_dec_T unit_size 0).
Qed.

Lemma cell_index_result (v v_min : R) :
  (exists k, cell_index v v_min unit_size = Py.Ok k)
  \/ (unit_size = 0
      /\ (cell_index v v_min unit_size = Py.Raise Py.OverflowError
          \/ cell_index v v_min unit_size = Py.Raise Py.ValueError)).
Proof.
  unfold cell_index, true_divide.
  destruct (Req_dec_T unit_size 0) as [-> | Hu].
  - right. split; [reflexivity |].
    destruct (Rlt_dec 0 (v - v_min)); [now left |].
    destruct (Rlt_dec (v - v_min) 0); [now left | now right].
  - left. eexists. reflexivity.
Qed.

Local Abbreviation per_point height width :=
  (point_body weight lat_min lon_min unit_size max_distance height width).

Lemma per_point_spec (height width : Z) (grid : ndarray) (p : R * R) :
  unit_size <> 0 -> shape grid = (height, width) ->
  exists grid', per_point height width grid p = Py.Ok grid'
    /\ shape grid' = (height, width)
    /\ forall r c, cell grid' r c
         = bump (contribution_of weight height width lat_min lon_min unit_size
                                 max_distance r c p)
                (cell grid r c).
Proof.
  intros Hu Hs. destruct p as [lat lon]. unfold point_body.
  rewrite !cell_index_nonzero by assumption. simpl.
  apply accumulate_window_spec. exact Hs.
Qed.

Lemma per_point_result (height width : Z) (grid : ndarray) (p : R * R) :
  shape grid = (height, width) ->
  (exists grid', per_point height width grid p = Py.Ok grid'
                 /\ shape grid' = (height, width))
  \/ per_point height width grid p = Py.Raise Py.OverflowError
  \/ per_point height width grid p = Py.Raise Py.ValueError.
Proof.
  intros Hs. destruct p as [lat lon]. unfold point_body.
  destruct (cell_index_result lat lat_min) as [[row ->] | [_ [-> | ->]]];
    [| right; now left | right; now right].
  destruct (cell_index_result lon lon_min) as [[col ->] | [_ [-> | ->]]];
    [| right; now left | right; now right].
  left. simpl.
  destruct (accumulate_window_spec weight height width row col max_distance
              grid Hs) as (grid' & Hrun & Hs' & _).
  exists grid'. split; assumption.
Qed.

Lemma for_each_points_spec (height width : Z) (points : list (R * R)) :
  unit_size <> 0 ->
  forall grid, shape grid = (height, width) ->
  exists grid',
    Py.for_each (per_point height width) points grid = Py.Ok grid'
    /\ shape grid' = (height, width)
    /\ forall r c, cell grid' r c
         = fold_left
             (fun old p =>
                bump (contribution_of weight height width lat_min lon_min
                                      unit_size max_distance r c p) old)
             points (cell grid r c).
Proof.
  intros Hu. induction points as [| p points IH]; intros grid Hs.
  - exists grid. split; [reflexivity |]. split; [exact Hs | reflexivity].
  - destruct (per_point_spec height width grid p Hu Hs)
      as (g1 & Hrun1 & Hs1 & Hcell1).
    destruct (IH g1 Hs1) as (g2 & Hrun2 & Hs2 & Hcell2).
    exists g2. split; [| split; [exact Hs2 |]].
    + simpl. rewrite Hrun1. exact Hrun2.
    + intros r c. simpl. rewrite Hcell2, Hcell1. reflexivity.
Qed.

Lemma for_each_points_result (height width : Z) (points : list (R * R)) :
  forall grid, shape grid = (height, width) ->
  Py.for_each (per_point height width) points grid
  <> Py.Raise Py.IndexError.
Proof.
  induction points as [| p points IH]; intros grid Hs; [discriminate |].
  simpl.
  destruct (per_point_result height width grid p Hs)
    as [(g1 & -> & Hs1) | [-> | ->]]; [| discriminate | discriminate].
  simpl. now apply IH.
Qed.

Lemma apply_points_spec (grid : ndarray) (latitudes longitudes : list R) :
  unit_size <> 0 ->
  exists grid',
    apply_points weight grid latitudes longitudes lat_min lon_min unit_size
                 max_distance = Py.Ok grid'
    /\ shape grid' = shape grid
    /\ forall r c, cell grid' r c
         = fold_left
             (fun old p =>
                bump (contribution_of weight (fst (shape grid)) (snd (shape grid))
                        lat_min lon_min unit_size max_distance r c p) old)
             (combine latitudes longitudes) (cell grid r c).
Proof.
  intros Hu. unfold apply_points.
  destruct (shape grid) as [height width] eqn:Hs.
  apply (for_each_points_spec height width _ Hu grid Hs).
Qed.

Lemma apply_points_no_index_error (grid : ndarray) (latitudes longitudes : list R) :
  apply_points weight grid latitudes longitudes lat_min lon_min unit_size
               max_distance <> Py.Raise Py.IndexError.
Proof.
  unfold apply_points. destruct (shape grid) as [height width] eqn:Hs.
  apply (for_each_points_result height width _ grid Hs).
Qed.

End Points.

(** ** The two weights *)

Section Weights.

Lemma contribution_in_window (weight : Z -> Z -> option float64)
    (height width row col max_distance : Z) (r c : nat) :
  (Z.of_nat r < height)%Z -> (Z.of_nat c < width)%Z ->
  (- max_distance <= Z.of_nat r - row <= max_distance)%Z ->
  (- max_distance <= Z.of_nat c - col <= max_distance)%Z ->
  contribution weight height width row col max_distance r c
  = weight (Z.of_nat r - row)%Z (Z.of_nat c - col)%Z.
Proof.
  intros Hr Hc Hi Hj. unfold contribution. rewrite decide_True by lia.
  reflexivity.
Qed.

Lemma contribution_none (weight : Z -> Z -> option float64)
    (height width row col max_distance : Z) (r c : nat) :
  weight (Z.of_nat r - row)%Z (Z.of_nat c - col)%Z = None ->
  contribution weight height width row col max_distance r c = None.
Proof. intros H. unfold contribution. now destruct (decide _). Qed.

Lemma contribution_nonneg (weight : Z -> Z -> option float64)
    (height width row col max_distance : Z) (r c : nat) (v : float64) :
  (forall i j w, weight i j = Some w -> nonneg w) ->
  contribution weight height width row col max_distance r c = Some v ->
  nonneg v.
Proof.
  intros Hw. unfold contribution. destruct (decide _); [apply Hw | discriminate].
Qed.

Lemma sum_of_squares_nonneg (i j : Z) : 0 <= IZR (i ^ 2 + j ^ 2).
Proof. apply IZR_le. nia. Qed.

Lemma offsets_within (i j max_distance : Z) :
  sqrt (IZR (i ^ 2 + j ^ 2)) <= IZR max_distance ->
  (- max_distance <= i <= max_distance)%Z
  /\ (- max_distance <= j <= max_distance)%Z.
Proof.
  intros H.
  pose proof (sqrt_pos (IZR (i ^ 2 + j ^ 2))) as Hpos.
  assert (Hmd : (0 <= max_distance)%Z) by (apply le_IZR; lra).
  assert (Hsq : (i ^ 2 + j ^ 2 <= max_distance * max_distance)%Z).
  { apply le_IZR. rewrite mult_IZR.
    rewrite <- (sqrt_def (IZR (i ^ 2 + j ^ 2))) by apply sum_of_squares_nonneg.
    nra. }
  nia.
Qed.

Lemma trunc_nonneg (d : R) : 0 <= d -> Py.trunc d = Int_part d.
Proof. intros H. unfold Py.trunc. now destruct (Rle_dec 0 d). Qed.

Lemma Int_part_nonneg (d : R) : 0 <= d -> (0 <= Int_part d)%Z.
Proof.
  intros H. destruct (base_Int_part d) as [_ Hlt].
  assert (-1 < IZR (Int_part d)) by lra.
  assert (IZR (-1) < IZR (Int_part d)) by (simpl; lra).
  apply lt_IZR in H1. lia.
Qed.

Lemma IZR_pow2 (k : Z) : (0 <= k)%Z -> IZR (2 ^ k) = Rpower 2 (IZR k).
Proof.
  intros Hk. rewrite <- (Z2Nat.id k Hk) at 1.
  rewrite <- pow_IZR, <- Rpower_pow by lra.
  now rewrite INR_IZR_INZ, Z2Nat.id.
Qed.

(** find_coldest_spot.py *)

Lemma weight_near (max_distance i j : Z) :
  sqrt (IZR (i ^ 2 + j ^ 2)) <= IZR max_distance ->
  ColdestSpot.weight max_distance i j
  = Some (Fin (1 / Rpower 2 (IZR (Int_part (sqrt (IZR (i ^ 2 + j ^ 2))))))).
Proof.
  intros H. unfold ColdestSpot.weight.
  destruct (Rle_dec _ _); [| contradiction].
  rewrite trunc_nonneg by apply sqrt_pos.
  rewrite IZR_pow2; [reflexivity |]. apply Int_part_nonneg, sqrt_pos.
Qed.

Lemma weight_far (max_distance i j : Z) :
  IZR max_distance < sqrt (IZR (i ^ 2 + j ^ 2)) ->
  ColdestSpot.weight max_distance i j = None.
Proof.
  intros H. unfold ColdestSpot.weight. destruct (Rle_dec _ _); [lra | reflexivity].
Qed.

Lemma weight_nonneg (max_distance i j : Z) (v : float64) :
  ColdestSpot.weight max_distance i j = Some v -> nonneg v.
Proof.
  unfold ColdestSpot.weight. destruct (Rle_dec _ _); [| discriminate].
  intros [= <-]. simpl.
  rewrite trunc_nonneg by apply sqrt_pos.
  rewrite IZR_pow2 by (apply Int_part_nonneg, sqrt_pos).
  unfold Rpower. pose proof (exp_pos (IZR (Int_part (sqrt (IZR (i ^ 2 + j ^ 2)))) * ln 2)).
  left. apply Rdiv_lt_0_compat; lra.
Qed.

(** find_coldest_spot_4.py *)

Lemma weight4_near (unit_size : R) (influence_latlong : R * R) (i j : Z) :
  let influence := Rmax (fst influence_latlong) (snd influence_latlong) in
  0 < unit_size -> 0 < influence ->
  sqrt (IZR (i ^ 2 + j ^ 2)) <= influence / unit_size ->
  ColdestSpot4.weight unit_size influence_latlong i j
  = Some (Fin (Rmax 0 (1 - sqrt (IZR (i ^ 2 + j ^ 2)) / (influence / unit_size)))).
Proof.
  intros influence Hu Hinf Hd. unfold ColdestSpot4.weight, true_divide.
  fold influence. destruct (Req_dec_T influence 0); [lra |].
  set (d := sqrt (IZR (i ^ 2 + j ^ 2))) in *.
  assert (Heq : d / (influence / unit_size) = d * unit_size / influence).
  { field. split; lra. }
  assert (Hle : d * unit_size / influence <= 1).
  { apply (Rmult_le_reg_r influence); [assumption |].
    replace (d * unit_size / influence * influence) with (d * unit_size)
      by (field; lra).
    apply (Rmult_le_compat_r unit_size) in Hd; [| lra].
    replace (influence / unit_size * unit_size) with influence in Hd
      by (field; lra).
    lra. }
  destruct (Rle_dec (d * unit_size / influence) 1); [| contradiction].
  rewrite Heq. do 2 f_equal. unfold Rmax.
  destruct (Rgt_dec (1 - d * unit_size / influence) 0);
    destruct (Rle_dec 0 (1 - d * unit_size / influence)); lra.
Qed.

Lemma weight4_far (unit_size : R) (influence_latlong : R * R) (i j : Z) :
  let influence := Rmax (fst influence_latlong) (snd influence_latlong) in
  0 <= influence ->
  influence < sqrt (IZR (i ^ 2 + j ^ 2)) * unit_size ->
  ColdestSpot4.weight unit_size influence_latlong i j = None.
Proof.
  intros influence Hinf Hd. unfold ColdestSpot4.weight, true_divide.
  fold influence. set (d := sqrt (IZR (i ^ 2 + j ^ 2))) in *.
  destruct (Req_dec_T influence 0) as [H0 | H0].
  - destruct (Rlt_dec 0 (d * unit_size)); [reflexivity | lra].
  - destruct (Rle_dec (d * unit_size / influence) 1) as [Hle | Hle];
      [| reflexivity].
    exfalso. apply (Rmult_le_compat_r influence) in Hle; [| lra].
    replace (d * unit_size / influence * influence) with (d * unit_size) in Hle
      by (field; lra).
    lra.
Qed.

Lemma weight4_nonneg (unit_size : R) (influence_latlong : R * R) (i j : Z)
    (v : float64) :
  ColdestSpot4.weight unit_size influence_latlong i j = Some v -> nonneg v.
Proof.
  unfold ColdestSpot4.weight.
  destruct (true_divide _ _) as [d | | |]; try discriminate.
  - destruct (Rle_dec d 1); [| discriminate]. intros [= <-]. simpl.
    destruct (Rgt_dec (1 - d) 0); lra.
  - intros [= <-]. exact I.
Qed.

Lemma meters_to_latlong_nonneg (destination : R -> coord -> R -> coord)
    (lat lon meters : R) :
  0 <= Rmax (fst (ColdestSpot4.meters_to_latlong destination lat lon meters))
            (snd (ColdestSpot4.meters_to_latlong destination lat lon meters)).
Proof.
  unfold ColdestSpot4.meters_to_latlong. simpl.
  eapply Rle_trans; [apply Rabs_pos | apply Rmax_l].
Qed.

End Weights.

(** ** Accumulated values *)

Section Accumulation.

Lemma add_nonneg (old v : float64) :
  not_below old -> nonneg v -> not_below (add old v) /\ le old (add old v).
Proof.
  destruct old as [a | | |], v as [b | | |]; simpl; try contradiction;
    intros _ H; split; try exact I; lra.
Qed.

Lemma bump_keeps (P : float64 -> Prop) (w : option float64) (o : option float64) :
  (forall old v, w = Some v -> P old -> P (add old v)) ->
  (forall old, o = Some old -> P old) ->
  forall new, bump w o = Some new -> P new.
Proof.
  intros Hw Ho new. destruct w as [v |]; simpl; [| apply Ho].
  destruct o as [old |]; simpl; [| discriminate].
  intros [= <-]. apply (Hw old v eq_refl). now apply Ho.
Qed.

Lemma fold_bump_none {A : Type} (f : A -> option float64) (l : list A)
    (o : option float64) :
  (forall p, In p l -> f p = None) ->
  fold_left (fun old p => bump (f p) old) l o = o.
Proof.
  revert o. induction l as [| p l IH]; intros o H; [reflexivity |].
  simpl. rewrite (H p) by now left. simpl. apply IH.
  intros q Hq. apply H. now right.
Qed.

Lemma fold_bump_not_below {A : Type} (f : A -> option float64) (l : list A) :
  (forall p v, f p = Some v -> nonneg v) ->
  forall o, (forall old, o = Some old -> not_below old) ->
  forall new, fold_left (fun old p => bump (f p) old) l o = Some new ->
  not_below new.
Proof.
  intros Hf. induction l as [| p l IH]; intros o Ho new; [apply Ho |].
  simpl. apply IH. apply bump_keeps; [| exact Ho].
  intros old v Hv Hold. now apply add_nonneg; [| apply (Hf p)].
Qed.

Lemma bump_le (w : option float64) (o : option float64) (old : float64) :
  (forall v, w = Some v -> nonneg v) ->
  o = Some old -> not_below old ->
  exists new, bump w o = Some new /\ le old new.
Proof.
  intros Hw -> Hold. destruct w as [v |]; simpl.
  - eexists. split; [reflexivity |]. now apply add_nonneg; [| apply Hw].
  - exists old. split; [reflexivity |].
    destruct old; simpl in *; try contradiction; try exact I. lra.
Qed.

Lemma combine_snoc {A B : Type} (l : list A) (l' : list B) (a : A) (b : B) :
  exists q, combine (l ++ [a]) (l' ++ [b]) = combine l l' ++ [q].
Proof.
  revert l'. induction l as [| x l IH]; intros [| y l'].
  - now exists (a, b).
  - now exists (a, y).
  - exists (x, b). simpl. now destruct (l ++ [a]).
  - destruct (IH l') as [q Hq]. exists q. simpl. now rewrite Hq.
Qed.

Lemma zeros_spec (h w : Z) (grid : ndarray) :
  zeros h w = Py.Ok grid ->
  (forall r c v, cell grid r c = Some v -> v = Fin 0)
  /\ (forall r c, (Z.of_nat r < h)%Z -> (Z.of_nat c < w)%Z ->
        cell grid r c = Some (Fin 0)
        /\ (Z.of_nat r < fst (shape grid))%Z
        /\ (Z.of_nat c < snd (shape grid))%Z).
Proof.
  unfold zeros. destruct ((h <? 0) || (w <? 0))%Z eqn:Hneg; [discriminate |].
  apply orb_false_iff in Hneg as [Hh Hw].
  apply Z.ltb_ge in Hh, Hw. intros [= <-]. split.
  - intros r c v. unfold cell.
    destruct (replicate (Z.to_nat h) _ !! r) as [row |] eqn:Hrow; [| discriminate].
    apply lookup_replicate in Hrow as [-> _]. simpl.
    intros Hc. now apply lookup_replicate in Hc as [-> _].
  - intros r c Hr Hc. split; [| split].
    + unfold cell. rewrite lookup_replicate_2 by lia. simpl.
      apply lookup_replicate_2. lia.
    + simpl. rewrite length_replicate. lia.
    + simpl. destruct (Z.to_nat h) eqn:Hz; [lia |]. simpl.
      rewrite length_replicate. lia.
Qed.

End Accumulation.

(** ** The claims about the grid *)

Section SinglePoint.

Lemma apply_single (weight : Z -> Z -> option float64) (grid : ndarray)
    (lat lon lat_min lon_min unit_size : R) (max_distance row col : Z) :
  unit_size <> 0 ->
  cell_of lat_min lon_min unit_size (lat, lon) = (row, col) ->
  exists grid',
    apply_points weight grid [lat] [lon] lat_min lon_min unit_size max_distance
      = Py.Ok grid'
    /\ forall r c, cell grid' r c
         = bump (contribution weight (fst (shape grid)) (snd (shape grid))
                              row col max_distance r c)
                (cell grid r c).
Proof.
  intros Hu Hcell.
  destruct (apply_points_spec weight lat_min lon_min unit_size max_distance
              grid [lat] [lon] Hu) as (grid' & Hrun & _ & Hval).
  exists grid'. split; [exact Hrun |].
  intros r c. rewrite Hval. simpl. unfold contribution_of. now rewrite Hcell.
Qed.

Lemma single_point_inverse_exponential (grid : ndarray)
    (lat lon lat_min lon_min unit_size : R) (max_distance row col : Z)
    (r c : nat) :
  unit_size <> 0 ->
  cell_of lat_min lon_min unit_size (lat, lon) = (row, col) ->
  (Z.of_nat r < fst (shape grid))%Z -> (Z.of_nat c < snd (shape grid))%Z ->
  cell_distance r c row col <= IZR max_distance ->
  exists grid',
    ColdestSpot.apply_points_to_grid grid [lat] [lon] lat_min lon_min
      unit_size max_distance = Py.Ok grid'
    /\ cell grid' r c
       = (fun old => add old
            (Fin (1 / Rpower 2 (IZR (Int_part (cell_distance r c row col))))))
         <$> cell grid r c.
Proof.
  intros Hu Hcell Hr Hc Hd. unfold ColdestSpot.apply_points_to_grid.
  destruct (apply_single (ColdestSpot.weight max_distance) grid lat lon
              lat_min lon_min unit_size max_distance row col Hu Hcell)
    as (grid' & Hrun & Hval).
  exists grid'. split; [exact Hrun |].
  rewrite Hval. destruct (offsets_within _ _ _ Hd) as [Hi Hj].
  rewrite contribution_in_window by assumption.
  now rewrite weight_near.
Qed.

Lemma single_point_linear (destination : R -> coord -> R -> coord)
    (grid : ndarray) (lat lon lat_min lon_min unit_size influence_meters : R)
    (max_distance_cells row col : Z) (r c : nat) :
  let influence_latlong :=
    ColdestSpot4.meters_to_latlong destination lat_min lon_min influence_meters in
  let influence := Rmax (fst influence_latlong) (snd influence_latlong) in
  0 < unit_size -> 0 < influence ->
  cell_of lat_min lon_min unit_size (lat, lon) = (row, col) ->
  (Z.of_nat r < fst (shape grid))%Z -> (Z.of_nat c < snd (shape grid))%Z ->
  (- max_distance_cells <= Z.of_nat r - row <= max_distance_cells)%Z ->
  (- max_distance_cells <= Z.of_nat c - col <= max_distance_cells)%Z ->
  cell_distance r c row col <= influence / unit_size ->
  exists grid',
    ColdestSpot4.apply_points_to_grid destination grid [lat] [lon]
      lat_min lon_min unit_size influence_meters max_distance_cells
      = Py.Ok grid'
    /\ cell grid' r c
       = (fun old => add old
            (Fin (Rmax 0 (1 - cell_distance r c row col / (influence / unit_size)))))
         <$> cell grid r c.
Proof.
  intros ill influence Hu Hinf Hcell Hr Hc Hi Hj Hd.
  unfold ColdestSpot4.apply_points_to_grid. fold ill.
  destruct (apply_single (ColdestSpot4.weight unit_size ill) grid lat lon
              lat_min lon_min unit_size max_distance_cells row col)
    as (grid' & Hrun & Hval); [lra | exact Hcell |].
  exists grid'. split; [exact Hrun |].
  rewrite Hval, contribution_in_window by assumption.
  now rewrite weight4_near.
Qed.

Lemma trunc_0 : Py.trunc 0 = 0%Z.
Proof.
  rewrite trunc_nonneg by lra. symmetry. apply Int_part_spec. simpl. lra.
Qed.

Lemma cell_of_origin : cell_of 0 0 1 (0, 0) = (0, 0)%Z.
Proof.
  unfold cell_of. simpl. replace ((0 - 0) / 1) with 0 by lra.
  now rewrite trunc_0.
Qed.

Lemma sqrt_2_bounds : 1 < sqrt 2 < 2.
Proof.
  split.
  - rewrite <- sqrt_1 at 1. apply sqrt_lt_1; lra.
  - replace 2 with (sqrt (2 * 2)) at 2 by (apply sqrt_square; lra).
    apply sqrt_lt_1; lra.
Qed.

Lemma diagonal_distance : cell_distance 1 1 0 0 = sqrt 2.
Proof. unfold cell_distance. simpl. reflexivity. Qed.

Lemma Int_part_sqrt_2 : Int_part (sqrt 2) = 1%Z.
Proof. symmetry. apply Int_part_spec. pose proof sqrt_2_bounds. simpl. lra. Qed.

End SinglePoint.






Section Monotone.

Variable weight : Z -> Z -> option float64.
Hypothesis weight_is_nonneg : forall i j v, weight i j = Some v -> nonneg v.

Lemma apply_points_monotone (grid : ndarray) (latitudes longitudes : list R)
    (lat lon lat_min lon_min unit_size : R) (max_distance : Z) :
  unit_size <> 0 ->
  (forall r c v, cell grid r c = Some v -> not_below v) ->
  exists g1 g2,
    apply_points weight grid latitudes longitudes lat_min lon_min unit_size
                 max_distance = Py.Ok g1
    /\ apply_points weight grid (latitudes ++ [lat]) (longitudes ++ [lon])
                    lat_min lon_min unit_size max_distance = Py.Ok g2
    /\ forall r c v1, cell g1 r c = Some v1 ->
         exists v2, cell g2 r c = Some v2 /\ le v1 v2.
Proof.
  intros Hu Hgrid.
  destruct (apply_points_spec weight lat_min lon_min unit_size max_distance
              grid latitudes longitudes Hu) as (g1 & Hrun1 & _ & Hval1).
  destruct (apply_points_spec weight lat_min lon_min unit_size max_distance
              grid (latitudes ++ [lat]) (longitudes ++ [lon]) Hu)
    as (g2 & Hrun2 & _ & Hval2).
  exists g1, g2. split; [exact Hrun1 |]. split; [exact Hrun2 |].
  intros r c v1 Hv1.
  destruct (combine_snoc latitudes longitudes lat lon) as [q Hq].
  rewrite Hval2, Hq, fold_left_app. simpl.
  rewrite <- Hval1.
  apply bump_le; [| exact Hv1 |].
  - intros v Hv. unfold contribution_of in Hv.
    destruct (cell_of lat_min lon_min unit_size q) as [row col].
    eapply contribution_nonneg; [exact weight_is_nonneg | exact Hv].
  - rewrite Hval1 in Hv1.
    eapply fold_bump_not_below; [| apply (Hgrid r c) | exact Hv1].
    intros p v Hv. unfold contribution_of in Hv.
    destruct (cell_of lat_min lon_min unit_size p) as [row col].
    eapply contribution_nonneg; [exact weight_is_nonneg | exact Hv].
Qed.

End Monotone.

(** C5.  Accumulation is monotone.  Every contribution of a point is at
    least 0; hence, from an array whose cells are finite or [inf] (such as
    the zero array of [create_grid]), accumulating a point set with one more
    point appended leaves every cell at least as large as accumulating the
    point set itself, in both scripts. *)
Theorem accumulation_is_monotone
    (destination : R -> coord -> R -> coord) (grid : ndarray)
    (latitudes longitudes : list R)
    (lat lon lat_min lon_min unit_size influence_meters : R)
    (max_distance : Z) :
  let influence_latlong :=
    ColdestSpot4.meters_to_latlong destination lat_min lon_min influence_meters in
  unit_size <> 0 ->
  (forall r c v, cell grid r c = Some v -> not_below v) ->
  ((forall i j v, ColdestSpot.weight max_distance i j = Some v -> nonneg v)
   /\ exists g1 g2,
        ColdestSpot.apply_points_to_grid grid latitudes longitudes
          lat_min lon_min unit_size max_distance = Py.Ok g1
        /\ ColdestSpot.apply_points_to_grid grid
             (latitudes ++ [lat]) (longitudes ++ [lon])
             lat_min lon_min unit_size max_distance = Py.Ok g2
        /\ forall r c v1, cell g1 r c = Some v1 ->
             exists v2, cell g2 r c = Some v2 /\ le v1 v2)
  /\ ((forall i j v,
         ColdestSpot4.weight unit_size influence_latlong i j = Some v ->
         nonneg v)
      /\ exists g1 g2,
           ColdestSpot4.apply_points_to_grid destination grid
             latitudes longitudes
             lat_min lon_min unit_size influence_meters max_distance = Py.Ok g1
           /\ ColdestSpot4.apply_points_to_grid destination grid
                (latitudes ++ [lat]) (longitudes ++ [lon])
                lat_min lon_min unit_size influence_meters max_distance
              = Py.Ok g2
           /\ forall r c v1, cell g1 r c = Some v1 ->
                exists v2, cell g2 r c = Some v2 /\ le v1 v2).
Proof.
  intros ill Hu Hgrid. split; split.
  - apply weight_nonneg.
  - apply apply_points_monotone; try assumption.
    intros i j v. apply weight_nonneg.
  - apply weight4_nonneg.
  - apply apply_points_monotone; try assumption.
    intros i j v. apply weight4_nonneg.
Qed.

Lemma zeros_2x2_not_below :
  forall r c v, cell zeros_2x2 r c = Some v -> not_below v.
Proof.
  intros r c v H.
  destruct (zeros_spec 2 2 zeros_2x2 eq_refl) as [Hall _].
  now rewrite (Hall r c v H).
Qed.

Lemma accumulation_is_monotone_witness :
  exists g1 g2,
    ColdestSpot.apply_points_to_grid zeros_2x2 [0] [0] 0 0 1 10 = Py.Ok g1
    /\ ColdestSpot.apply_points_to_grid zeros_2x2 ([0] ++ [1]) ([0] ++ [1])
         0 0 1 10 = Py.Ok g2
    /\ forall r c v1, cell g1 r c = Some v1 ->
         exists v2, cell g2 r c = Some v2 /\ le v1 v2.
Proof.
  refine (proj2 (proj1 (accumulation_is_monotone due_north zeros_2x2 [0] [0]
                          1 1 0 0 1 0 10 _ zeros_2x2_not_below))).
  lra.
Defined.



(** ** The radius sweeps *)

Section SweepLoop.

Context {solver_state : Type}.

Lemma hundredths_eq (a b : Q) :
  hundredths a -> hundredths b -> Qeq_bool a b = true -> a = b.
Proof.
  intros [za ->] [zb ->] H. apply Qeq_bool_iff in H.
  unfold Qeq in H. simpl in H. f_equal. lia.
Qed.

Lemma round2_hundredths (q : Q) : hundredths (round2 q).
Proof. now exists (round_half_even (q * 100)). Qed.

Lemma dict_set_keys {V : Type} (k : Q) (v : V) (d : dict V) :
  hundredths k -> (forall k', In k' (map fst d) -> hundredths k') ->
  forall q, In q (map fst (dict_set k v d)) <-> q = k \/ In q (map fst d).
Proof.
  intros Hk. induction d as [| [k' v'] d IH]; intros Hd q; simpl.
  - split; [intros [<- | []]; now left | intros [-> | []]; now left].
  - destruct (Qeq_bool k' k) eqn:Heq; simpl.
    + apply hundredths_eq in Heq; [| apply Hd; now left | exact Hk].
      subst k'. intuition congruence.
    + rewrite IH by (intros k0 H0; apply Hd; now right). intuition congruence.
Qed.

Lemma dict_set_entries {V : Type} (k : Q) (v : V) (d : dict V) :
  hundredths k -> (forall k', In k' (map fst d) -> hundredths k') ->
  forall q u, In (q, u) (dict_set k v d) -> (q = k /\ u = v) \/ In (q, u) d.
Proof.
  intros Hk. induction d as [| [k' v'] d IH]; intros Hd q u; simpl.
  - intros [[= <- <-] | []]. now left.
  - destruct (Qeq_bool k' k) eqn:Heq; simpl.
    + apply hundredths_eq in Heq; [| apply Hd; now left | exact Hk].
      subst k'. intros [[= <- <-] | H]; [now left | right; now right].
    + intros [H | H]; [right; now left |].
      destruct (IH (fun k0 H0 => Hd k0 (or_intror H0)) q u H) as [H1 | H1];
        [now left | right; now right].
Qed.

Lemma consistent_start (s : solver_state) : consistent (sweep_start s).
Proof.
  split; [| split; [| split]]; simpl.
  - intros k [].
  - intros k. split; [intros [] | intros (result & [] & _)].
  - intros k v [].
  - reflexivity.
Qed.

Lemma iteration_consistent (radius : Q) (result : OptimizeResult)
    (st st' : sweep_state solver_state) :
  iteration radius result st st' -> consistent st -> consistent st'.
Proof.
  intros (Hopt & Hout & Hsol) (Hhun & Hkeys & Hvals & Hprint).
  assert (Hdict : forall k, In k (map fst (optimal_points st)) -> hundredths k).
  { intros k Hk. apply Hkeys in Hk as (res & Hin & _).
    apply Hhun. change k with (fst (k, res)). now apply in_map. }
  split; [| split; [| split]].
  - intros k. rewrite Hsol, map_app, in_app_iff. simpl.
    intros [Hk | [<- | []]]; [now apply Hhun | apply round2_hundredths].
  - intros k. rewrite Hopt, Hsol. destruct (success result) eqn:Hsucc.
    + rewrite dict_set_keys by (apply round2_hundredths || exact Hdict).
      rewrite Hkeys. split.
      * intros [-> | (res & Hin & Hres)].
        -- exists result. split; [apply in_or_app; right; now left | exact Hsucc].
        -- exists res. split; [apply in_or_app; now left | exact Hres].
      * intros (res & Hin & Hres). apply in_app_or in Hin as [Hin | [[= <- <-] | []]].
        -- right. now exists res.
        -- now left.
    + rewrite Hkeys. split.
      * intros (res & Hin & Hres). exists res.
        split; [apply in_or_app; now left | exact Hres].
      * intros (res & Hin & Hres). apply in_app_or in Hin as [Hin | [[= <- <-] | []]].
        -- now exists res.
        -- congruence.
  - intros k v. rewrite Hopt, Hsol. destruct (success result) eqn:Hsucc.
    + intros Hin.
      apply dict_set_entries in Hin as [[-> ->] | Hin];
        [| | apply round2_hundredths | exact Hdict].
      * exists result. split; [apply in_or_app; right; now left |]. now split.
      * destruct (Hvals k v Hin) as (res & Hres & Hs & Hx).
        exists res. split; [apply in_or_app; now left |]. now split.
    + intros Hin. destruct (Hvals k v Hin) as (res & Hres & Hs & Hx).
      exists res. split; [apply in_or_app; now left |]. now split.
  - rewrite Hout, Hsol, List.filter_app, map_app, <- Hprint. simpl.
    destruct (success result); simpl; [now rewrite app_nil_r | reflexivity].
Qed.

Variable body : sweep_state solver_state -> Q -> Py.result (sweep_state solver_state).

Hypothesis body_iterates :
  forall st radius, exists st' result,
    body st radius = Py.Ok st' /\ iteration radius result st st'.

Lemma loop_runs_to_the_end (radii : list Q) :
  forall st, consistent st ->
  exists st', Py.for_each body radii st = Py.Ok st'
    /\ consistent st'
    /\ map fst (solved st') = map fst (solved st) ++ map round2 radii.
Proof.
  induction radii as [| radius radii IH]; intros st Hst.
  - exists st. split; [reflexivity |]. split; [exact Hst |].
    simpl. now rewrite app_nil_r.
  - destruct (body_iterates st radius) as (st1 & result & Hrun & Hit).
    destruct (IH st1 (iteration_consistent _ _ _ _ Hit Hst))
      as (st2 & Hrun2 & Hst2 & Hsol2).
    exists st2. split; [| split; [exact Hst2 |]].
    + simpl. rewrite Hrun. exact Hrun2.
    + rewrite Hsol2. destruct Hit as (_ & _ & ->).
      rewrite map_app. simpl. now rewrite <- app_assoc.
Qed.

Lemma loop_sweeps (radii : list Q) (s : solver_state) :
  exists st, Py.for_each body radii (sweep_start s) = Py.Ok st /\ swept radii st.
Proof.
  destruct (loop_runs_to_the_end radii (sweep_start s) (consistent_start s))
    as (st & Hrun & (_ & Hkeys & Hvals & Hprint) & Hsol).
  exists st. split; [exact Hrun |]. split; [exact Hsol |].
  split; [exact Hkeys |]. split; assumption.
Qed.

End SweepLoop.

Section Sweeps.

Context {fl : Float64} {solver_state : Type}.

Example round2_ties_to_even :
  round2 (1005 # 1000) = (100 # 100)%Q /\ round2 (1015 # 1000) = (102 # 100)%Q.
Proof. split; reflexivity. Qed.

Example arange_of_the_default_sweep :
  exists radii,
    arange 11 (17 + (1 # 2))%Q (1 # 2) = Py.Ok radii
    /\ length radii = 13%nat
    /\ map round2 radii
       = map (fun k => (k # 100)%Q)
             [1100; 1150; 1200; 1250; 1300; 1350; 1400; 1450; 1500; 1550;
              1600; 1650; 1700]%Z.
Proof. eexists. split; [reflexivity |]. split; reflexivity. Qed.

Lemma arange_nonzero_step (start stop step : Q) :
  Qeq_bool step 0 = false ->
  exists radii, arange start stop step = Py.Ok radii.
Proof. intros H. unfold arange. rewrite H. eexists. reflexivity. Qed.

Lemma optimal_point_total (points : list coord) (center : coord) (radius : R) :
  points <> [] ->
  forall x, exists v,
    OptimalPoint.objective_function x points center radius = Py.Ok v.
Proof.
  intros Hne x. destruct points as [| p0 rest]; [congruence |].
  destruct (gtb (haversine x center) (Fin radius)) eqn:Hout.
  - eexists. now apply optimal_point_outside.
  - rewrite optimal_point_inside by exact Hout. eexists. reflexivity.
Qed.

Lemma pure_radius_total (points : list coord) (center : coord) (radius : R) :
  forall x, exists v,
    PureRadiusDx.objective_function x points center radius = Py.Ok v.
Proof.
  intros x. unfold PureRadiusDx.objective_function.
  destruct (gtb (haversine x center) (Fin radius)); eexists; reflexivity.
Qed.

Lemma optimal_point_sweep
    (minimize : (coord -> Py.result float64) -> coord -> list (R * R) ->
                solver_state -> Py.result OptimizeResult * solver_state)
    (points : list coord) (center : coord) (radius_range : Q * Q) (step : Q)
    (s : solver_state) (radii : list Q) :
  (forall radius bounds s0, exists result s',
     minimize (fun x => OptimalPoint.objective_function x points center
                          (Q2R (round2 radius)))
              center bounds s0 = (Py.Ok result, s')) ->
  arange (fst radius_range) (snd radius_range + step)%Q step = Py.Ok radii ->
  exists st,
    OptimalPoint.precompute_optimal_points minimize points center
      radius_range step s = Py.Ok st
    /\ swept radii st.
Proof.
  intros Hsolve Hradii. unfold OptimalPoint.precompute_optimal_points.
  rewrite Hradii. simpl. apply loop_sweeps.
  intros st radius.
  destruct (Hsolve radius
              [(fst center - 10, fst center + 10);
               (snd center - 10, snd center + 10)] (solver st))
    as (result & s' & Hrun).
  rewrite Hrun. simpl.
  destruct (success result) eqn:Hsucc; eexists; exists result;
    (split; [reflexivity |]); unfold iteration; simpl; rewrite Hsucc; auto.
Qed.

Lemma pure_radius_sweep
    (differential_evolution :
       (coord -> Py.result float64) -> list (R * R) -> solver_state ->
       Py.result OptimizeResult * solver_state)
    (points : list coord) (center : coord) (radius_range : Q * Q) (step : Q)
    (s : solver_state) (radii : list Q) :
  (forall radius bounds s0, exists result s',
     differential_evolution
       (fun x => PureRadiusDx.objective_function x points center
                   (Q2R (round2 radius)))
       bounds s0 = (Py.Ok result, s')) ->
  arange (fst radius_range) (snd radius_range + step)%Q step = Py.Ok radii ->
  exists st,
    PureRadiusDx.precompute_optimal_points differential_evolution points center
      radius_range step s = Py.Ok st
    /\ swept radii st.
Proof.
  intros Hsolve Hradii. unfold PureRadiusDx.precompute_optimal_points.
  rewrite Hradii. simpl. apply loop_sweeps.
  intros st radius.
  destruct (Hsolve radius
              [(fst center - 0.5, fst center + 0.5);
               (snd center - 0.5, snd center + 0.5)] (solver st))
    as (result & s' & Hrun).
  rewrite Hrun. simpl.
  destruct (success result) eqn:Hsucc; eexists; exists result;
    (split; [reflexivity |]); unfold iteration; simpl; rewrite Hsucc; auto.
Qed.

End Sweeps.



(** ** An empty point set *)

Section EmptyPointSet.

Context {fl : Float64} {solver_state : Type}.

Variable minimize :
  (coord -> Py.result float64) -> coord -> list (R * R) -> solver_state ->
  Py.result OptimizeResult * solver_state.

(** A sweep over one radius, with no point: what it raises is what the one
    call of the optimizer raises. *)
Lemma one_radius_sweep_raises (center : coord) (radius : Q) (s : solver_state)
    (e : Py.exn) :
  Py.for_each
    (fun st radius =>
       let radius := round2 radius in
       let initial_guess := center in
       let bounds := [(fst center - 10, fst center + 10);
                      (snd center - 10, snd center + 10)] in
       let '(result, solver') :=
         minimize (fun x => OptimalPoint.objective_function x [] center
                              (Q2R radius))
                  initial_guess bounds (solver st) in
       result ← result;
       if success result then
         Py.Ok {| optimal_points :=
                    dict_set radius (x result) (optimal_points st);
                  stdout := stdout st;
                  csv_file := csv_file st;
                  solver := solver';
                  solved := solved st ++ [(radius, result)] |}
       else
         Py.Ok {| optimal_points := optimal_points st;
                  stdout := stdout st
                            ++ [OptimizationFailed radius (message result)];
                  csv_file := csv_file st;
                  solver := solver';
                  solved := solved st ++ [(radius, result)] |})
    [radius] (sweep_start s)
  = Py.Raise e
  <-> fst (minimize (fun x => OptimalPoint.objective_function x [] center
                                (Q2R (round2 radius)))
                    center
                    [(fst center - 10, fst center + 10);
                     (snd center - 10, snd center + 10)] s)
      = Py.Raise e.
Proof.
  cbn [Py.for_each sweep_start solver].
  destruct (minimize _ _ _ _) as [[result | e'] s']; cbn [fst].
  - unfold mbind, result_bind. cbn [Py.bind].
    destruct (success result); cbn [Py.bind]; split; discriminate.
  - unfold mbind, result_bind. cbn [Py.bind].
    split; intros [= ->]; reflexivity.
Qed.

End EmptyPointSet.



(** * Further properties of the scripts *)

(** ** Distances *)

(** X1.  [haversine] returns a distance that is not negative, or [nan];
    never [inf] or [-inf].  It returns [nan] exactly when the rounded [a]
    is below 0 or the rounded [1 - a] is: when one of the two [np.sqrt] is
    taken of a negative number. *)
Theorem haversine_is_nan_or_not_negative {fl : Float64} (p q : coord) :
  distance_value (haversine p q)
  /\ (haversine p q = NaN
      <-> hav_a p q < 0 \/ rnd (1 - hav_a p q) < 0).
Proof.
  split; [apply haversine_distance |].
  destruct (haversine_result p q) as [[Hneg Hnan] | [Hpos (d & Hd & _)]].
  - split; [intros _; exact Hneg | intros _; exact Hnan].
  - split; [intros Hnan; rewrite Hd in Hnan; discriminate | lra].
Qed.

(** ** The objectives *)

(** X2.  The inverse-distance objectives never raise, and never return
    [-inf] or a negative number.  That of optimal_point_pure_radius_dx.py
    returns a value above 0 or [inf], unless the distance to a point or to
    the center is [nan]: then it can return [nan].  That of
    point_by_geography.py returns a value of at least 0 or [inf], unless
    the distance to a point is [nan]. *)
Theorem inverse_distance_objectives_are_well_defined {fl : Float64}
    (x center : coord) (points : list coord) (radius : R)
    (boundary : Geometry) :
  (exists v, PureRadiusDx.objective_function x points center radius = Py.Ok v
     /\ (positive v
         \/ (v = NaN
             /\ exists p, (p = center \/ In p points)
                          /\ haversine x p = NaN)))
  /\ (exists v, PointByGeography.objective_function x points boundary = Py.Ok v
        /\ (nonneg v
            \/ (v = NaN /\ exists p, In p points /\ haversine x p = NaN))).
Proof.
  split.
  - destruct (gtb (haversine x center) (Fin radius)) eqn:Hout.
    + rewrite pure_radius_outside by exact Hout.
      eexists. split; [reflexivity |]. left. simpl. lra.
    + rewrite pure_radius_inside by exact Hout.
      eexists. split; [reflexivity |]. unfold NumPy.sum.
      destruct (weights_nan_or_positive x points) as [(p & Hp & Hnan) | Hall].
      * right. split; [| exists p; split; [now right | exact Hnan]].
        apply fold_add_nan, in_or_app. left.
        apply in_map_iff. exists NaN. split; [reflexivity |].
        rewrite <- Hnan. now apply in_map.
      * destruct (boundary_weight x center radius) as [[Hnan Hw] | [_ Hw]].
        -- right. split; [| exists center; split; [now left | exact Hnan]].
           apply fold_add_nan, in_or_app. right. left. exact Hw.
        -- left. apply fold_add_positive.
           ++ apply Forall_app. split; [exact Hall |].
              constructor; [exact Hw | constructor].
           ++ simpl. lra.
           ++ now destruct (map _ (map _ points)).
  - destruct (contains boundary (fst x, snd x)) eqn:Hin.
    + rewrite by_geography_inside by exact Hin.
      eexists. split; [reflexivity |]. unfold NumPy.sum.
      destruct (weights_nan_or_positive x points) as [(p & Hp & Hnan) | Hall].
      * right. split; [| exists p; split; [exact Hp | exact Hnan]].
        apply fold_add_nan.
        apply in_map_iff. exists NaN. split; [reflexivity |].
        rewrite <- Hnan. now apply in_map.
      * left. apply fold_add_positive; [exact Hall | simpl; lra].
    + rewrite by_geography_outside by exact Hin.
      eexists. split; [reflexivity |]. left. simpl. lra.
Qed.

(** X3.  In optimal_point_pure_radius_dx.py a candidate exactly on the
    bounding circle is not penalised as outside; its boundary term divides
    by zero, and the objective returns [inf], or [nan] when the distance to
    one of the points is [nan]. *)
Theorem candidate_on_the_circle_scores_inf {fl : Float64}
    (x center : coord) (points : list coord) (radius : R) :
  haversine x center = Fin radius ->
  PureRadiusDx.objective_function x points center radius
  = Py.Ok (if existsb isnan (map (haversine x) points) then NaN else PInf).
Proof.
  intros H.
  rewrite pure_radius_inside by (rewrite H; apply gtb_fin_false; lra).
  rewrite H. cbn [rsub neg add abs].
  replace (radius + - radius) with 0 by lra.
  rewrite Rabs_R0, rtruediv_1_zero. f_equal. unfold NumPy.sum.
  destruct (existsb isnan (map (haversine x) points)) eqn:Hnan.
  - apply existsb_exists in Hnan as (v & Hv & Hisnan).
    destruct v; try discriminate.
    apply fold_add_nan, in_or_app. left.
    apply in_map_iff. exists NaN. now split.
  - destruct (weights_nan_or_positive x points) as [(p & Hp & Hp_nan) | Hall].
    + assert (Hsome : existsb isnan (map (haversine x) points) = true).
      { apply existsb_exists. exists NaN. split; [| reflexivity].
        rewrite <- Hp_nan. now apply in_map. }
      congruence.
    + apply fold_add_reaches_pinf.
      * apply Forall_app. split.
        -- eapply Forall_impl; [exact Hall |]. apply positive_not_below.
        -- constructor; [exact I | constructor].
      * apply in_or_app. right. now left.
Qed.

Lemma candidate_on_the_circle_scores_inf_witness :
  haversine (fl := exact_arithmetic) antipode origin = Fin (6371 * PI)
  /\ PureRadiusDx.objective_function (fl := exact_arithmetic)
       antipode [origin] origin (6371 * PI)
     = Py.Ok PInf.
Proof.
  assert (H : haversine (fl := exact_arithmetic) antipode origin
              = Fin (6371 * PI)).
  { rewrite haversine_sym. exact haversine_origin_antipode. }
  split; [exact H |].
  rewrite (candidate_on_the_circle_scores_inf (fl := exact_arithmetic)
             antipode origin [origin] (6371 * PI) H).
  cbn [map existsb]. rewrite H. reflexivity.
Defined.

(** X4.  For a candidate that the test [haversine(x, center) > radius]
    does not find outside and a non-empty point set, the objective of
    optimal_point.py returns [nan] when the distance to the first point is
    [nan]; otherwise it returns minus the least distance to a point, the
    points at a [nan] distance left aside.  The objective of
    optimal_point_2.py returns the same for a candidate on public land. *)
Theorem min_distance_objectives_return_nearest_distance {fl : Float64}
    (x center p0 : coord) (rest : list coord) (radius : R)
    (polygons : list Geometry) :
  gtb (haversine x center) (Fin radius) = false ->
  (haversine x p0 = NaN ->
     OptimalPoint.objective_function x (p0 :: rest) center radius
     = Py.Ok NaN)
  /\ (haversine x p0 <> NaN ->
      exists p d, In p (p0 :: rest) /\ haversine x p = Fin d
        /\ OptimalPoint.objective_function x (p0 :: rest) center radius
           = Py.Ok (Fin (- d))
        /\ forall q dq, In q (p0 :: rest) -> haversine x q = Fin dq ->
                        d <= dq)
  /\ (existsb (fun polygon => contains polygon (snd x, fst x)) polygons = true ->
      OptimalPoint2.objective_function x (p0 :: rest) center radius polygons
      = OptimalPoint.objective_function x (p0 :: rest) center radius).
Proof.
  intros Hin. rewrite optimal_point_inside by exact Hin.
  split; [| split].
  - intros Hnan.
    destruct (min_distance_value x p0 rest) as [[_ H] | [H _]];
      [exact H | contradiction].
  - intros Hfin.
    destruct (min_distance_value x p0 rest)
      as [[H _] | (_ & p & d & Hp & Hd & _ & Hval & Hleast)];
      [contradiction |].
    exists p, d. repeat split; assumption.
  - intros Hland. now apply on_public_land_inside.
Qed.

Lemma min_distance_objectives_return_nearest_distance_witness :
  gtb (haversine (fl := exact_arithmetic) origin origin) (Fin 1) = false
  /\ haversine (fl := exact_arithmetic) origin antipode <> NaN
  /\ exists p d, In p [antipode; origin]
       /\ haversine (fl := exact_arithmetic) origin p = Fin d
       /\ OptimalPoint.objective_function (fl := exact_arithmetic)
            origin [antipode; origin] origin 1
          = Py.Ok (Fin (- d))
       /\ forall q dq, In q [antipode; origin] ->
            haversine (fl := exact_arithmetic) origin q = Fin dq -> d <= dq.
Proof.
  assert (H : haversine (fl := exact_arithmetic) origin antipode <> NaN).
  { rewrite haversine_origin_antipode. discriminate. }
  split; [exact origin_is_inside |]. split; [exact H |].
  exact (proj1 (proj2 (min_distance_objectives_return_nearest_distance
                         (fl := exact_arithmetic)
                         origin origin antipode [origin] 1 []
                         origin_is_inside)) H).
Defined.

(** X5.  In optimal_point.py a candidate that is not found outside the
    circle and coincides with an input point scores exactly what every
    candidate found outside scores (0), when none of its distances to the
    points is [nan]: the objective cannot tell the two apart. *)
Theorem coincident_candidate_ties_with_outside {fl : Float64}
    (x y center : coord) (points : list coord) (radius : R) :
  In x points ->
  (forall p, In p points -> haversine x p <> NaN) ->
  gtb (haversine x center) (Fin radius) = false ->
  gtb (haversine y center) (Fin radius) = true ->
  OptimalPoint.objective_function x points center radius = Py.Ok (Fin 0)
  /\ OptimalPoint.objective_function y points center radius = Py.Ok (Fin 0).
Proof.
  intros Hx Hnan Hin Hout. split; [| now apply optimal_point_outside].
  rewrite optimal_point_inside by exact Hin.
  destruct (min_distance_nonpositive x points) as (p & d & _ & _ & Hd & -> & Hle);
    [intros ->; destruct Hx | exact Hnan |].
  specialize (Hle x 0 Hx (haversine_refl x)).
  replace d with 0 by lra. now rewrite Ropp_0.
Qed.

Lemma coincident_candidate_ties_with_outside_witness :
  OptimalPoint.objective_function (fl := exact_arithmetic)
    origin [origin; antipode] origin 1 = Py.Ok (Fin 0)
  /\ OptimalPoint.objective_function (fl := exact_arithmetic)
       antipode [origin; antipode] origin 1
     = Py.Ok (Fin 0).
Proof.
  refine (coincident_candidate_ties_with_outside (fl := exact_arithmetic)
            origin antipode origin [origin; antipode] 1 _ _
            origin_is_inside antipode_is_outside).
  - now left.
  - intros p [<- | [<- | []]].
    + rewrite haversine_refl. discriminate.
    + rewrite haversine_origin_antipode. discriminate.
Defined.

(** X6.  In optimal_point_2.py, for a non-empty point set, a candidate on
    public land that is not found outside the circle, and none of whose
    distances to the points is [nan], scores a finite value strictly below
    a candidate that is off public land or found outside the circle. *)
Theorem feasible_beats_penalised_on_public_land {fl : Float64}
    (x y center : coord) (points : list coord) (radius : R)
    (polygons : list Geometry) :
  points <> [] ->
  (forall p, In p points -> haversine x p <> NaN) ->
  existsb (fun polygon => contains polygon (snd x, fst x)) polygons = true ->
  gtb (haversine x center) (Fin radius) = false ->
  existsb (fun polygon => contains polygon (snd y, fst y)) polygons = false
  \/ gtb (haversine y center) (Fin radius) = true ->
  exists vx vy,
    OptimalPoint2.objective_function x points center radius polygons
      = Py.Ok (Fin vx)
    /\ OptimalPoint2.objective_function y points center radius polygons
       = Py.Ok (Fin vy)
    /\ vx < vy.
Proof.
  intros Hne Hnan Hland Hin Hy.
  destruct (min_distance_nonpositive x points Hne Hnan)
    as (p & d & _ & _ & Hd & Hval & _).
  exists (- d), 1000. split; [| split].
  - now rewrite on_public_land_inside.
  - now apply on_public_land_outside.
  - lra.
Qed.

Lemma feasible_beats_penalised_on_public_land_witness :
  exists vx vy,
    OptimalPoint2.objective_function (fl := exact_arithmetic)
      origin [antipode] origin 1 [everywhere]
      = Py.Ok (Fin vx)
    /\ OptimalPoint2.objective_function (fl := exact_arithmetic)
         antipode [antipode] origin 1 [everywhere]
       = Py.Ok (Fin vy)
    /\ vx < vy.
Proof.
  refine (feasible_beats_penalised_on_public_land (fl := exact_arithmetic)
            origin antipode origin [antipode] 1 [everywhere] _ _ eq_refl
            origin_is_inside _).
  - discriminate.
  - intros p [<- | []]. rewrite haversine_origin_antipode. discriminate.
  - right. exact antipode_is_outside.
Defined.

(** ** Reading the points *)

Section Readers.

Local Abbreviation reader_body :=
  (fun (points : list coord) (row : list field) =>
     f0 ← Py.item row 0; lat ← float f0;
     f1 ← Py.item row 1; lon ← float f1;
     Py.Ok (points ++ [(lat, lon)])).

Lemma for_each_cons {A S : Type} (body : S -> A -> Py.result S)
    (a : A) (l : list A) (s : S) :
  Py.for_each body (a :: l) s = Py.bind (body s a) (Py.for_each body l).
Proof. reflexivity. Qed.

Lemma well_formed_dec (row : list field) :
  {p : coord & {rest | row = row_of p rest}} + {~ well_formed row}.
Proof.
  destruct row as [| [lat | s] [| [lon | s'] rest]];
    try (right; intros (a & b & r & H); discriminate).
  left. exists (lat, lon), rest. reflexivity.
Qed.

Lemma reader_body_well_formed (acc : list coord) (p : coord) (rest : list field) :
  reader_body acc (row_of p rest) = Py.Ok (acc ++ [p]).
Proof. now destruct p. Qed.

Lemma reader_body_malformed (acc : list coord) (row : list field) :
  ~ well_formed row ->
  reader_body acc row = Py.Raise Py.IndexError
  \/ reader_body acc row = Py.Raise Py.ValueError.
Proof.
  intros Hbad.
  destruct row as [| [lat | s] [| [lon | s'] rest]]; simpl; auto.
  exfalso. apply Hbad. now exists lat, lon, rest.
Qed.

Lemma reader_loop_well_formed (rows : list (coord * list field)) :
  forall acc,
    Py.for_each reader_body (map (fun r => row_of (fst r) (snd r)) rows) acc
    = Py.Ok (acc ++ map fst rows).
Proof.
  induction rows as [| [p rest] rows IH]; intros acc.
  - simpl. now rewrite app_nil_r.
  - cbn [map fst snd]. rewrite for_each_cons, reader_body_well_formed.
    cbn [Py.bind]. rewrite IH, <- app_assoc. reflexivity.
Qed.

Lemma reader_loop_malformed (rows : list (list field)) :
  Exists (fun row => ~ well_formed row) rows ->
  forall acc,
    Py.for_each reader_body rows acc = Py.Raise Py.IndexError
    \/ Py.for_each reader_body rows acc = Py.Raise Py.ValueError.
Proof.
  induction rows as [| row rows IH]; intros H acc; [inversion H |].
  rewrite for_each_cons.
  destruct (well_formed_dec row) as [(p & rest & ->) | Hbad].
  - rewrite reader_body_well_formed. cbn [Py.bind]. apply IH.
    inversion_clear H as [? ? Hrow | ? ? Hrows]; [| exact Hrows].
    exfalso. apply Hrow. destruct p as [lat lon]. now exists lat, lon, rest.
  - destruct (reader_body_malformed acc row Hbad) as [-> | ->]; auto.
Qed.

Lemma rows_of_well_formed (rows : list (list field)) :
  Forall well_formed rows ->
  exists points, rows = map (fun r => row_of (fst r) (snd r)) points.
Proof.
  induction 1 as [| row rows (lat & lon & rest & ->) _ (points & ->)].
  - now exists [].
  - now exists (((lat, lon), rest) :: points).
Qed.

End Readers.

(** X7.  [read_coordinates_from_file] of optimal_point.py skips the header
    and returns one point per data row, in order, from the first two
    columns; further columns are ignored. *)
Theorem reader_returns_the_rows
    (header : list field) (rows : list (coord * list field)) :
  read_coordinates_from_file
    (header :: map (fun r => row_of (fst r) (snd r)) rows)
  = Py.Ok (map fst rows).
Proof.
  unfold read_coordinates_from_file.
  exact (reader_loop_well_formed rows []).
Qed.

(** X8.  [read_coordinates_from_file] of optimal_point.py returns a list
    exactly when the file has a header line and every data row starts with
    two numeric fields; a file without any line raises [StopIteration], and
    one malformed row makes the whole read raise [IndexError] or
    [ValueError], whatever the other rows hold. *)
Theorem reader_fails_on_a_malformed_row
    (header : list field) (rows : list (list field)) :
  read_coordinates_from_file [] = Py.Raise Py.StopIteration
  /\ ((exists points, read_coordinates_from_file (header :: rows)
                      = Py.Ok points)
      <-> Forall well_formed rows)
  /\ (Exists (fun row => ~ well_formed row) rows ->
      read_coordinates_from_file (header :: rows) = Py.Raise Py.IndexError
      \/ read_coordinates_from_file (header :: rows)
         = Py.Raise Py.ValueError).
Proof.
  split; [reflexivity |]. split; [split |].
  - intros (points & Hrun).
    apply List.Forall_forall. intros row Hrow.
    destruct (well_formed_dec row) as [(p & rest & ->) | Hbad].
    + destruct p as [lat lon]. now exists lat, lon, rest.
    + exfalso.
      assert (Hex : Exists (fun row => ~ well_formed row) rows).
      { apply List.Exists_exists. now exists row. }
      unfold read_coordinates_from_file in Hrun.
      destruct (reader_loop_malformed rows Hex []) as [H | H];
        pose proof (eq_trans (eq_sym H) Hrun) as Habs; discriminate Habs.
  - intros H. destruct (rows_of_well_formed rows H) as (points & ->).
    eexists. unfold read_coordinates_from_file.
    exact (reader_loop_well_formed points []).
  - intros H. exact (reader_loop_malformed rows H []).
Qed.

Lemma reader_fails_on_a_malformed_row_witness :
  read_coordinates_from_file
    (header_only ++ [[Number 40; Number (-105)]; [Number 40]])
  = Py.Raise Py.IndexError
  \/ read_coordinates_from_file
       (header_only ++ [[Number 40; Number (-105)]; [Number 40]])
     = Py.Raise Py.ValueError.
Proof.
  refine (proj2 (proj2 (reader_fails_on_a_malformed_row
                          [Text "latitude"; Text "longitude"]
                          [[Number 40; Number (-105)]; [Number 40]])) _).
  apply Exists_cons_tl, Exists_cons_hd.
  intros (lat & lon & rest & H). discriminate.
Defined.

Section GeographyReader.

Local Abbreviation filtering_body :=
  (fun (points : list coord) (row : list field) =>
     f0 ← Py.item row 0; lat ← float f0;
     f1 ← Py.item row 1; lon ← float f1;
     if decide ((-90 <= lat <= 90) /\ (-180 <= lon <= 180))
     then Py.Ok (points ++ [(lat, lon)])
     else Py.Ok points).

Lemma filtering_body_well_formed (acc : list coord) (p : coord)
    (rest : list field) :
  filtering_body acc (row_of p rest)
  = Py.Ok (acc ++ List.filter (fun q => bool_decide (valid_coordinates q)) [p]).
Proof.
  destruct p as [lat lon]. simpl.
  destruct (decide ((-90 <= lat <= 90) /\ (-180 <= lon <= 180))) as [H | H].
  - rewrite bool_decide_eq_true_2 by exact H. reflexivity.
  - rewrite bool_decide_eq_false_2 by exact H. now rewrite app_nil_r.
Qed.

Lemma filtering_loop (rows : list (coord * list field)) :
  forall acc,
    Py.for_each filtering_body
      (map (fun r => row_of (fst r) (snd r)) rows) acc
    = Py.Ok (acc ++ List.filter (fun q => bool_decide (valid_coordinates q))
                      (map fst rows)).
Proof.
  induction rows as [| [p rest] rows IH]; intros acc.
  - simpl. now rewrite app_nil_r.
  - cbn [map fst snd]. rewrite for_each_cons, filtering_body_well_formed.
    cbn [Py.bind]. rewrite IH, <- app_assoc.
    change (p :: map fst rows) with ([p] ++ map fst rows).
    now rewrite List.filter_app.
Qed.

End GeographyReader.

(** X9.  [read_coordinates_from_file] of point_by_geography.py returns, in
    order, exactly the rows whose latitude lies in [-90, 90] and whose
    longitude lies in [-180, 180]; a row out of range is dropped without an
    error, so every point returned has valid coordinates. *)
Theorem geography_reader_keeps_valid_rows
    (header : list field) (rows : list (coord * list field)) :
  PointByGeography.read_coordinates_from_file
    (header :: map (fun r => row_of (fst r) (snd r)) rows)
  = Py.Ok (List.filter (fun p => bool_decide (valid_coordinates p))
                       (map fst rows))
  /\ Forall valid_coordinates
       (List.filter (fun p => bool_decide (valid_coordinates p))
                    (map fst rows)).
Proof.
  split.
  - unfold PointByGeography.read_coordinates_from_file.
    exact (filtering_loop rows []).
  - apply List.Forall_forall. intros p Hp.
    apply List.filter_In in Hp as [_ Hp]. now apply bool_decide_eq_true in Hp.
Qed.

(** ** The swept values *)

Section SweptValues.

Lemma positive_step (step : Q) : (0 < step)%Q -> Qeq_bool step 0 = false.
Proof.
  intros H. destruct (Qeq_bool step 0) eqn:Heq; [| reflexivity].
  apply Qeq_bool_iff in Heq. Lqa.lra.
Qed.

End SweptValues.

Section SweepInvariants.

Context {solver_state : Type}.

Lemma for_each_keeps {A S : Type} (body : S -> A -> Py.result S)
    (I : S -> Prop) :
  (forall s a s', I s -> body s a = Py.Ok s' -> I s') ->
  forall l s s', I s -> Py.for_each body l s = Py.Ok s' -> I s'.
Proof.
  intros Hstep. induction l as [| a l IH]; intros s s' Hs Hrun.
  - injection Hrun as <-. exact Hs.
  - rewrite for_each_cons in Hrun.
    destruct (body s a) as [s1 | e] eqn:Hbody; [| discriminate].
    exact (IH s1 s' (Hstep s a s1 Hs Hbody) Hrun).
Qed.

Lemma for_each_solved
    (body : sweep_state solver_state -> Q -> Py.result (sweep_state solver_state)) :
  (forall st radius st', body st radius = Py.Ok st' ->
     exists result, iteration radius result st st') ->
  forall radii st st',
    Py.for_each body radii st = Py.Ok st' ->
    map fst (solved st') = map fst (solved st) ++ map round2 radii.
Proof.
  intros Hbody. induction radii as [| radius radii IH]; intros st st' Hrun.
  - injection Hrun as <-. simpl. now rewrite app_nil_r.
  - rewrite for_each_cons in Hrun.
    destruct (body st radius) as [s1 | e] eqn:Hb; [| discriminate].
    destruct (Hbody st radius s1 Hb) as (result & _ & _ & Hsol).
    rewrite (IH s1 st' Hrun), Hsol, map_app. simpl.
    now rewrite <- app_assoc.
Qed.

(** Keys are told apart by value, and every key has denominator 100. *)
Lemma dict_set_key_list {V : Type} (k : Q) (v : V) (d : dict V) :
  hundredths k -> (forall k', In k' (map fst d) -> hundredths k') ->
  (In k (map fst d) /\ map fst (dict_set k v d) = map fst d)
  \/ (~ In k (map fst d) /\ map fst (dict_set k v d) = map fst d ++ [k]).
Proof.
  intros Hk. induction d as [| [k' v'] d IH]; intros Hd; simpl.
  - right. split; [intros [] | reflexivity].
  - destruct (Qeq_bool k' k) eqn:Heq; simpl.
    + apply hundredths_eq in Heq; [| apply Hd; now left | exact Hk].
      subst k'. left. split; [now left | reflexivity].
    + assert (Hne : k' <> k).
      { intros ->. assert (Qeq_bool k k = true) by now apply Qeq_bool_iff.
        congruence. }
      destruct (IH (fun k0 H0 => Hd k0 (or_intror H0)))
        as [[Hin ->] | [Hnin ->]].
      * left. split; [now right | reflexivity].
      * right. split; [intros [? | ?]; contradiction | reflexivity].
Qed.

Lemma dict_set_length {V : Type} (k : Q) (v : V) (d : dict V) :
  (length (dict_set k v d) <= S (length d))%nat.
Proof.
  induction d as [| [k' v'] d IH]; simpl; [lia |].
  destruct (Qeq_bool k' k); simpl; lia.
Qed.

Lemma consistent_keys_hundredths (st : sweep_state solver_state) :
  consistent st ->
  forall k, In k (map fst (optimal_points st)) -> hundredths k.
Proof.
  intros (Hhun & Hkeys & _) k Hk. apply Hkeys in Hk as (res & Hin & _).
  apply Hhun. change k with (fst (k, res)). now apply in_map.
Qed.

Lemma settled_start (s : solver_state) : settled (sweep_start s).
Proof.
  split; [apply consistent_start |]. split; [constructor | simpl; lia].
Qed.

Lemma iteration_settled (radius : Q) (result : OptimizeResult)
    (st st' : sweep_state solver_state) :
  settled st -> iteration radius result st st' -> settled st'.
Proof.
  intros (Hcons & Hnodup & Hlen) Hit.
  split; [exact (iteration_consistent _ _ _ _ Hit Hcons) |].
  pose proof (consistent_keys_hundredths st Hcons) as Hhun.
  destruct Hit as (Hopt & _ & Hsol). rewrite Hopt, Hsol, List.filter_app.
  rewrite length_app. simpl.
  destruct (success result); simpl; [| split; [exact Hnodup | lia]].
  split.
  - destruct (dict_set_key_list (round2 radius) (x result) (optimal_points st)
                (round2_hundredths radius) Hhun) as [[Hin ->] | [Hnin ->]];
      [exact Hnodup |].
    apply List.NoDup_app; [exact Hnodup | constructor; [intros [] | constructor] |].
    intros k Hk [<- | []]. contradiction.
  - pose proof (dict_set_length (round2 radius) (x result) (optimal_points st)).
    lia.
Qed.

Lemma loop_settles
    (body : sweep_state solver_state -> Q -> Py.result (sweep_state solver_state))
    (radii : list Q) (s : solver_state) (st : sweep_state solver_state) :
  (forall st radius st', body st radius = Py.Ok st' ->
     exists result, iteration radius result st st') ->
  Py.for_each body radii (sweep_start s) = Py.Ok st ->
  settled st /\ map fst (solved st) = map round2 radii.
Proof.
  intros Hbody Hrun. split.
  - refine (for_each_keeps body settled _ radii _ _ (settled_start s) Hrun).
    intros s0 a s' Hs Hb. destruct (Hbody s0 a s' Hb) as (result & Hit).
    exact (iteration_settled a result s0 s' Hs Hit).
  - exact (for_each_solved body Hbody radii _ _ Hrun).
Qed.

End SweepInvariants.

Section SweepResults.

Context {solver_state : Type}.

Lemma hundredth_is_close (z : Z) (q : Q) :
  (q * 100 - (1 # 2) <= inject_Z z)%Q -> (inject_Z z <= q * 100 + (1 # 2))%Q ->
  (Qabs ((z # 100) - q) <= 1 # 200)%Q.
Proof.
  intros Hlo Hhi. apply Qabs_Qle_condition.
  rewrite (Qmake_Qdiv z 100). unfold Qdiv.
  change (/ inject_Z (Z.pos 100))%Q with (1 # 100)%Q.
  split; Lqa.lra.
Qed.

Lemma round2_is_close (q : Q) : (Qabs (round2 q - q) <= 1 # 200)%Q.
Proof.
  unfold round2, round_half_even.
  pose proof (Qfloor_le (q * 100)) as Hlo.
  pose proof (Qlt_floor (q * 100)) as Hhi.
  rewrite inject_Z_plus in Hhi. change (inject_Z 1) with 1%Q in Hhi.
  destruct (Qcompare_spec (q * 100 - inject_Z (Qfloor (q * 100))) (1 # 2))
    as [Heq | Hlt | Hgt].
  - destruct (Z.even (Qfloor (q * 100))); apply hundredth_is_close;
      rewrite ?inject_Z_plus; change (inject_Z 1) with 1%Q; Lqa.lra.
  - apply hundredth_is_close; Lqa.lra.
  - apply hundredth_is_close; rewrite inject_Z_plus;
      change (inject_Z 1) with 1%Q; Lqa.lra.
Qed.

Lemma nodup_hundredths_distinct (keys : list Q) :
  List.NoDup keys -> (forall k, In k keys -> hundredths k) ->
  distinct_keys keys.
Proof.
  intros Hnodup Hhun i j ki kj Hi Hj Hij Heq.
  assert (Hin_i : In ki keys) by (apply list_elem_of_In; eapply list_elem_of_lookup_2; eauto).
  assert (Hin_j : In kj keys) by (apply list_elem_of_In; eapply list_elem_of_lookup_2; eauto).
  assert (ki = kj).
  { apply hundredths_eq; auto. now apply Qeq_bool_iff. }
  subst kj. apply Hij.
  apply NoDup_ListNoDup in Hnodup.
  eapply NoDup_lookup; eauto.
Qed.

Lemma filter_length_le {A : Type} (f : A -> bool) (l : list A) :
  (length (List.filter f l) <= length l)%nat.
Proof. induction l as [| a l IH]; simpl; [lia |]. destruct (f a); simpl; lia. Qed.

(** What the three properties below need of a sweep that returned. *)
Lemma settled_result (radii : list Q) (st : sweep_state solver_state) :
  settled st -> map fst (solved st) = map round2 radii ->
  distinct_keys (map fst (optimal_points st))
  /\ (length (optimal_points st) <= length radii)%nat
  /\ forall k, In k (map fst (optimal_points st)) ->
       exists radius, In radius radii /\ k = round2 radius
                      /\ (Qabs (k - radius) <= 1 # 200)%Q.
Proof.
  intros (Hcons & Hnodup & Hlen) Hsol. split; [| split].
  - apply nodup_hundredths_distinct; [exact Hnodup |].
    now apply consistent_keys_hundredths.
  - pose proof (filter_length_le (fun run => success (snd run)) (solved st)).
    assert (length (solved st) = length radii).
    { rewrite <- (length_map fst (solved st)), Hsol. apply length_map. }
    lia.
  - intros k Hk. destruct Hcons as (_ & Hkeys & _).
    apply Hkeys in Hk as (res & Hin & _).
    assert (Hk : In k (map round2 radii)).
    { rewrite <- Hsol. change k with (fst (k, res)). now apply in_map. }
    apply in_map_iff in Hk as (radius & <- & Hr).
    exists radius. split; [exact Hr |]. split; [reflexivity |].
    apply round2_is_close.
Qed.

End SweepResults.

Ltac invert_sweep_body solve Hb :=
  simpl in Hb;
  match type of Hb with
  | context [solve ?f ?a ?b ?s] =>
      destruct (solve f a b s) as [[?result | ?e] ?s'] eqn:?Hsolve
  | context [solve ?f ?b ?s] =>
      destruct (solve f b s) as [[?result | ?e] ?s'] eqn:?Hsolve
  end;
  simpl in Hb; [| discriminate].

Ltac sweep_body_iterates solve :=
  let Hb := fresh "Hb" in
  intros ? ? ? Hb; invert_sweep_body solve Hb;
  match goal with
  | result : OptimizeResult |- _ =>
      exists result; destruct (success result) eqn:?Hsucc;
      injection Hb as <-; unfold iteration; simpl;
      match goal with H : success result = _ |- _ => rewrite H end; auto
  end.

(** X11.  In the result of each of the three radius sweeps the keys are
    pairwise different numbers, there is at most one key per swept value,
    and every key is a swept value rounded to two decimals, at most 0.005
    away from it. *)
Theorem sweep_keys_are_distinct_rounded_radii {fl : Float64} {S1 S2 S3 : Type}
    (minimize : (coord -> Py.result float64) -> coord -> list (R * R) ->
                S1 -> Py.result OptimizeResult * S1)
    (evolution : (coord -> Py.result float64) -> list (R * R) ->
                 S2 -> Py.result OptimizeResult * S2)
    (evolution_2 : (coord -> Py.result float64) -> list (R * R) ->
                   S3 -> Py.result OptimizeResult * S3)
    (points : list coord) (center : coord) (radius_range : Q * Q) (step : Q)
    (polygons : list Geometry) (s1 : S1) (s2 : S2) (s3 : S3)
    (radii : list Q) :
  arange (fst radius_range) (snd radius_range + step)%Q step = Py.Ok radii ->
  (forall st,
     OptimalPoint.precompute_optimal_points minimize points center
       radius_range step s1 = Py.Ok st ->
     keyed_by radii st)
  /\ (forall st,
        PureRadiusDx.precompute_optimal_points evolution points center
          radius_range step s2 = Py.Ok st ->
        keyed_by radii st)
  /\ (forall st,
        OptimalPoint2.precompute_optimal_points evolution_2 points center
          radius_range step polygons s3 = Py.Ok st ->
        keyed_by radii st).
Proof.
  intros Hradii. split; [| split]; intros st Hrun.
  - unfold OptimalPoint.precompute_optimal_points in Hrun.
    rewrite Hradii in Hrun. simpl in Hrun.
    apply loop_settles in Hrun as [Hst Hsol];
      [now apply settled_result | sweep_body_iterates minimize].
  - unfold PureRadiusDx.precompute_optimal_points in Hrun.
    rewrite Hradii in Hrun. simpl in Hrun.
    apply loop_settles in Hrun as [Hst Hsol];
      [now apply settled_result | sweep_body_iterates evolution].
  - unfold OptimalPoint2.precompute_optimal_points in Hrun.
    rewrite Hradii in Hrun. simpl in Hrun.
    apply loop_settles in Hrun as [Hst Hsol];
      [now apply settled_result | sweep_body_iterates evolution_2].
Qed.

Lemma sweep_keys_are_distinct_rounded_radii_witness :
  exists radii st1 st2 st3,
    arange 1 (3 + 1)%Q 1 = Py.Ok radii
    /\ (OptimalPoint.precompute_optimal_points (fl := exact_arithmetic)
          alternating_minimize [origin] origin (1%Q, 3%Q) 1 0%nat = Py.Ok st1
        /\ keyed_by radii st1)
    /\ (PureRadiusDx.precompute_optimal_points (fl := exact_arithmetic)
          alternating_evolution [origin] origin (1%Q, 3%Q) 1 0%nat = Py.Ok st2
        /\ keyed_by radii st2)
    /\ (OptimalPoint2.precompute_optimal_points (fl := exact_arithmetic)
          alternating_evolution [origin] origin (1%Q, 3%Q) 1 [] 0%nat
        = Py.Ok st3
        /\ keyed_by radii st3).
Proof.
  destruct (sweep_keys_are_distinct_rounded_radii (fl := exact_arithmetic)
              alternating_minimize alternating_evolution alternating_evolution
              [origin] origin (1%Q, 3%Q) 1%Q [] 0%nat 0%nat 0%nat _ eq_refl)
    as (H1 & H2 & H3).
  do 4 eexists. split; [reflexivity |].
  split; [split; [reflexivity | apply H1; reflexivity] |].
  split; [split; [reflexivity | apply H2; reflexivity] |].
  split; [reflexivity | apply H3; reflexivity].
Defined.

(** ** The file written during the sweep *)

Section CsvFile.

Context {solver_state : Type}.

Lemma successful_rows_app (a b : list (Q * OptimizeResult)) :
  successful_rows (a ++ b) = successful_rows a ++ successful_rows b.
Proof. unfold successful_rows. now rewrite List.filter_app, map_app. Qed.

Lemma successful_rows_in (runs : list (Q * OptimizeResult)) (k : Q) (v : coord) :
  In (k, v) (successful_rows runs)
  <-> exists result, In (k, result) runs /\ success result = true /\ x result = v.
Proof.
  unfold successful_rows. rewrite in_map_iff. split.
  - intros ([k' result] & Heq & Hin). apply List.filter_In in Hin as [Hin Hs].
    simpl in *. injection Heq as -> <-. now exists result.
  - intros (result & Hin & Hs & <-). exists (k, result). split; [reflexivity |].
    apply List.filter_In. now split.
Qed.

End CsvFile.



(** ** A file without data rows, end to end *)

Section EmptyFile.

Lemma arange_starts (lo hi step : Q) :
  (0 < step)%Q -> (lo <= hi)%Q ->
  exists rest,
    arange lo (hi + step) step
    = Py.Ok ((lo + inject_Z (Z.of_nat 0) * step)%Q :: rest).
Proof.
  intros Hstep Hrange. unfold arange. rewrite (positive_step step Hstep).
  set (q := ((hi + step - lo) / step)%Q).
  assert (Hone : (1 <= q)%Q).
  { unfold q. apply Qle_shift_div_l; [exact Hstep | Lqa.lra]. }
  assert (Hc : (1 <= Qceiling q)%Z).
  { rewrite Zle_Qle. change (inject_Z 1) with 1%Q.
    pose proof (Qle_ceiling q). Lqa.lra. }
  destruct (Z.to_nat (Qceiling q)) as [| n] eqn:Hn; [lia |].
  simpl. eexists. reflexivity.
Qed.

Lemma round2_nonneg (q : Q) : (0 <= q)%Q -> 0 <= Q2R (round2 q).
Proof.
  intros Hq. unfold round2.
  assert (Hfloor : (0 <= Qfloor (q * 100))%Z).
  { change 0%Z with (Qfloor 0). apply Qfloor_resp_le. Lqa.lra. }
  assert (Hz : (0 <= round_half_even (q * 100))%Z).
  { unfold round_half_even.
    destruct (_ ?= _)%Q; [destruct (Z.even _) | |]; lia. }
  replace 0 with (Q2R 0) by (unfold Q2R; simpl; lra).
  apply Qle_Rle. unfold Qle. simpl. lia.
Qed.

End EmptyFile.

(** X13.  On a file that holds a header line only, with a positive step and
    a range [0 <= lo <= hi], [main] of optimal_point.py ends in [ValueError]
    whenever the optimizer starts by evaluating the objective at its initial
    guess and lets the exception through: the reader returns the empty list
    without complaint, and [min] of an empty list raises at the center for
    the first swept radius. *)
Theorem header_only_file_ends_in_value_error {fl : Float64}
    {solver_state : Type}
    (minimize : (coord -> Py.result float64) -> coord -> list (R * R) ->
                solver_state -> Py.result OptimizeResult * solver_state)
    (header : list field) (center : coord) (radius_range : Q * Q) (step : Q)
    (s : solver_state) :
  (forall f x0 bounds s0 e,
     f x0 = Py.Raise e -> fst (minimize f x0 bounds s0) = Py.Raise e) ->
  (0 < step)%Q -> (0 <= fst radius_range)%Q ->
  (fst radius_range <= snd radius_range)%Q ->
  OptimalPoint.main minimize [header] center radius_range step s
  = Py.Raise Py.ValueError.
Proof.
  intros Hprobe Hstep Hlo Hrange.
  unfold OptimalPoint.main, OptimalPoint.precompute_optimal_points. simpl.
  destruct (arange_starts _ _ step Hstep Hrange) as (rest & ->). simpl.
  set (radius := round2 _).
  assert (Hobj : OptimalPoint.objective_function center [] center (Q2R radius)
                 = Py.Raise Py.ValueError).
  { apply optimal_point_empty, center_is_inside.
    apply round2_nonneg. change (inject_Z (Z.of_nat 0)) with 0%Q. Lqa.lra. }
  pose proof (Hprobe
                (fun x => OptimalPoint.objective_function x [] center (Q2R radius))
                center
                [(fst center - 10, fst center + 10);
                 (snd center - 10, snd center + 10)]
                s Py.ValueError Hobj) as Hcall.
  destruct (minimize _ _ _ _) as [result s']. simpl in Hcall. subst result.
  reflexivity.
Qed.

Lemma header_only_file_ends_in_value_error_witness :
  OptimalPoint.main (fl := exact_arithmetic)
    probing_minimize header_only origin (1%Q, 3%Q) 1 tt
  = Py.Raise Py.ValueError.
Proof.
  apply (header_only_file_ends_in_value_error (fl := exact_arithmetic)
           probing_minimize
           [Text "latitude"; Text "longitude"] origin (1%Q, 3%Q) 1%Q tt).
  - intros f x0 bounds s0 e H. unfold probing_minimize. simpl. now rewrite H.
  - reflexivity.
  - discriminate.
  - discriminate.
Defined.

(** ** The grid that [create_grid] allocates *)

Ltac run_binds := unfold mbind, result_bind; cbn [Py.bind].

Section CreateGrid.

Lemma py_min_in (d : R) (ds : list R) :
  exists m, Py.min (d :: ds) = Py.Ok m /\ In m (d :: ds).
Proof.
  simpl. eexists; split; [reflexivity |].
  revert d. induction ds as [| y ds IH]; intros d; simpl.
  - now left.
  - destruct (Rlt_dec y d).
    + destruct (IH y) as [H | H]; [right; left; exact H | right; right; exact H].
    + destruct (IH d) as [H | H]; [left; exact H | right; right; exact H].
Qed.

Lemma py_min_nonempty (ds : list R) :
  ds <> [] -> exists m, Py.min ds = Py.Ok m /\ In m ds.
Proof. destruct ds as [| d ds]; [congruence | intros _; apply py_min_in]. Qed.

Lemma fold_min_le (ds : list R) (d : R) :
  fold_left (fun m y => if Rlt_dec y m then y else m) ds d <= d
  /\ forall y, In y ds ->
       fold_left (fun m y => if Rlt_dec y m then y else m) ds d <= y.
Proof.
  revert d. induction ds as [| y ds IH]; intros d; simpl.
  - split; [lra | intros y []].
  - destruct (Rlt_dec y d) as [Hlt | Hge].
    + destruct (IH y) as [Hy Hall]. split; [lra |].
      intros z [<- | Hz]; [exact Hy | now apply Hall].
    + destruct (IH d) as [Hd Hall]. split; [exact Hd |].
      intros z [<- | Hz]; [lra | now apply Hall].
Qed.

Lemma py_min_least (ds : list R) :
  ds <> [] ->
  exists m, Py.min ds = Py.Ok m /\ In m ds /\ forall y, In y ds -> m <= y.
Proof.
  intros Hne. destruct (py_min_nonempty ds Hne) as (m & Hm & Hin).
  exists m. split; [exact Hm |]. split; [exact Hin |].
  destruct ds as [| d ds]; [congruence |]. simpl in Hm. injection Hm as <-.
  destruct (fold_min_le ds d) as [Hd Hall].
  intros y [<- | Hy]; [exact Hd | now apply Hall].
Qed.

Lemma fold_max_ge (ds : list R) (d : R) :
  d <= fold_left (fun m y => if Rgt_dec y m then y else m) ds d
  /\ forall y, In y ds ->
       y <= fold_left (fun m y => if Rgt_dec y m then y else m) ds d.
Proof.
  revert d. induction ds as [| y ds IH]; intros d; simpl.
  - split; [lra | intros y []].
  - destruct (Rgt_dec y d) as [Hgt | Hle].
    + destruct (IH y) as [Hy Hall]. split; [lra |].
      intros z [<- | Hz]; [exact Hy | now apply Hall].
    + destruct (IH d) as [Hd Hall]. split; [exact Hd |].
      intros z [<- | Hz]; [lra | now apply Hall].
Qed.

Lemma py_max_greatest (ds : list R) :
  ds <> [] ->
  exists m, Py.max ds = Py.Ok m /\ forall y, In y ds -> y <= m.
Proof.
  intros Hne. destruct ds as [| d ds]; [congruence |]. simpl.
  eexists. split; [reflexivity |].
  destruct (fold_max_ge ds d) as [Hd Hall].
  intros y [<- | Hy]; [exact Hd | now apply Hall].
Qed.

Lemma Int_part_le (a b : R) : a <= b -> (Int_part a <= Int_part b)%Z.
Proof.
  intros Hab. destruct (base_Int_part a) as [Ha _].
  destruct (base_Int_part b) as [_ Hb].
  assert (H : IZR (Int_part a) < IZR (Int_part b + 1)) by (rewrite plus_IZR; lra).
  apply lt_IZR in H. lia.
Qed.

Lemma trunc_between (a b : R) :
  0 <= a <= b -> (0 <= Py.trunc a <= Py.trunc b)%Z.
Proof.
  intros [Ha Hab]. rewrite !trunc_nonneg by lra. split.
  - now apply Int_part_nonneg.
  - now apply Int_part_le.
Qed.

Lemma index_within (v v_min v_max unit_size : R) :
  0 < unit_size -> v_min <= v <= v_max ->
  (0 <= Py.trunc ((v - v_min) / unit_size)
     < Py.trunc ((v_max - v_min) / unit_size) + 1)%Z.
Proof.
  intros Hu [Hlo Hhi].
  assert (H : 0 <= (v - v_min) / unit_size <= (v_max - v_min) / unit_size).
  { split.
    - apply Rmult_le_pos; [lra | left; now apply Rinv_0_lt_compat].
    - apply Rmult_le_compat_r; [left; now apply Rinv_0_lt_compat | lra]. }
  apply trunc_between in H. lia.
Qed.

Lemma shape_zeros (h w : Z) :
  (1 <= h)%Z -> (0 <= w)%Z ->
  exists grid, zeros h w = Py.Ok grid /\ shape grid = (h, w).
Proof.
  intros Hh Hw. unfold zeros.
  destruct (Z.ltb_spec h 0); [lia |]. destruct (Z.ltb_spec w 0); [lia |].
  simpl. eexists. split; [reflexivity |]. unfold shape.
  rewrite length_replicate.
  destruct (Z.to_nat h) as [| n] eqn:Hn; [lia |]. simpl.
  rewrite length_replicate. f_equal; lia.
Qed.

(** The bounding box and the size of the grid, for a positive [unit_size]. *)
Lemma grid_dimensions (latitudes longitudes : list R) (unit_size : R) :
  latitudes <> [] -> longitudes <> [] -> 0 < unit_size ->
  exists lat_min lat_max lon_min lon_max grid,
    let h := (Py.trunc ((lat_max - lat_min) / unit_size) + 1)%Z in
    let w := (Py.trunc ((lon_max - lon_min) / unit_size) + 1)%Z in
    Py.min latitudes = Py.Ok lat_min /\ Py.max latitudes = Py.Ok lat_max
    /\ Py.min longitudes = Py.Ok lon_min /\ Py.max longitudes = Py.Ok lon_max
    /\ In lat_min latitudes /\ In lon_min longitudes
    /\ (forall lat, In lat latitudes -> lat_min <= lat <= lat_max)
    /\ (forall lon, In lon longitudes -> lon_min <= lon <= lon_max)
    /\ zeros h w = Py.Ok grid /\ shape grid = (h, w)
    /\ (1 <= h)%Z /\ (1 <= w)%Z.
Proof.
  intros Hlat Hlon Hu.
  destruct (py_min_least latitudes Hlat) as (lat_min & Hlat_min & Hin_lat & Hlat_lo).
  destruct (py_max_greatest latitudes Hlat) as (lat_max & Hlat_max & Hlat_hi).
  destruct (py_min_least longitudes Hlon) as (lon_min & Hlon_min & Hin_lon & Hlon_lo).
  destruct (py_max_greatest longitudes Hlon) as (lon_max & Hlon_max & Hlon_hi).
  pose proof (index_within lat_min lat_min lat_max unit_size Hu
                (conj (Rle_refl _) (Hlat_hi _ Hin_lat))) as Hh.
  pose proof (index_within lon_min lon_min lon_max unit_size Hu
                (conj (Rle_refl _) (Hlon_hi _ Hin_lon))) as Hw.
  destruct (shape_zeros (Py.trunc ((lat_max - lat_min) / unit_size) + 1)
              (Py.trunc ((lon_max - lon_min) / unit_size) + 1))
    as (grid & Hgrid & Hshape); [lia | lia |].
  exists lat_min, lat_max, lon_min, lon_max, grid. cbv zeta.
  repeat split; auto; try lia; try (now apply Hlat_lo); try (now apply Hlat_hi);
    try (now apply Hlon_lo); now apply Hlon_hi.
Qed.

Lemma to_int_quotient (a unit_size : R) :
  unit_size <> 0 ->
  to_int (true_divide a unit_size) = Py.Ok (Py.trunc (a / unit_size)).
Proof.
  intros Hu. unfold true_divide. now destruct (Req_dec_T unit_size 0).
Qed.

End CreateGrid.

(** X14.  For a positive [unit_size] and non-empty coordinate lists,
    [create_grid] of find_coldest_spot.py and of find_coldest_spot_4.py
    return a grid of zeros with at least one row and one column, anchored at
    the smallest latitude and the smallest longitude (a latitude and a
    longitude of the input that no other is below), in which the cell of
    every input point lies: no point falls off the grid.  The script of
    find_coldest_spot_4.py returns the same grid together with the cell of
    the center, which can lie outside it. *)
Theorem create_grid_holds_every_point
    (latitudes longitudes : list R)
    (unit_size center_lat center_lon radius_meters : R) :
  latitudes <> [] -> longitudes <> [] -> 0 < unit_size ->
  exists grid lat_min lon_min h w,
    ColdestSpot.create_grid latitudes longitudes unit_size
    = Py.Ok (grid, lat_min, lon_min, h, w)
    /\ ColdestSpot4.create_grid latitudes longitudes unit_size
         center_lat center_lon radius_meters
       = Py.Ok (grid, lat_min, lon_min, h, w,
                fst (cell_of lat_min lon_min unit_size (center_lat, center_lon)),
                snd (cell_of lat_min lon_min unit_size (center_lat, center_lon)),
                radius_meters)
    /\ In lat_min latitudes /\ In lon_min longitudes
    /\ (forall lat, In lat latitudes -> lat_min <= lat)
    /\ (forall lon, In lon longitudes -> lon_min <= lon)
    /\ shape grid = (h, w) /\ (1 <= h)%Z /\ (1 <= w)%Z
    /\ (forall r c, (Z.of_nat r < h)%Z -> (Z.of_nat c < w)%Z ->
                    cell grid r c = Some (Fin 0))
    /\ (forall lat lon, In lat latitudes -> In lon longitudes ->
          (0 <= fst (cell_of lat_min lon_min unit_size (lat, lon)) < h)%Z
          /\ (0 <= snd (cell_of lat_min lon_min unit_size (lat, lon)) < w)%Z).
Proof.
  intros Hlat Hlon Hu.
  destruct (grid_dimensions latitudes longitudes unit_size Hlat Hlon Hu)
    as (lat_min & lat_max & lon_min & lon_max & grid & Hmin_lat & Hmax_lat
        & Hmin_lon & Hmax_lon & Hin_lat & Hin_lon & Hlats & Hlons & Hgrid
        & Hshape & Hh & Hw).
  assert (Hu0 : unit_size <> 0) by lra.
  exists grid, lat_min, lon_min. eexists. eexists.
  split; [| split].
  - unfold ColdestSpot.create_grid.
    rewrite Hmin_lat, Hmax_lat, Hmin_lon, Hmax_lon. run_binds.
    rewrite !to_int_quotient by exact Hu0. run_binds.
    rewrite Hgrid. reflexivity.
  - unfold ColdestSpot4.create_grid.
    rewrite Hmin_lat, Hmax_lat, Hmin_lon, Hmax_lon. run_binds.
    rewrite !to_int_quotient by exact Hu0. run_binds.
    rewrite Hgrid. run_binds.
    rewrite !cell_index_nonzero by exact Hu0. reflexivity.
  - split; [exact Hin_lat |]. split; [exact Hin_lon |].
    split; [intros lat Hlat'; now apply Hlats |].
    split; [intros lon Hlon'; now apply Hlons |].
    split; [exact Hshape |]. split; [exact Hh |]. split; [exact Hw |]. split.
    + intros r c Hr Hc. now apply (zeros_spec _ _ grid Hgrid).
    + intros lat lon Hlat' Hlon'. unfold cell_of. simpl. split.
      * apply index_within; [exact Hu | now apply Hlats].
      * apply index_within; [exact Hu | now apply Hlons].
Qed.

Lemma create_grid_holds_every_point_witness :
  exists grid lat_min lon_min h w,
    ColdestSpot.create_grid [0; 3] [0; 1] 1
    = Py.Ok (grid, lat_min, lon_min, h, w)
    /\ ColdestSpot4.create_grid [0; 3] [0; 1] 1 (-2) 0 100
       = Py.Ok (grid, lat_min, lon_min, h, w,
                fst (cell_of lat_min lon_min 1 (-2, 0)),
                snd (cell_of lat_min lon_min 1 (-2, 0)),
                100)
    /\ In lat_min [0; 3] /\ In lon_min [0; 1]
    /\ (forall lat, In lat [0; 3] -> lat_min <= lat)
    /\ (forall lon, In lon [0; 1] -> lon_min <= lon)
    /\ shape grid = (h, w) /\ (1 <= h)%Z /\ (1 <= w)%Z
    /\ (forall r c, (Z.of_nat r < h)%Z -> (Z.of_nat c < w)%Z ->
                    cell grid r c = Some (Fin 0))
    /\ (forall lat lon, In lat [0; 3] -> In lon [0; 1] ->
          (0 <= fst (cell_of lat_min lon_min 1 (lat, lon)) < h)%Z
          /\ (0 <= snd (cell_of lat_min lon_min 1 (lat, lon)) < w)%Z).
Proof.
  apply (create_grid_holds_every_point [0; 3] [0; 1] 1 (-2) 0 100);
    [discriminate | discriminate | lra].
Defined.

Section ZeroUnitSize.

Lemma py_max_in (ds : list R) :
  ds <> [] -> exists m, Py.max ds = Py.Ok m /\ In m ds.
Proof.
  intros Hne. destruct ds as [| d ds]; [congruence |]. simpl.
  eexists; split; [reflexivity |].
  clear Hne. revert d. induction ds as [| y ds IH]; intros d; simpl.
  - now left.
  - destruct (Rgt_dec y d).
    + destruct (IH y) as [H | H]; [right; left; exact H | right; right; exact H].
    + destruct (IH d) as [H | H]; [left; exact H | right; right; exact H].
Qed.

(** The first division of [create_grid] by a zero [unit_size]. *)
Lemma spread_over_zero (latitudes : list R) :
  latitudes <> [] ->
  exists lat_min lat_max,
    Py.min latitudes = Py.Ok lat_min /\ Py.max latitudes = Py.Ok lat_max
    /\ ((exists a b, In a latitudes /\ In b latitudes /\ a <> b) ->
        to_int (true_divide (lat_max - lat_min) 0)
        = Py.Raise Py.OverflowError)
    /\ ((forall a b, In a latitudes -> In b latitudes -> a = b) ->
        to_int (true_divide (lat_max - lat_min) 0) = Py.Raise Py.ValueError).
Proof.
  intros Hne.
  destruct (py_min_least latitudes Hne) as (lat_min & Hmin & Hin_min & Hlo).
  destruct (py_max_greatest latitudes Hne) as (lat_max & Hmax & Hhi).
  destruct (py_max_in latitudes Hne) as (m & Hm & Hin_max).
  rewrite Hmax in Hm. injection Hm as <-.
  exists lat_min, lat_max. split; [exact Hmin |]. split; [exact Hmax |].
  unfold true_divide. destruct (Req_dec_T 0 0) as [_ | H]; [| congruence].
  split.
  - intros (a & b & Ha & Hb & Hab).
    assert (lat_min < lat_max).
    { pose proof (Hlo a Ha). pose proof (Hlo b Hb).
      pose proof (Hhi a Ha). pose proof (Hhi b Hb).
      destruct (Rtotal_order a b) as [| [|]]; [lra | contradiction | lra]. }
    destruct (Rlt_dec 0 (lat_max - lat_min)); [reflexivity | lra].
  - intros Hall. rewrite (Hall lat_max lat_min Hin_max Hin_min).
    destruct (Rlt_dec 0 (lat_min - lat_min)); [lra |].
    destruct (Rlt_dec (lat_min - lat_min) 0); [lra | reflexivity].
Qed.

End ZeroUnitSize.

(** X15.  With [unit_size = 0] neither [create_grid] returns.  The division
    itself is no error: the quotient of the latitude spread is [inf] or
    [nan], and it is [int()] that raises, [OverflowError] when two latitudes
    differ and [ValueError] when all are equal. *)
Theorem create_grid_rejects_zero_unit_size
    (latitudes longitudes : list R)
    (center_lat center_lon radius_meters : R) :
  latitudes <> [] -> longitudes <> [] ->
  ((exists a b, In a latitudes /\ In b latitudes /\ a <> b) ->
   ColdestSpot.create_grid latitudes longitudes 0
   = Py.Raise Py.OverflowError
   /\ ColdestSpot4.create_grid latitudes longitudes 0
        center_lat center_lon radius_meters
      = Py.Raise Py.OverflowError)
  /\ ((forall a b, In a latitudes -> In b latitudes -> a = b) ->
      ColdestSpot.create_grid latitudes longitudes 0
      = Py.Raise Py.ValueError
      /\ ColdestSpot4.create_grid latitudes longitudes 0
           center_lat center_lon radius_meters
         = Py.Raise Py.ValueError).
Proof.
  intros Hlat Hlon.
  destruct (spread_over_zero latitudes Hlat)
    as (lat_min & lat_max & Hmin & Hmax & Hover & Hnan).
  destruct (py_min_least longitudes Hlon) as (lon_min & Hlon_min & _).
  destruct (py_max_greatest longitudes Hlon) as (lon_max & Hlon_max & _).
  unfold ColdestSpot.create_grid, ColdestSpot4.create_grid.
  rewrite Hmin, Hmax, Hlon_min, Hlon_max. run_binds.
  split; intros H.
  - rewrite (Hover H). now split.
  - rewrite (Hnan H). now split.
Qed.

Lemma create_grid_rejects_zero_unit_size_witness :
  (ColdestSpot.create_grid [0; 3] [0; 1] 0 = Py.Raise Py.OverflowError
   /\ ColdestSpot4.create_grid [0; 3] [0; 1] 0 0 0 100
      = Py.Raise Py.OverflowError)
  /\ (ColdestSpot.create_grid [2; 2] [0; 1] 0 = Py.Raise Py.ValueError
      /\ ColdestSpot4.create_grid [2; 2] [0; 1] 0 0 0 100
         = Py.Raise Py.ValueError).
Proof.
  split.
  - apply (create_grid_rejects_zero_unit_size [0; 3] [0; 1] 0 0 100);
      [discriminate | discriminate |].
    exists 0, 3. split; [now left |]. split; [right; now left | lra].
  - apply (create_grid_rejects_zero_unit_size [2; 2] [0; 1] 0 0 100);
      [discriminate | discriminate |].
    intros a b [<- | [<- | []]] [<- | [<- | []]]; reflexivity.
Defined.

(** ** How much a cell can hold *)

Section Exposure.

Lemma fold_bump_bounded {A : Type} (f : A -> option float64) (l : list A) :
  (forall p v, f p = Some v -> unit_weight v) ->
  forall a, exists b,
    fold_left (fun old p => bump (f p) old) l (Some (Fin a)) = Some (Fin b)
    /\ a <= b <= a + INR (length l).
Proof.
  intros Hf. induction l as [| p l IH]; intros a.
  - exists a. simpl. split; [reflexivity | lra].
  - cbn [fold_left length]. rewrite S_INR.
    destruct (f p) as [v |] eqn:Hp.
    + pose proof (Hf p v Hp) as Hv. destruct v as [x | | |]; try contradiction.
      simpl in Hv. destruct (IH (a + x)) as (b & Hb & Hab).
      exists b. split; [exact Hb | lra].
    + destruct (IH a) as (b & Hb & Hab). exists b. split; [exact Hb | lra].
Qed.

Lemma fold_bump_hit {A : Type} (f : A -> option float64) (l : list A) (q : A) :
  (forall p v, f p = Some v -> unit_weight v) ->
  In q l -> f q = Some (Fin 1) ->
  forall a, exists b,
    fold_left (fun old p => bump (f p) old) l (Some (Fin a)) = Some (Fin b)
    /\ a + 1 <= b.
Proof.
  intros Hf Hin Hq. induction l as [| p l IH]; intros a; [destruct Hin |].
  cbn [fold_left]. destruct Hin as [-> | Hin].
  - rewrite Hq. destruct (fold_bump_bounded f l Hf (a + 1)) as (b & Hb & Hab).
    exists b. split; [exact Hb | lra].
  - destruct (f p) as [v |] eqn:Hp.
    + pose proof (Hf p v Hp) as Hv. destruct v as [x | | |]; try contradiction.
      simpl in Hv. destruct (IH Hin (a + x)) as (b & Hb & Hab).
      exists b. split; [exact Hb | lra].
    + destruct (IH Hin a) as (b & Hb & Hab). exists b. split; [exact Hb | lra].
Qed.

Lemma contribution_unit (weight : Z -> Z -> option float64)
    (height width : Z) (lat_min lon_min unit_size : R) (max_distance : Z)
    (r c : nat) (p : R * R) (v : float64) :
  (forall i j w, weight i j = Some w -> unit_weight w) ->
  contribution_of weight height width lat_min lon_min unit_size max_distance
                  r c p = Some v ->
  unit_weight v.
Proof.
  intros Hw. unfold contribution_of.
  destruct (cell_of lat_min lon_min unit_size p) as [row col].
  unfold contribution. destruct (decide _); [apply Hw | discriminate].
Qed.

Lemma contribution_own_cell (weight : Z -> Z -> option float64)
    (height width : Z) (lat_min lon_min unit_size : R) (max_distance : Z)
    (p : R * R) :
  let row := fst (cell_of lat_min lon_min unit_size p) in
  let col := snd (cell_of lat_min lon_min unit_size p) in
  (0 <= max_distance)%Z -> (0 <= row < height)%Z -> (0 <= col < width)%Z ->
  contribution_of weight height width lat_min lon_min unit_size max_distance
                  (Z.to_nat row) (Z.to_nat col) p
  = weight 0%Z 0%Z.
Proof.
  intros row col Hd Hrow Hcol. unfold contribution_of.
  destruct (cell_of lat_min lon_min unit_size p) as [row' col'] eqn:Hcell.
  simpl in row, col. subst row col.
  rewrite contribution_in_window by lia.
  now rewrite !Z2Nat.id, !Z.sub_diag by lia.
Qed.

(** What the loop over the points leaves in an array of zeros, for weights
    between 0 and 1. *)
Lemma exposure (weight : Z -> Z -> option float64) (h w : Z) (grid : ndarray)
    (latitudes longitudes : list R) (lat_min lon_min unit_size : R)
    (max_distance : Z) :
  unit_size <> 0 -> zeros h w = Py.Ok grid -> shape grid = (h, w) ->
  (forall i j v, weight i j = Some v -> unit_weight v) ->
  exists grid',
    apply_points weight grid latitudes longitudes lat_min lon_min unit_size
                 max_distance = Py.Ok grid'
    /\ shape grid' = (h, w)
    /\ (forall r c, (Z.of_nat r < h)%Z -> (Z.of_nat c < w)%Z ->
          exists v, cell grid' r c = Some (Fin v)
                    /\ 0 <= v <= INR (length (combine latitudes longitudes)))
    /\ (weight 0%Z 0%Z = Some (Fin 1) -> (0 <= max_distance)%Z ->
        forall p, In p (combine latitudes longitudes) ->
          let row := fst (cell_of lat_min lon_min unit_size p) in
          let col := snd (cell_of lat_min lon_min unit_size p) in
          (0 <= row < h)%Z -> (0 <= col < w)%Z ->
          exists v, cell grid' (Z.to_nat row) (Z.to_nat col) = Some (Fin v)
                    /\ 1 <= v).
Proof.
  intros Hu Hzeros Hshape Hw.
  destruct (apply_points_spec weight lat_min lon_min unit_size max_distance
              grid latitudes longitudes Hu) as (grid' & Hrun & Hshape' & Hcells).
  rewrite Hshape in Hshape', Hcells. simpl in Hcells.
  exists grid'. split; [exact Hrun |]. split; [exact Hshape' |]. split.
  - intros r c Hr Hc. rewrite Hcells.
    destruct (zeros_spec h w grid Hzeros) as [_ Hz].
    destruct (Hz r c Hr Hc) as (-> & _).
    destruct (fold_bump_bounded
                (contribution_of weight h w lat_min lon_min unit_size
                                 max_distance r c)
                (combine latitudes longitudes)
                (fun p v => contribution_unit weight h w lat_min lon_min
                              unit_size max_distance r c p v Hw) 0)
      as (b & Hb & Hab).
    exists b. split; [exact Hb | lra].
  - intros Hown Hd p Hp row col Hrow Hcol. rewrite Hcells.
    destruct (zeros_spec h w grid Hzeros) as [_ Hz].
    destruct (Hz (Z.to_nat row) (Z.to_nat col)) as (-> & _); [lia | lia |].
    destruct (fold_bump_hit
                (contribution_of weight h w lat_min lon_min unit_size
                                 max_distance (Z.to_nat row) (Z.to_nat col))
                (combine latitudes longitudes) p
                (fun p v => contribution_unit weight h w lat_min lon_min
                              unit_size max_distance _ _ p v Hw) Hp)
      with (a := 0) as (b & Hb & Hab).
    + rewrite <- Hown. now apply contribution_own_cell.
    + exists b. split; [exact Hb | lra].
Qed.

Lemma weight_unit (max_distance i j : Z) (v : float64) :
  ColdestSpot.weight max_distance i j = Some v -> unit_weight v.
Proof.
  unfold ColdestSpot.weight. destruct (Rle_dec _ _); [| discriminate].
  intros [= <-]. simpl.
  rewrite trunc_nonneg by apply sqrt_pos.
  pose proof (Int_part_nonneg _ (sqrt_pos (IZR (i ^ 2 + j ^ 2)))) as Hk.
  assert (Hpow : 1 <= IZR (2 ^ Int_part (sqrt (IZR (i ^ 2 + j ^ 2))))).
  { apply IZR_le. pose proof (Z.pow_pos_nonneg 2 _ eq_refl Hk). lia. }
  split.
  - apply Rmult_le_pos; [lra | left; apply Rinv_0_lt_compat; lra].
  - apply (Rmult_le_reg_r (IZR (2 ^ Int_part (sqrt (IZR (i ^ 2 + j ^ 2))))));
      [lra |].
    unfold Rdiv. rewrite Rmult_assoc, Rinv_l by lra. lra.
Qed.

Lemma weight_own_cell (max_distance : Z) :
  (0 <= max_distance)%Z ->
  ColdestSpot.weight max_distance 0 0 = Some (Fin 1).
Proof.
  intros Hd. unfold ColdestSpot.weight.
  change (IZR (0 ^ 2 + 0 ^ 2)) with 0. rewrite sqrt_0, trunc_0.
  destruct (Rle_dec 0 (IZR max_distance)) as [_ | H];
    [| exfalso; apply H; now apply IZR_le].
  do 2 f_equal. simpl. lra.
Qed.

Lemma weight4_unit (unit_size : R) (influence_latlong : R * R) (i j : Z)
    (v : float64) :
  0 < unit_size ->
  0 <= Rmax (fst influence_latlong) (snd influence_latlong) ->
  ColdestSpot4.weight unit_size influence_latlong i j = Some v ->
  unit_weight v.
Proof.
  intros Hu Hm. unfold ColdestSpot4.weight, true_divide.
  set (m := Rmax _ _) in *.
  pose proof (sqrt_pos (IZR (i ^ 2 + j ^ 2))) as Hs.
  set (d := sqrt _) in *.
  assert (Ha : 0 <= d * unit_size) by (apply Rmult_le_pos; lra).
  destruct (Req_dec_T m 0) as [Hm0 | Hm0].
  - destruct (Rlt_dec 0 (d * unit_size)); [discriminate |].
    destruct (Rlt_dec (d * unit_size) 0); [lra | discriminate].
  - assert (Hq : 0 <= d * unit_size / m).
    { apply Rmult_le_pos; [exact Ha | left; apply Rinv_0_lt_compat; lra]. }
    destruct (Rle_dec _ 1); [| discriminate].
    intros [= <-]. simpl. destruct (Rgt_dec _ 0); lra.
Qed.

Lemma weight4_own_cell (unit_size : R) (influence_latlong : R * R) :
  0 < Rmax (fst influence_latlong) (snd influence_latlong) ->
  ColdestSpot4.weight unit_size influence_latlong 0 0 = Some (Fin 1).
Proof.
  intros Hm. unfold ColdestSpot4.weight, true_divide.
  set (m := Rmax _ _) in *.
  change (IZR (0 ^ 2 + 0 ^ 2)) with 0. rewrite sqrt_0.
  destruct (Req_dec_T m 0); [lra |].
  replace (0 * unit_size / m) with 0 by (unfold Rdiv; ring).
  destruct (Rle_dec 0 1); [| lra].
  destruct (Rgt_dec (1 - 0) 0); [| lra].
  do 2 f_equal. lra.
Qed.

End Exposure.

Section Pipelines.

Lemma create_grid_returns (latitudes longitudes : list R) (unit_size : R) :
  latitudes <> [] -> longitudes <> [] -> 0 < unit_size ->
  exists grid lat_min lon_min h w,
    ColdestSpot.create_grid latitudes longitudes unit_size
    = Py.Ok (grid, lat_min, lon_min, h, w)
    /\ zeros h w = Py.Ok grid /\ shape grid = (h, w)
    /\ (forall lat lon, In lat latitudes -> In lon longitudes ->
          (0 <= fst (cell_of lat_min lon_min unit_size (lat, lon)) < h)%Z
          /\ (0 <= snd (cell_of lat_min lon_min unit_size (lat, lon)) < w)%Z).
Proof.
  intros Hlat Hlon Hu.
  destruct (grid_dimensions latitudes longitudes unit_size Hlat Hlon Hu)
    as (lat_min & lat_max & lon_min & lon_max & grid & Hmin_lat & Hmax_lat
        & Hmin_lon & Hmax_lon & _ & _ & Hlats & Hlons & Hgrid & Hshape & _).
  assert (Hu0 : unit_size <> 0) by lra.
  exists grid, lat_min, lon_min. eexists. eexists.
  split; [| split; [exact Hgrid | split; [exact Hshape |]]].
  - unfold ColdestSpot.create_grid.
    rewrite Hmin_lat, Hmax_lat, Hmin_lon, Hmax_lon. run_binds.
    rewrite !to_int_quotient by exact Hu0. run_binds.
    rewrite Hgrid. reflexivity.
  - intros lat lon Hlat' Hlon'. unfold cell_of. simpl. split.
    + apply index_within; [exact Hu | now apply Hlats].
    + apply index_within; [exact Hu | now apply Hlons].
Qed.

Lemma create_grid4_returns (latitudes longitudes : list R)
    (unit_size center_lat center_lon radius_meters : R) :
  latitudes <> [] -> longitudes <> [] -> 0 < unit_size ->
  exists grid lat_min lon_min h w center_row center_col,
    ColdestSpot4.create_grid latitudes longitudes unit_size
      center_lat center_lon radius_meters
    = Py.Ok (grid, lat_min, lon_min, h, w, center_row, center_col,
             radius_meters)
    /\ zeros h w = Py.Ok grid /\ shape grid = (h, w)
    /\ (forall lat lon, In lat latitudes -> In lon longitudes ->
          (0 <= fst (cell_of lat_min lon_min unit_size (lat, lon)) < h)%Z
          /\ (0 <= snd (cell_of lat_min lon_min unit_size (lat, lon)) < w)%Z).
Proof.
  intros Hlat Hlon Hu.
  destruct (grid_dimensions latitudes longitudes unit_size Hlat Hlon Hu)
    as (lat_min & lat_max & lon_min & lon_max & grid & Hmin_lat & Hmax_lat
        & Hmin_lon & Hmax_lon & _ & _ & Hlats & Hlons & Hgrid & Hshape & _).
  assert (Hu0 : unit_size <> 0) by lra.
  exists grid, lat_min, lon_min. do 4 eexists.
  split; [| split; [exact Hgrid | split; [exact Hshape |]]].
  - unfold ColdestSpot4.create_grid.
    rewrite Hmin_lat, Hmax_lat, Hmin_lon, Hmax_lon. run_binds.
    rewrite !to_int_quotient by exact Hu0. run_binds.
    rewrite Hgrid. run_binds.
    rewrite !cell_index_nonzero by exact Hu0. reflexivity.
  - intros lat lon Hlat' Hlon'. unfold cell_of. simpl. split.
    + apply index_within; [exact Hu | now apply Hlats].
    + apply index_within; [exact Hu | now apply Hlons].
Qed.

End Pipelines.

(** X16.  find_coldest_spot.py, [create_grid] followed by
    [apply_points_to_grid], for a positive [unit_size] and non-empty
    coordinate lists: both return, every cell of the grid ends with a finite
    value between 0 and the number of points, and, when [max_distance] is
    not negative, the cell of every point ends with a value of at least
    1. *)
Theorem heat_is_bounded_by_the_number_of_points
    (latitudes longitudes : list R) (unit_size : R) (max_distance : Z) :
  latitudes <> [] -> longitudes <> [] -> 0 < unit_size ->
  exists grid lat_min lon_min h w grid',
    ColdestSpot.create_grid latitudes longitudes unit_size
    = Py.Ok (grid, lat_min, lon_min, h, w)
    /\ ColdestSpot.apply_points_to_grid grid latitudes longitudes
         lat_min lon_min unit_size max_distance = Py.Ok grid'
    /\ shape grid' = (h, w)
    /\ (forall r c, (Z.of_nat r < h)%Z -> (Z.of_nat c < w)%Z ->
          exists v, cell grid' r c = Some (Fin v)
                    /\ 0 <= v <= INR (length (combine latitudes longitudes)))
    /\ ((0 <= max_distance)%Z ->
        forall p, In p (combine latitudes longitudes) ->
          exists v,
            cell grid'
              (Z.to_nat (fst (cell_of lat_min lon_min unit_size p)))
              (Z.to_nat (snd (cell_of lat_min lon_min unit_size p)))
            = Some (Fin v)
            /\ 1 <= v).
Proof.
  intros Hlat Hlon Hu.
  destruct (create_grid_returns latitudes longitudes unit_size Hlat Hlon Hu)
    as (grid & lat_min & lon_min & h & w & Hcreate & Hzeros & Hshape & Hin).
  destruct (exposure (ColdestSpot.weight max_distance) h w grid
              latitudes longitudes lat_min lon_min unit_size max_distance)
    as (grid' & Hrun & Hshape' & Hall & Hown);
    [lra | exact Hzeros | exact Hshape | apply weight_unit |].
  exists grid, lat_min, lon_min, h, w, grid'.
  split; [exact Hcreate |]. split; [exact Hrun |]. split; [exact Hshape' |].
  split; [exact Hall |].
  intros Hd [lat lon] Hp.
  destruct (Hin lat lon (in_combine_l _ _ _ _ Hp) (in_combine_r _ _ _ _ Hp)).
  now apply (Hown (weight_own_cell max_distance Hd) Hd (lat, lon) Hp).
Qed.

Lemma heat_is_bounded_by_the_number_of_points_witness :
  exists grid lat_min lon_min h w grid',
    ColdestSpot.create_grid [0; 3] [0; 1] 1
    = Py.Ok (grid, lat_min, lon_min, h, w)
    /\ ColdestSpot.apply_points_to_grid grid [0; 3] [0; 1]
         lat_min lon_min 1 10 = Py.Ok grid'
    /\ shape grid' = (h, w)
    /\ (forall r c, (Z.of_nat r < h)%Z -> (Z.of_nat c < w)%Z ->
          exists v, cell grid' r c = Some (Fin v)
                    /\ 0 <= v <= INR (length (combine [0; 3] [0; 1])))
    /\ ((0 <= 10)%Z ->
        forall p, In p (combine [0; 3] [0; 1]) ->
          exists v,
            cell grid'
              (Z.to_nat (fst (cell_of lat_min lon_min 1 p)))
              (Z.to_nat (snd (cell_of lat_min lon_min 1 p)))
            = Some (Fin v)
            /\ 1 <= v).
Proof.
  apply (heat_is_bounded_by_the_number_of_points [0; 3] [0; 1] 1 10);
    [discriminate | discriminate | lra].
Defined.

(** X17.  find_coldest_spot_4.py, [create_grid] followed by
    [apply_points_to_grid], for a positive [unit_size] and non-empty
    coordinate lists: both return, every cell of the grid ends with a finite
    value between 0 and the number of points, and, when the influence radius
    is positive in degrees and [max_distance_cells] is not negative, the
    cell of every point ends with a value of at least 1. *)
Theorem linear_heat_is_bounded_by_the_number_of_points
    (destination : R -> coord -> R -> coord)
    (latitudes longitudes : list R)
    (unit_size center_lat center_lon radius_meters influence_meters : R)
    (max_distance_cells : Z) :
  latitudes <> [] -> longitudes <> [] -> 0 < unit_size ->
  exists grid lat_min lon_min h w center_row center_col grid',
    ColdestSpot4.create_grid latitudes longitudes unit_size
      center_lat center_lon radius_meters
    = Py.Ok (grid, lat_min, lon_min, h, w, center_row, center_col,
             radius_meters)
    /\ ColdestSpot4.apply_points_to_grid destination grid latitudes longitudes
         lat_min lon_min unit_size influence_meters max_distance_cells
       = Py.Ok grid'
    /\ shape grid' = (h, w)
    /\ (forall r c, (Z.of_nat r < h)%Z -> (Z.of_nat c < w)%Z ->
          exists v, cell grid' r c = Some (Fin v)
                    /\ 0 <= v <= INR (length (combine latitudes longitudes)))
    /\ (0 < Rmax (fst (ColdestSpot4.meters_to_latlong destination
                         lat_min lon_min influence_meters))
                 (snd (ColdestSpot4.meters_to_latlong destination
                         lat_min lon_min influence_meters)) ->
        (0 <= max_distance_cells)%Z ->
        forall p, In p (combine latitudes longitudes) ->
          exists v,
            cell grid'
              (Z.to_nat (fst (cell_of lat_min lon_min unit_size p)))
              (Z.to_nat (snd (cell_of lat_min lon_min unit_size p)))
            = Some (Fin v)
            /\ 1 <= v).
Proof.
  intros Hlat Hlon Hu.
  destruct (create_grid4_returns latitudes longitudes unit_size
              center_lat center_lon radius_meters Hlat Hlon Hu)
    as (grid & lat_min & lon_min & h & w & center_row & center_col
        & Hcreate & Hzeros & Hshape & Hin).
  destruct (exposure
              (ColdestSpot4.weight unit_size
                 (ColdestSpot4.meters_to_latlong destination lat_min lon_min
                    influence_meters))
              h w grid latitudes longitudes lat_min lon_min unit_size
              max_distance_cells)
    as (grid' & Hrun & Hshape' & Hall & Hown);
    [lra | exact Hzeros | exact Hshape | |].
  { intros i j v. apply weight4_unit; [exact Hu |].
    apply meters_to_latlong_nonneg. }
  exists grid, lat_min, lon_min, h, w, center_row, center_col, grid'.
  split; [exact Hcreate |]. split; [exact Hrun |]. split; [exact Hshape' |].
  split; [exact Hall |].
  intros Hm Hd [lat lon] Hp.
  destruct (Hin lat lon (in_combine_l _ _ _ _ Hp) (in_combine_r _ _ _ _ Hp)).
  now apply (Hown (weight4_own_cell unit_size _ Hm) Hd (lat, lon) Hp).
Qed.

Lemma linear_heat_is_bounded_by_the_number_of_points_witness :
  exists grid lat_min lon_min h w center_row center_col grid',
    ColdestSpot4.create_grid [0; 3] [0; 1] 1 0 0 100
    = Py.Ok (grid, lat_min, lon_min, h, w, center_row, center_col, 100)
    /\ ColdestSpot4.apply_points_to_grid due_north grid [0; 3] [0; 1]
         lat_min lon_min 1 2 10
       = Py.Ok grid'
    /\ shape grid' = (h, w)
    /\ (forall r c, (Z.of_nat r < h)%Z -> (Z.of_nat c < w)%Z ->
          exists v, cell grid' r c = Some (Fin v)
                    /\ 0 <= v <= INR (length (combine [0; 3] [0; 1])))
    /\ (0 < Rmax (fst (ColdestSpot4.meters_to_latlong due_north
                         lat_min lon_min 2))
                 (snd (ColdestSpot4.meters_to_latlong due_north
                         lat_min lon_min 2)) ->
        (0 <= 10)%Z ->
        forall p, In p (combine [0; 3] [0; 1]) ->
          exists v,
            cell grid'
              (Z.to_nat (fst (cell_of lat_min lon_min 1 p)))
              (Z.to_nat (snd (cell_of lat_min lon_min 1 p)))
            = Some (Fin v)
            /\ 1 <= v).
Proof.
  apply (linear_heat_is_bounded_by_the_number_of_points due_north
           [0; 3] [0; 1] 1 0 0 100 2 10);
    [discriminate | discriminate | lra].
Defined.

Section ZeroInfluence.

Lemma weight4_zero_influence (unit_size : R) (influence_latlong : R * R)
    (i j : Z) :
  0 < unit_size ->
  Rmax (fst influence_latlong) (snd influence_latlong) = 0 ->
  ColdestSpot4.weight unit_size influence_latlong i j = None.
Proof.
  intros Hu Hm. unfold ColdestSpot4.weight, true_divide. rewrite Hm.
  pose proof (sqrt_pos (IZR (i ^ 2 + j ^ 2))) as Hs.
  set (d := sqrt _) in *.
  assert (Ha : 0 <= d * unit_size) by (apply Rmult_le_pos; lra).
  destruct (Req_dec_T 0 0); [| congruence].
  destruct (Rlt_dec 0 (d * unit_size)); [reflexivity |].
  destruct (Rlt_dec (d * unit_size) 0); [lra | reflexivity].
Qed.

End ZeroInfluence.

(** X18.  In find_coldest_spot_4.py an influence radius of zero degrees (an
    influence of 0 meters) makes every distance a division by zero, which
    numpy answers with [inf] or, at the cell of the point itself, [nan]:
    the test [distance <= 1] fails everywhere, [apply_points_to_grid] returns
    without an error and no cell of the array has changed, not even the
    cells the points lie in. *)
Theorem zero_influence_leaves_the_grid_untouched
    (destination : R -> coord -> R -> coord) (grid : ndarray)
    (latitudes longitudes : list R)
    (lat_min lon_min unit_size influence_meters : R)
    (max_distance_cells : Z) :
  0 < unit_size ->
  Rmax (fst (ColdestSpot4.meters_to_latlong destination lat_min lon_min
               influence_meters))
       (snd (ColdestSpot4.meters_to_latlong destination lat_min lon_min
               influence_meters)) = 0 ->
  exists grid',
    ColdestSpot4.apply_points_to_grid destination grid latitudes longitudes
      lat_min lon_min unit_size influence_meters max_distance_cells
    = Py.Ok grid'
    /\ shape grid' = shape grid
    /\ forall r c, cell grid' r c = cell grid r c.
Proof.
  intros Hu Hm. unfold ColdestSpot4.apply_points_to_grid.
  destruct (apply_points_spec
              (ColdestSpot4.weight unit_size
                 (ColdestSpot4.meters_to_latlong destination lat_min lon_min
                    influence_meters))
              lat_min lon_min unit_size max_distance_cells
              grid latitudes longitudes) as (grid' & Hrun & Hshape & Hcells);
    [lra |].
  exists grid'. split; [exact Hrun |]. split; [exact Hshape |].
  intros r c. rewrite Hcells. apply fold_bump_none.
  intros p _. unfold contribution_of.
  destruct (cell_of lat_min lon_min unit_size p) as [row col].
  apply contribution_none. now apply weight4_zero_influence.
Qed.

Lemma zero_influence_leaves_the_grid_untouched_witness :
  exists grid',
    ColdestSpot4.apply_points_to_grid due_north zeros_2x2 [0; 1] [0; 1]
      0 0 1 0 10
    = Py.Ok grid'
    /\ shape grid' = shape zeros_2x2
    /\ forall r c, cell grid' r c = cell zeros_2x2 r c.
Proof.
  apply (zero_influence_leaves_the_grid_untouched due_north zeros_2x2
           [0; 1] [0; 1] 0 0 1 0 10); [lra |].
  unfold ColdestSpot4.meters_to_latlong, due_north. simpl.
  replace (0 + 0 - 0) with 0 by lra. replace (0 - 0) with 0 by lra.
  rewrite Rabs_R0. apply Rmax_left. lra.
Defined.

(** ** The coldest point *)

Section Loops.

Lemma range_loop {S : Type} (body : S -> Z -> Py.result S)
    (I : Z -> S -> Prop) (hi : Z) :
  forall (n : nat) (lo : Z) (s : S),
    Z.to_nat (hi - lo) = n -> (lo <= hi)%Z ->
    (forall k s, (lo <= k < hi)%Z -> I k s ->
       exists s', body s k = Py.Ok s' /\ I (k + 1)%Z s') ->
    I lo s ->
    exists s', Py.for_each body (Py.range lo hi) s = Py.Ok s' /\ I hi s'.
Proof.
  induction n as [| n IH]; intros lo s Hn Hle Hstep Hs.
  - rewrite (range_nil lo hi) by lia. exists s. split; [reflexivity |].
    now replace hi with lo by lia.
  - rewrite (range_cons lo hi) by lia. rewrite for_each_cons.
    destruct (Hstep lo s) as (s1 & Hrun & Hs1); [lia | exact Hs |].
    rewrite Hrun. cbn [Py.bind].
    apply IH; [lia | lia | | exact Hs1].
    intros k s0 Hk. apply Hstep. lia.
Qed.

End Loops.

Section LinearScan.

Variable grid : ndarray.
Variables center_row center_col : Z.
Variable unit_size : R.
Variable radius_latlong : R * R.
Variables h w : Z.

Hypothesis Hshape : shape grid = (h, w).
Hypothesis Hrect : rectangular grid w.

Local Abbreviation cand :=
  (candidate grid center_row center_col unit_size radius_latlong).

Lemma height_is_length : Z.of_nat (length grid) = h.
Proof. unfold shape in Hshape. now injection Hshape. Qed.

Lemma cell_in_grid (r c : nat) (v : float64) :
  cell grid r c = Some v -> (Z.of_nat r < h)%Z /\ (Z.of_nat c < w)%Z.
Proof.
  unfold cell. destruct (grid !! r) as [row |] eqn:Hrow; [| discriminate].
  simpl. intros Hc.
  pose proof (lookup_lt_Some _ _ _ Hrow) as Hr.
  pose proof (lookup_lt_Some _ _ _ Hc) as Hc'.
  pose proof (Forall_lookup_1 _ _ _ _ Hrect Hrow) as Hlen. simpl in Hlen.
  pose proof height_is_length. lia.
Qed.

Lemma getitem_in_bounds (i j : Z) :
  (0 <= i < h)%Z -> (0 <= j < w)%Z ->
  exists v, getitem grid i j = Py.Ok v
            /\ cell grid (Z.to_nat i) (Z.to_nat j) = Some v.
Proof.
  intros Hi Hj. pose proof height_is_length as Hh.
  unfold getitem. rewrite index_in_bounds by lia. run_binds.
  destruct (grid !! Z.to_nat i) as [row |] eqn:Hrow.
  2: { apply lookup_ge_None in Hrow. lia. }
  pose proof (Forall_lookup_1 _ _ _ _ Hrect Hrow) as Hlen. simpl in Hlen.
  rewrite index_in_bounds by lia. run_binds.
  destruct (row !! Z.to_nat j) as [v |] eqn:Hv.
  2: { apply lookup_ge_None in Hv. lia. }
  exists v. split; [reflexivity |]. unfold cell. rewrite Hrow. exact Hv.
Qed.

Lemma scanned_next (i j : Z) (r c : nat) :
  (0 <= j < w)%Z ->
  scanned w i (j + 1) r c
  <-> scanned w i j r c \/ (Z.of_nat r = i /\ Z.of_nat c = j).
Proof. unfold scanned. lia. Qed.

Lemma scanned_next_row (i : Z) (r c : nat) :
  (0 <= w)%Z -> scanned w (i + 1) 0 r c <-> scanned w i w r c.
Proof. unfold scanned. lia. Qed.

(** The scan leaves [best] as it is: legitimate when the cell reached is no
    candidate, or holds no less than the best so far. *)
Lemma scan_keeps (i j : Z) (best : float64 * option (Z * Z)) :
  (0 <= j < w)%Z ->
  scan_invariant cand w i j best ->
  (forall r c x, Z.of_nat r = i -> Z.of_nat c = j -> cand r c x ->
     exists x0, fst best = Fin x0 /\ x0 <= x) ->
  scan_invariant cand w i (j + 1) best.
Proof.
  intros Hj Hinv Hnew. unfold scan_invariant in *.
  destruct (snd best) as [[i0 j0] |].
  - destruct Hinv as (r0 & c0 & x0 & -> & -> & Hbest & Hin & Hcand & Hmin).
    exists r0, c0, x0.
    split; [reflexivity |]. split; [reflexivity |]. split; [exact Hbest |].
    split; [apply scanned_next; [exact Hj | now left] |].
    split; [exact Hcand |].
    intros r c x Hs Hc.
    apply scanned_next in Hs; [| exact Hj]. destruct Hs as [Hs | [Hr Hc']].
    + exact (Hmin r c x Hs Hc).
    + destruct (Hnew r c x Hr Hc' Hc) as (x1 & Hx1 & Hle).
      rewrite Hbest in Hx1. injection Hx1 as <-. split; [exact Hle |].
      intros Hbefore. exfalso. unfold scanned, row_major_before in *. lia.
  - destruct Hinv as [Hbest Hnone]. split; [exact Hbest |].
    intros r c x Hs Hc.
    apply scanned_next in Hs; [| exact Hj]. destruct Hs as [Hs | [Hr Hc']].
    + exact (Hnone r c x Hs Hc).
    + destruct (Hnew r c x Hr Hc' Hc) as (x1 & Hx1 & _).
      rewrite Hbest in Hx1. discriminate.
Qed.

(** The scan replaces [best] by the cell reached: a candidate that holds
    less than the best so far. *)
Lemma scan_takes (i j : Z) (best : float64 * option (Z * Z)) (x : R) :
  (0 <= i)%Z -> (0 <= j < w)%Z ->
  scan_invariant cand w i j best ->
  cand (Z.to_nat i) (Z.to_nat j) x ->
  ltb (Fin x) (fst best) = true ->
  scan_invariant cand w i (j + 1) (Fin x, Some (i, j)).
Proof.
  intros Hi Hj Hinv Hcand Hlt. unfold scan_invariant in *. simpl.
  exists (Z.to_nat i), (Z.to_nat j), x.
  split; [lia |]. split; [lia |]. split; [reflexivity |].
  assert (Hsame : forall r c x', Z.of_nat r = i -> Z.of_nat c = j ->
                    cand r c x' -> x' = x).
  { intros r c x' Hr Hc [Hcell _]. destruct Hcand as [Hcell' _].
    replace (Z.to_nat i) with r in Hcell' by lia.
    replace (Z.to_nat j) with c in Hcell' by lia. congruence. }
  split; [apply scanned_next; [exact Hj | right; lia] |].
  split; [exact Hcand |].
  intros r c x' Hs Hc.
  apply scanned_next in Hs; [| exact Hj]. destruct Hs as [Hs | [Hr Hc']].
  - destruct (snd best) as [[i0 j0] |].
    + destruct Hinv as (r0 & c0 & x0 & _ & _ & Hbest & _ & _ & Hmin).
      rewrite Hbest in Hlt. simpl in Hlt.
      destruct (Rlt_dec x x0); [| discriminate].
      destruct (Hmin r c x' Hs Hc) as [Hle _]. split; [lra | intros _; lra].
    + destruct Hinv as [_ Hnone]. destruct (Hnone r c x' Hs Hc).
  - rewrite (Hsame r c x' Hr Hc' Hc). split; [lra |].
    unfold row_major_before. lia.
Qed.

Lemma scan_step (i j : Z) (best : float64 * option (Z * Z)) :
  (0 <= i < h)%Z -> (0 <= j < w)%Z ->
  scan_invariant cand w i j best ->
  exists best',
    ColdestSpot4.scan_body grid center_row center_col unit_size
      radius_latlong i best j = Py.Ok best'
    /\ scan_invariant cand w i (j + 1) best'.
Proof.
  intros Hi Hj Hinv.
  destruct (getitem_in_bounds i j Hi Hj) as (v & Hget & Hcell).
  unfold ColdestSpot4.scan_body. rewrite Hget. run_binds.
  assert (Hthis : forall r c x, Z.of_nat r = i -> Z.of_nat c = j ->
                    cand r c x ->
                    v = Fin x /\ 0 < x
                    /\ ColdestSpot4.in_radius center_row center_col unit_size
                         radius_latlong i j = true).
  { intros r c x Hr Hc (Hcell' & Hx & Hin). subst i j.
    rewrite !Nat2Z.id in Hcell. split; [congruence |]. now split. }
  destruct (ltb (Fin 0) v) eqn:Hpos.
  2: { eexists. split; [reflexivity |]. apply scan_keeps; auto.
       intros r c x Hr Hc Hcand.
       destruct (Hthis r c x Hr Hc Hcand) as (-> & Hx & _).
       simpl in Hpos. destruct (Rlt_dec 0 x); [discriminate | lra]. }
  destruct (ColdestSpot4.in_radius _ _ _ _ i j) eqn:Hin.
  2: { eexists. split; [reflexivity |]. apply scan_keeps; auto.
       intros r c x Hr Hc Hcand.
       destruct (Hthis r c x Hr Hc Hcand) as (_ & _ & Habs). discriminate. }
  destruct (ltb v (fst best)) eqn:Hlt.
  - eexists. split; [reflexivity |].
    destruct v as [x | | |]; try discriminate; try (now destruct (fst best)).
    apply (scan_takes i j best x); auto; [lia |].
    split; [exact Hcell |]. split.
    + simpl in Hpos. now destruct (Rlt_dec 0 x).
    + now rewrite !Z2Nat.id by lia.
  - eexists. split; [reflexivity |]. apply scan_keeps; auto.
    intros r c x Hr Hc Hcand.
    destruct (Hthis r c x Hr Hc Hcand) as (-> & Hx & _).
    unfold scan_invariant in Hinv.
    destruct (snd best) as [[i0 j0] |].
    + destruct Hinv as (r0 & c0 & x0 & _ & _ & Hbest & _).
      exists x0. split; [exact Hbest |]. rewrite Hbest in Hlt. simpl in Hlt.
      destruct (Rlt_dec x x0); [discriminate | lra].
    + destruct Hinv as [Hbest _]. rewrite Hbest in Hlt. discriminate.
Qed.

Lemma scan_row (i : Z) (best : float64 * option (Z * Z)) :
  (0 <= i < h)%Z -> (0 <= w)%Z ->
  scan_invariant cand w i 0 best ->
  exists best',
    Py.for_each
      (ColdestSpot4.scan_body grid center_row center_col unit_size
         radius_latlong i)
      (Py.range 0 w) best = Py.Ok best'
    /\ scan_invariant cand w (i + 1) 0 best'.
Proof.
  intros Hi Hw Hinv.
  destruct (range_loop
              (ColdestSpot4.scan_body grid center_row center_col unit_size
                 radius_latlong i)
              (fun j best => scan_invariant cand w i j best)
              w (Z.to_nat (w - 0)) 0%Z best eq_refl Hw)
    as (best' & Hrun & Hinv'); [| exact Hinv |].
  - intros j s Hj Hs. now apply scan_step.
  - exists best'. split; [exact Hrun |].
    unfold scan_invariant in *.
    destruct (snd best') as [[i0 j0] |].
    + destruct Hinv' as (r0 & c0 & x0 & Hi0 & Hj0 & Hbest & Hin & Hcand & Hmin).
      exists r0, c0, x0.
      split; [exact Hi0 |]. split; [exact Hj0 |]. split; [exact Hbest |].
      split; [now apply scanned_next_row |]. split; [exact Hcand |].
      intros r c x Hs. apply Hmin. now apply scanned_next_row.
    + destruct Hinv' as [Hbest Hnone]. split; [exact Hbest |].
      intros r c x Hs. apply Hnone. now apply scanned_next_row.
Qed.

Lemma scan_all :
  exists best,
    Py.for_each
      (fun best i =>
         Py.for_each
           (ColdestSpot4.scan_body grid center_row center_col unit_size
              radius_latlong i)
           (Py.range 0 w) best)
      (Py.range 0 h) (PInf, None) = Py.Ok best
    /\ scan_invariant cand w h 0 best.
Proof.
  assert (Hh : (0 <= h)%Z) by (pose proof height_is_length; lia).
  assert (Hw : (0 <= w)%Z).
  { unfold shape in Hshape. injection Hshape as _ Hw. lia. }
  apply (range_loop _ (fun i best => scan_invariant cand w i 0 best)
           h (Z.to_nat (h - 0)) 0%Z (PInf, None) eq_refl Hh).
  - intros i s Hi Hs. now apply scan_row.
  - unfold scan_invariant. simpl. split; [reflexivity |].
    intros r c x Hs. unfold scanned in Hs. lia.
Qed.

End LinearScan.

Section Radius.

Lemma in_radius_cells (center_row center_col : Z) (unit_size : R)
    (radius_latlong : R * R) (r c : nat) :
  0 < unit_size ->
  0 < Rmax (fst radius_latlong) (snd radius_latlong) ->
  ColdestSpot4.in_radius center_row center_col unit_size radius_latlong
    (Z.of_nat r) (Z.of_nat c) = true
  <-> cell_distance r c center_row center_col
      <= Rmax (fst radius_latlong) (snd radius_latlong) / unit_size.
Proof.
  intros Hu Hm. unfold ColdestSpot4.in_radius, cell_distance, true_divide.
  set (m := Rmax _ _) in *.
  replace ((center_row - Z.of_nat r) ^ 2 + (center_col - Z.of_nat c) ^ 2)%Z
    with ((Z.of_nat r - center_row) ^ 2 + (Z.of_nat c - center_col) ^ 2)%Z
    by ring.
  set (d := sqrt _).
  destruct (Req_dec_T m 0); [lra |]. simpl.
  assert (Heq : d * unit_size / m <= 1 <-> d <= m / unit_size).
  { split; intros H.
    - apply (Rmult_le_reg_r (unit_size / m));
        [apply Rdiv_lt_0_compat; lra |].
      replace (m / unit_size * (unit_size / m)) with 1 by (field; lra).
      replace (d * (unit_size / m)) with (d * unit_size / m) by (field; lra).
      exact H.
    - apply (Rmult_le_compat_r (unit_size / m)) in H;
        [| left; apply Rdiv_lt_0_compat; lra].
      replace (m / unit_size * (unit_size / m)) with 1 in H by (field; lra).
      replace (d * (unit_size / m)) with (d * unit_size / m) in H
        by (field; lra).
      exact H. }
  destruct (Rle_dec (d * unit_size / m) 1) as [Hle | Hgt].
  - split; [intros _; now apply Heq | reflexivity].
  - split; [discriminate | intros H; apply Heq in H; contradiction].
Qed.

End Radius.



Section FloatOrder.

Ltac float_cases :=
  simpl in *;
  repeat match goal with
         | H : context [Rlt_dec ?a ?b] |- _ => destruct (Rlt_dec a b)
         | H : context [Rle_dec ?a ?b] |- _ => destruct (Rle_dec a b)
         | |- context [Rlt_dec ?a ?b] => destruct (Rlt_dec a b)
         | |- context [Rle_dec ?a ?b] => destruct (Rle_dec a b)
         end;
  try discriminate; try reflexivity; try contradiction; try lra; auto.

Lemma leb_le (u v : float64) : leb u v = true <-> le u v.
Proof. destruct u, v; split; intros H; float_cases. Qed.

Lemma ltb_not_le (u v : float64) : ltb u v = true -> ~ le v u.
Proof. destruct u, v; intros H; float_cases. Qed.

Lemma ltb_leb (u v : float64) : ltb u v = true -> leb u v = true.
Proof. destruct u, v; intros H; float_cases. Qed.

Lemma leb_refl (u : float64) : isnan u = false -> leb u u = true.
Proof. destruct u; intros H; float_cases. Qed.

Lemma not_leb_ltb (u v : float64) :
  isnan u = false -> isnan v = false -> leb u v = false -> ltb v u = true.
Proof. destruct u, v; intros Hu Hv H; float_cases. Qed.

Lemma ltb_leb_trans (a b c : float64) :
  ltb a b = true -> leb b c = true -> ltb a c = true.
Proof. destruct a, b, c; intros H1 H2; float_cases. Qed.

End FloatOrder.

Section ArgMin.

Lemma argmin_scan_spec (flat : list float64) (l : list float64) :
  Forall (fun v => isnan v = false) flat ->
  forall (pre : list float64) (mp : float64) (min_ind : nat),
    flat = pre ++ l -> flat !! min_ind = Some mp ->
    (min_ind < length pre)%nat ->
    (forall n v, (n < length pre)%nat -> flat !! n = Some v ->
       leb mp v = true /\ ((n < min_ind)%nat -> ltb mp v = true)) ->
    exists m,
      flat !! argmin_scan mp min_ind (length pre) l = Some m
      /\ forall n v, flat !! n = Some v ->
           leb m v = true
           /\ ((n < argmin_scan mp min_ind (length pre) l)%nat ->
               ltb m v = true).
Proof.
  intros Hnan.
  induction l as [| v l IH]; intros pre mp min_ind Hflat Hmp Hind Hinv.
  - simpl. exists mp. split; [exact Hmp |].
    intros n v Hv. apply Hinv; [| exact Hv].
    apply lookup_lt_Some in Hv. rewrite Hflat, app_nil_r in Hv. exact Hv.
  - assert (Hv : flat !! length pre = Some v).
    { rewrite Hflat. now apply list_lookup_middle. }
    assert (Hflat' : flat = (pre ++ [v]) ++ l) by now rewrite <- app_assoc.
    assert (Hlen : length (pre ++ [v]) = S (length pre)).
    { rewrite length_app. simpl. lia. }
    pose proof (Forall_lookup_1 _ _ _ _ Hnan Hv) as Hv_nan.
    pose proof (Forall_lookup_1 _ _ _ _ Hnan Hmp) as Hmp_nan.
    simpl in Hv_nan, Hmp_nan. cbn [argmin_scan].
    destruct (leb mp v) eqn:Hle.
    + rewrite <- Hlen. apply IH; [exact Hflat' | exact Hmp | lia |].
      intros n v' Hn Hv'. rewrite Hlen in Hn.
      destruct (decide (n = length pre)) as [-> | Hne].
      * rewrite Hv in Hv'. injection Hv' as <-. split; [exact Hle | lia].
      * apply Hinv; [lia | exact Hv'].
    + rewrite Hv_nan. rewrite <- Hlen.
      pose proof (not_leb_ltb mp v Hmp_nan Hv_nan Hle) as Hlt.
      apply IH; [exact Hflat' | exact Hv | lia |].
      intros n v' Hn Hv'. rewrite Hlen in Hn.
      destruct (decide (n = length pre)) as [-> | Hne].
      * rewrite Hv in Hv'. injection Hv' as <-.
        split; [now apply leb_refl | lia].
      * destruct (Hinv n v') as [Hle' _]; [lia | exact Hv' |].
        pose proof (ltb_leb_trans v mp v' Hlt Hle') as Hlt'.
        split; [now apply ltb_leb | intros _; exact Hlt'].
Qed.

Lemma argmin_spec (flat : list float64) :
  Forall (fun v => isnan v = false) flat ->
  flat <> [] ->
  exists k m,
    argmin flat = Py.Ok k /\ flat !! k = Some m
    /\ forall n v, flat !! n = Some v ->
         leb m v = true /\ ((n < k)%nat -> ltb m v = true).
Proof.
  intros Hnan Hne. destruct flat as [| v0 l]; [congruence |].
  pose proof (Forall_lookup_1 _ _ 0%nat v0 Hnan eq_refl) as Hv0.
  simpl in Hv0. unfold argmin. rewrite Hv0.
  destruct (argmin_scan_spec (v0 :: l) l Hnan [v0] v0 0%nat) as (m & Hm & Hmin).
  - reflexivity.
  - reflexivity.
  - simpl. lia.
  - intros n v Hn Hv. simpl in Hn. assert (n = 0%nat) as -> by lia.
    injection Hv as <-. split; [now apply leb_refl | lia].
  - exists (argmin_scan v0 0 1 l), m. split; [reflexivity |].
    split; [exact Hm | exact Hmin].
Qed.

End ArgMin.

Section Flatten.

Lemma concat_lookup (grid : ndarray) (w : nat) :
  Forall (fun row => length row = w) grid ->
  forall r c, (c < w)%nat -> concat grid !! (r * w + c)%nat = cell grid r c.
Proof.
  induction 1 as [| row rest Hrow _ IH]; intros r c Hc.
  - unfold cell. simpl. now rewrite !lookup_nil.
  - simpl. destruct r as [| r].
    + simpl. rewrite lookup_app_l by lia. reflexivity.
    + rewrite lookup_app_r by (rewrite Hrow; lia).
      replace (S r * w + c - length row)%nat with (r * w + c)%nat
        by (rewrite Hrow; lia).
      rewrite IH by exact Hc. reflexivity.
Qed.

Lemma concat_lookup_flat (grid : ndarray) (w : nat) :
  Forall (fun row => length row = w) grid -> (0 < w)%nat ->
  forall k, concat grid !! k = cell grid (k / w) (k mod w).
Proof.
  intros Hrect Hw k.
  rewrite <- (concat_lookup grid w Hrect) by (apply Nat.mod_upper_bound; lia).
  f_equal. pose proof (Nat.div_mod_eq k w). lia.
Qed.

Lemma rectangular_nat (grid : ndarray) (w : Z) :
  rectangular grid w ->
  Forall (fun row => length row = Z.to_nat w) grid.
Proof.
  unfold rectangular. intros H. eapply Forall_impl; [exact H |].
  intros row Hrow. simpl in Hrow. lia.
Qed.

Lemma concat_no_rows (grid : ndarray) (h w : Z) :
  shape grid = (h, w) -> rectangular grid w -> (h = 0 \/ w = 0)%Z ->
  concat grid = [].
Proof.
  intros Hshape Hrect [Hh | Hw].
  - unfold shape in Hshape. injection Hshape as Hlen _.
    destruct grid; [reflexivity | simpl in Hlen; lia].
  - subst w. clear Hshape.
    induction Hrect as [| row rest Hrow _ IH]; [reflexivity |].
    simpl. destruct row; [| simpl in Hrow; lia]. apply IH.
Qed.

End Flatten.

Section FirstMinimum.

Lemma coldest_cell_found (grid : ndarray) (lat_min lon_min unit_size : R)
    (h w : Z) :
  shape grid = (h, w) -> rectangular grid w ->
  (1 <= h)%Z -> (1 <= w)%Z ->
  (forall r c, cell grid r c <> Some NaN) ->
  exists r c v,
    ColdestSpot.find_coldest_point grid lat_min lon_min unit_size
    = Py.Ok (center_of lat_min lon_min unit_size r c)
    /\ cell grid r c = Some v
    /\ forall r' c' v', cell grid r' c' = Some v' ->
         le v v' /\ (row_major_before r' c' r c -> ~ le v' v).
Proof.
  intros Hshape Hrect Hh Hw Hnan.
  pose proof (rectangular_nat grid w Hrect) as Hrect'.
  assert (Hw' : (0 < Z.to_nat w)%nat) by lia.
  pose proof (concat_lookup_flat grid (Z.to_nat w) Hrect' Hw') as Hflat.
  destruct (argmin_spec (concat grid)) as (k & m & Hk & Hm & Hmin).
  - apply Forall_lookup_2. intros n v Hv. rewrite Hflat in Hv.
    destruct v; try reflexivity. now destruct (Hnan _ _ Hv).
  - intros Hnil. unfold shape in Hshape. injection Hshape as Hlen Hwid.
    destruct grid as [| row rest]; [simpl in Hlen; lia |].
    simpl in Hwid, Hnil. destruct row; [simpl in Hwid; lia | discriminate].
  - exists (k / Z.to_nat w)%nat, (k mod Z.to_nat w)%nat, m.
    split; [| split].
    + unfold ColdestSpot.find_coldest_point. rewrite Hk. run_binds.
      rewrite Hshape. unfold unravel_index, center_of. simpl.
      rewrite Nat2Z.inj_div, Nat2Z.inj_mod, Z2Nat.id by lia. reflexivity.
    + now rewrite <- Hflat.
    + intros r' c' v' Hcell.
      destruct (cell_in_grid grid h w Hshape Hrect r' c' v' Hcell) as [_ Hc'].
      rewrite <- (concat_lookup grid (Z.to_nat w) Hrect') in Hcell by lia.
      destruct (Hmin _ _ Hcell) as [Hle Hlt]. split; [now apply leb_le |].
      intros Hbefore. apply ltb_not_le, Hlt.
      pose proof (Nat.div_mod_eq k (Z.to_nat w)) as Hdiv.
      pose proof (Nat.mod_upper_bound k (Z.to_nat w)) as Hmod.
      unfold row_major_before in Hbefore. nia.
Qed.

End FirstMinimum.

(** X20.  [find_coldest_point] of find_coldest_spot.py, on a rectangular
    array that holds no [nan]: it returns the center of a cell that holds
    the least value of the array, and of all such cells the first one in
    row-major order.  On an array without elements [np.argmin] raises
    [ValueError]. *)
Theorem argmin_returns_the_first_coldest_cell
    (grid : ndarray) (lat_min lon_min unit_size : R) (h w : Z) :
  shape grid = (h, w) -> rectangular grid w ->
  ((h = 0 \/ w = 0)%Z ->
   ColdestSpot.find_coldest_point grid lat_min lon_min unit_size
   = Py.Raise Py.ValueError)
  /\ ((1 <= h)%Z -> (1 <= w)%Z ->
      (forall r c, cell grid r c <> Some NaN) ->
      exists r c v,
        ColdestSpot.find_coldest_point grid lat_min lon_min unit_size
        = Py.Ok (center_of lat_min lon_min unit_size r c)
        /\ cell grid r c = Some v
        /\ forall r' c' v', cell grid r' c' = Some v' ->
             le v v' /\ (row_major_before r' c' r c -> ~ le v' v)).
Proof.
  intros Hshape Hrect. split.
  - intros Hempty. unfold ColdestSpot.find_coldest_point.
    now rewrite (concat_no_rows grid h w Hshape Hrect Hempty).
  - now apply coldest_cell_found.
Qed.

Lemma argmin_returns_the_first_coldest_cell_witness :
  exists r c v,
    ColdestSpot.find_coldest_point [[Fin 3; Fin 1]; [Fin 1; Fin 2]] 0 0 1
    = Py.Ok (center_of 0 0 1 r c)
    /\ cell [[Fin 3; Fin 1]; [Fin 1; Fin 2]] r c = Some v
    /\ forall r' c' v',
         cell [[Fin 3; Fin 1]; [Fin 1; Fin 2]] r' c' = Some v' ->
         le v v' /\ (row_major_before r' c' r c -> ~ le v' v).
Proof.
  apply (argmin_returns_the_first_coldest_cell
           [[Fin 3; Fin 1]; [Fin 1; Fin 2]] 0 0 1 2 2);
    [reflexivity | repeat constructor | lia | lia |].
  intros [| [| r]] [| [| c]]; discriminate.
Defined.

(** ** The script of find_coldest_spot.py, end to end *)

Section Script.

Lemma zeros_outside (h w : Z) (grid : ndarray) (r c : nat) :
  zeros h w = Py.Ok grid ->
  (h <= Z.of_nat r)%Z \/ (w <= Z.of_nat c)%Z ->
  cell grid r c = None.
Proof.
  unfold zeros. destruct ((h <? 0)%Z || (w <? 0)%Z) eqn:Hneg; [discriminate |].
  apply orb_false_elim in Hneg as [Hh Hw].
  apply Z.ltb_ge in Hh. apply Z.ltb_ge in Hw.
  intros [= <-] Hout. unfold cell.
  destruct (replicate (Z.to_nat h) (replicate (Z.to_nat w) (Fin 0)) !! r)
    as [row |] eqn:Hrow; [| reflexivity].
  apply lookup_replicate in Hrow as [-> Hr]. simpl.
  destruct Hout as [Hout | Hout]; [lia |].
  apply lookup_replicate_None. lia.
Qed.

Lemma fold_bump_absent {A : Type} (f : A -> option float64) (l : list A) :
  fold_left (fun old p => bump (f p) old) l None = None.
Proof.
  induction l as [| p l IH]; [reflexivity |]. simpl.
  destruct (f p); exact IH.
Qed.

Lemma rectangular_of_cells (grid : ndarray) (w : Z) :
  (0 <= w)%Z ->
  (forall r c, (Z.of_nat r < Z.of_nat (length grid))%Z -> (Z.of_nat c < w)%Z ->
     is_Some (cell grid r c)) ->
  (forall r c, (w <= Z.of_nat c)%Z -> cell grid r c = None) ->
  rectangular grid w.
Proof.
  intros Hw Hin Hout. apply Forall_lookup_2. intros r row Hrow.
  pose proof (lookup_lt_Some _ _ _ Hrow) as Hr.
  assert (Hcell : forall c, cell grid r c = row !! c).
  { intros c. unfold cell. now rewrite Hrow. }
  assert (Hle : (length row <= Z.to_nat w)%nat).
  { pose proof (Hout r (Z.to_nat w)) as H. rewrite Hcell in H.
    apply lookup_ge_None. apply H. lia. }
  destruct (decide (w = 0)%Z) as [-> | Hpos]; [lia |].
  destruct (Hin r (Z.to_nat (w - 1))) as [v Hv]; [lia | lia |].
  rewrite Hcell in Hv. apply lookup_lt_Some in Hv. lia.
Qed.

End Script.

(** X21.  The script of find_coldest_spot.py, for a positive [unit_size]
    and non-empty coordinate columns: [create_grid],
    [apply_points_to_grid] and [find_coldest_point] all return; the point
    reported is the center of a cell of the grid, hence strictly inside the
    box the grid covers; that cell holds the least value of the array after
    the accumulation, and it is the first such cell in row-major order. *)
Theorem script_reports_the_first_least_visited_cell
    (latitudes longitudes : list R) (unit_size : R) :
  latitudes <> [] -> longitudes <> [] -> 0 < unit_size ->
  exists grid lat_min lon_min h w heat r c x,
    ColdestSpot.create_grid latitudes longitudes unit_size
    = Py.Ok (grid, lat_min, lon_min, h, w)
    /\ ColdestSpot.apply_points_to_grid grid latitudes longitudes
         lat_min lon_min unit_size 10 = Py.Ok heat
    /\ ColdestSpot.coldest_point latitudes longitudes unit_size
       = Py.Ok (center_of lat_min lon_min unit_size r c)
    /\ (Z.of_nat r < h)%Z /\ (Z.of_nat c < w)%Z
    /\ cell heat r c = Some (Fin x)
    /\ (forall r' c' x', cell heat r' c' = Some (Fin x') ->
          x <= x' /\ (row_major_before r' c' r c -> x < x'))
    /\ lat_min < fst (center_of lat_min lon_min unit_size r c)
               < lat_min + IZR h * unit_size
    /\ lon_min < snd (center_of lat_min lon_min unit_size r c)
               < lon_min + IZR w * unit_size.
Proof.
  intros Hlat Hlon Hu.
  destruct (create_grid_returns latitudes longitudes unit_size Hlat Hlon Hu)
    as (grid & lat_min & lon_min & h & w & Hcreate & Hzeros & Hshape & Hin).
  assert (Hdim : (1 <= h)%Z /\ (1 <= w)%Z).
  { destruct latitudes as [| lat ?]; [congruence |].
    destruct longitudes as [| lon ?]; [congruence |].
    destruct (Hin lat lon); [now left | now left |]. lia. }
  destruct Hdim as [Hh Hw].
  destruct (exposure (ColdestSpot.weight 10) h w grid
              latitudes longitudes lat_min lon_min unit_size 10)
    as (heat & Hrun & Hshape' & Hall & _);
    [lra | exact Hzeros | exact Hshape | apply weight_unit |].
  destruct (apply_points_spec (ColdestSpot.weight 10) lat_min lon_min
              unit_size 10 grid latitudes longitudes)
    as (heat' & Hrun' & _ & Hcells); [lra |].
  rewrite Hrun in Hrun'. injection Hrun' as <-.
  assert (Hlen : Z.of_nat (length heat) = h).
  { unfold shape in Hshape'. now injection Hshape'. }
  assert (Hrect : rectangular heat w).
  { apply rectangular_of_cells; [lia | |].
    - intros r c Hr Hc. destruct (Hall r c) as (v & -> & _); [lia | lia |].
      now exists (Fin v).
    - intros r c Hc. rewrite Hcells.
      rewrite (zeros_outside h w grid r c Hzeros) by now right.
      apply fold_bump_absent. }
  destruct (coldest_cell_found heat lat_min lon_min unit_size h w
              Hshape' Hrect Hh Hw) as (r & c & v & Hfind & Hcell & Hmin).
  { intros r c Hnan.
    destruct (cell_in_grid heat h w Hshape' Hrect r c _ Hnan) as [Hr Hc].
    destruct (Hall r c Hr Hc) as (v & Hv & _). congruence. }
  destruct (cell_in_grid heat h w Hshape' Hrect r c _ Hcell) as [Hr Hc].
  destruct (Hall r c Hr Hc) as (x & Hx & _).
  rewrite Hx in Hcell. injection Hcell as <-.
  exists grid, lat_min, lon_min, h, w, heat, r, c, x.
  split; [exact Hcreate |]. split; [exact Hrun |]. split.
  { unfold ColdestSpot.coldest_point. rewrite Hcreate. run_binds.
    unfold ColdestSpot.apply_points_to_grid in Hrun |- *. rewrite Hrun.
    run_binds. exact Hfind. }
  split; [exact Hr |]. split; [exact Hc |]. split; [exact Hx |]. split.
  { intros r' c' x' Hcell'. destruct (Hmin r' c' _ Hcell') as [Hle Hlt].
    simpl in Hle. split; [exact Hle |].
    intros Hbefore. apply Hlt in Hbefore. simpl in Hbefore. lra. }
  assert (Hr' : IZR (Z.of_nat r) + 1 <= IZR h).
  { rewrite <- plus_IZR. apply IZR_le. lia. }
  assert (Hc' : IZR (Z.of_nat c) + 1 <= IZR w).
  { rewrite <- plus_IZR. apply IZR_le. lia. }
  assert (Hr0 : 0 <= IZR (Z.of_nat r)) by (apply IZR_le; lia).
  assert (Hc0 : 0 <= IZR (Z.of_nat c)) by (apply IZR_le; lia).
  unfold center_of. simpl. repeat split; nra.
Qed.

Lemma script_reports_the_first_least_visited_cell_witness :
  exists grid lat_min lon_min h w heat r c x,
    ColdestSpot.create_grid [0; 3] [0; 1] 1
    = Py.Ok (grid, lat_min, lon_min, h, w)
    /\ ColdestSpot.apply_points_to_grid grid [0; 3] [0; 1]
         lat_min lon_min 1 10 = Py.Ok heat
    /\ ColdestSpot.coldest_point [0; 3] [0; 1] 1
       = Py.Ok (center_of lat_min lon_min 1 r c)
    /\ (Z.of_nat r < h)%Z /\ (Z.of_nat c < w)%Z
    /\ cell heat r c = Some (Fin x)
    /\ (forall r' c' x', cell heat r' c' = Some (Fin x') ->
          x <= x' /\ (row_major_before r' c' r c -> x < x'))
    /\ lat_min < fst (center_of lat_min lon_min 1 r c)
               < lat_min + IZR h * 1
    /\ lon_min < snd (center_of lat_min lon_min 1 r c)
               < lon_min + IZR w * 1.
Proof.
  apply (script_reports_the_first_least_visited_cell [0; 3] [0; 1] 1);
    [discriminate | discriminate | lra].
Defined.

(** ** A range that holds no radius *)

Section EmptySweep.

Lemma arange_reversed (lo hi step : Q) :
  (0 < step)%Q -> (hi + step <= lo)%Q ->
  arange lo (hi + step) step = Py.Ok [].
Proof.
  intros Hstep Hrev. unfold arange. rewrite (positive_step step Hstep).
  set (q := ((hi + step - lo) / step)%Q).
  assert (Hq : (q <= 0)%Q).
  { unfold q. apply Qle_shift_div_r; [exact Hstep | Lqa.lra]. }
  assert (Hc : (Qceiling q <= 0)%Z).
  { change 0%Z with (Qceiling 0). now apply Qceiling_resp_le. }
  replace (Z.to_nat (Qceiling q)) with 0%nat by lia. reflexivity.
Qed.

End EmptySweep.

(** X23.  When the upper end of the radius range lies a step or more below
    its lower end (with a positive step), no radius is swept: each of the
    three [precompute_optimal_points] returns the empty dict without
    calling the optimizer, printing or writing a row. *)
Theorem reversed_range_sweeps_nothing {fl : Float64} {S1 S2 S3 : Type}
    (minimize : (coord -> Py.result float64) -> coord -> list (R * R) ->
                S1 -> Py.result OptimizeResult * S1)
    (evolution : (coord -> Py.result float64) -> list (R * R) ->
                 S2 -> Py.result OptimizeResult * S2)
    (evolution_2 : (coord -> Py.result float64) -> list (R * R) ->
                   S3 -> Py.result OptimizeResult * S3)
    (points : list coord) (center : coord) (radius_range : Q * Q) (step : Q)
    (polygons : list Geometry) (s1 : S1) (s2 : S2) (s3 : S3) :
  (0 < step)%Q -> (snd radius_range + step <= fst radius_range)%Q ->
  OptimalPoint.precompute_optimal_points minimize points center
    radius_range step s1 = Py.Ok (sweep_start s1)
  /\ PureRadiusDx.precompute_optimal_points evolution points center
       radius_range step s2 = Py.Ok (sweep_start s2)
  /\ OptimalPoint2.precompute_optimal_points evolution_2 points center
       radius_range step polygons s3 = Py.Ok (sweep_start s3).
Proof.
  intros Hstep Hrev.
  unfold OptimalPoint.precompute_optimal_points,
    PureRadiusDx.precompute_optimal_points,
    OptimalPoint2.precompute_optimal_points.
  rewrite (arange_reversed _ _ step Hstep Hrev). repeat split.
Qed.

Lemma reversed_range_sweeps_nothing_witness :
  OptimalPoint.precompute_optimal_points (fl := exact_arithmetic)
    alternating_minimize [origin] origin (5%Q, 3%Q) 1 0%nat
  = Py.Ok (sweep_start 0%nat)
  /\ PureRadiusDx.precompute_optimal_points (fl := exact_arithmetic)
       alternating_evolution [origin] origin (5%Q, 3%Q) 1 0%nat
     = Py.Ok (sweep_start 0%nat)
  /\ OptimalPoint2.precompute_optimal_points (fl := exact_arithmetic)
       alternating_evolution [origin] origin (5%Q, 3%Q) 1 [] 0%nat
     = Py.Ok (sweep_start 0%nat).
Proof.
  apply (reversed_range_sweeps_nothing (fl := exact_arithmetic)
           alternating_minimize
           alternating_evolution alternating_evolution
           [origin] origin (5%Q, 3%Q) 1%Q [] 0%nat 0%nat 0%nat).
  - reflexivity.
  - discriminate.
Defined.
